(** * EXEtoPY: the dependency and packaging pipeline of [compiler.py]

    A shallow embedding of [src/compiler.py]: [DependencyManager],
    [ImportAnalyzer] and [PyToExeCompiler], then [FileManager],
    [AutoCompiler] and [main], with the properties of the specification
    that concern them and further properties of the code.

    Conventions of the embedding.
    - A Python [str] is a [string]; every character stands for one code point
      below 256.  Glyphs outside ASCII occur only inside printed messages,
      where they stand for their UTF-8 bytes and are never inspected.
    - Code that touches the outside world runs in the monad [M]: it threads the
      trace of what the program has done so far and may raise a Python
      exception.  What the world answers is given by an environment [Env] of
      oracles, each of which may depend on the whole history.
    - Exceptions follow Python's hierarchy as far as the handlers of the
      program tell classes apart.  Library calls raise subclasses of
      [Exception].  The prompt and the import of a module may raise anything:
      an interrupt is delivered at the prompt, and an import runs the code of
      the module, which may call [sys.exit].  Signals arriving at other
      moments are outside the model, and so is a failing [print]. *)

From Stdlib Require Import Ascii NArith.
From stdpp Require Import base list strings gmap sets pretty.



(** ** Python's [str] methods *)

Module Str.

Definition code (c : ascii) : N := N_of_ascii c.

(** [str.isspace] on one character (code points below 256). *)
Definition isspace (c : ascii) : bool :=
  let n := code c in
  ((9 <=? n) && (n <=? 13) || (28 <=? n) && (n <=? 32)
   || (n =? 133) || (n =? 160))%N.

(** [str.lower] on one character (code points below 256). *)
Definition lower_char (c : ascii) : ascii :=
  let n := code c in
  if ((65 <=? n) && (n <=? 90)
      || (192 <=? n) && (n <=? 222) && negb (n =? 215))%N
  then ascii_of_N (n + 32) else c.

Fixpoint lower (s : string) : string :=
  match s with
  | "" => ""
  | String c s' => String (lower_char c) (lower s')
  end.

Fixpoint lstrip (s : string) : string :=
  match s with
  | "" => ""
  | String c s' => if isspace c then lstrip s' else s
  end.

(** [rstrip] keeps a character when it is not a space or when something
    is left after it. *)
Fixpoint rstrip (s : string) : string :=
  match s with
  | "" => ""
  | String c s' =>
      match rstrip s' with
      | "" => if isspace c then "" else String c ""
      | r => String c r
      end
  end.

(** [s.strip()] *)
Definition strip (s : string) : string := rstrip (lstrip s).

(** [s.startswith(p)] *)
Fixpoint startswith (s p : string) : bool :=
  match p, s with
  | "", _ => true
  | String _ _, "" => false
  | String a p', String b s' => bool_decide (a = b) && startswith s' p'
  end.

(** [s.endswith(p)] *)
Definition endswith (s p : string) : bool :=
  startswith (String.rev s) (String.rev p).

(** [s.split(sep)] for a non-empty [sep]: the pieces between the
    occurrences of [sep], found from the left without overlap.  [skip]
    counts the characters of a separator still to be passed over and [cur]
    holds the current piece, reversed. *)
Fixpoint split_go (sep : string) (skip : nat) (cur : string) (s : string)
  : list string :=
  match s with
  | "" => [String.rev cur]
  | String c s' =>
      match skip with
      | S k => split_go sep k cur s'
      | O =>
          if startswith s sep
          then String.rev cur :: split_go sep (String.length sep - 1) "" s'
          else split_go sep O (String c cur) s'
      end
  end.

Definition split (s sep : string) : list string := split_go sep O "" s.

(** [l[0]] on a list of strings that is known not to be empty. *)
Definition item0 (l : list string) : string := hd "" l.

(** [s.replace(a, b)] for single characters [a] and [b]. *)
Fixpoint replace_char (a b : ascii) (s : string) : string :=
  match s with
  | "" => ""
  | String c s' => String (if bool_decide (c = a) then b else c) (replace_char a b s')
  end.

(** [sep.join(l)] *)
Fixpoint join (sep : string) (l : list string) : string :=
  match l with
  | [] => ""
  | [x] => x
  | x :: l' => x +:+ sep +:+ join sep l'
  end.

(** Truth value of a string: [if s:] *)
Definition truthy (s : string) : bool := negb (bool_decide (s = "")).

(** A string or [None], when it passes [if o:]. *)
Definition present (o : option string) : option string :=
  match o with
  | Some s => if truthy s then Some s else None
  | None => None
  end.

(** [s] has an occurrence of [sep]. *)
Definition occurs (sep s : string) : Prop :=
  ∃ p r, s = p +:+ sep +:+ r.

(** [p] is what stands before the first occurrence of [sep] in [s], or
    all of [s] when there is none. *)
Inductive cut_at (sep : string) (s : string) : string → Prop :=
| cut_whole : ¬ occurs sep s → cut_at sep s s
| cut_first p r :
    s = p +:+ sep +:+ r →
    (∀ p' r', s = p' +:+ sep +:+ r' → String.length p ≤ String.length p') →
    cut_at sep s p.

End Str.

(** ** Exceptions, the trace and the environment *)

(** The subclasses of [Exception] that the handlers of the program tell
    apart; each carries its [str()].  [CalledProcessError] also carries the
    captured error stream. *)
Inductive Exception :=
| ImportError (msg : string)
| CalledProcessError (msg stderr : string)
| FileNotFoundError (msg : string)
| EOFError (msg : string)
| OtherException (msg : string).

(** [Exit] is [SystemExit]; it also stands for any other class outside
    [Exception] apart from [KeyboardInterrupt], which no handler of the
    program tells from it. *)
Inductive BaseException :=
| Exc (e : Exception)
| KeyboardInterrupt
| Exit (code : string).

(** [str(e)] *)
Definition exn_str (e : Exception) : string :=
  match e with
  | ImportError m | CalledProcessError m _ | FileNotFoundError m
  | EOFError m | OtherException m => m
  end.

(** What the program did to the outside world, with what came back.
    [None] stands for a call that returned normally. *)
Inductive event :=
| EvPrint (line : string)
| EvInput (prompt : string) (answer : BaseException + string)
| EvImport (name : string) (raised : option BaseException)
| EvCheckCall (args : list string) (raised : option Exception)
| EvRun (cmd : list string) (raised : option Exception)
| EvRemove (path : string) (raised : option Exception)
| EvRmtree (path : string) (raised : option Exception).

(** The trace, latest event first. *)
Definition trace := list event.

Local Set Warnings "-register-all".

(** The syntax tree, as far as [extract_imports] looks at it: an alias of
    an [import], the two kinds of import statements, and any other node
    with its children. *)
Inductive alias := Alias (name : string) (asname : option string).

Inductive node :=
| Ast_Import (names : list alias)
| Ast_ImportFrom (module : option string) (names : list alias) (level : nat)
| Ast_Node (children : list node).

Definition alias_name (a : alias) : string := let 'Alias n _ := a in n.

(** [ast.walk]: the node and all its descendants.  The library leaves the
    order unspecified. *)
Fixpoint walk (n : node) : list node :=
  n :: match n with
       | Ast_Node children => flat_map walk children
       | _ => []
       end.

(** The interpreter, the library functions that depend on the platform and
    the outside world.  The oracles of the world take the history. *)
Record Env := {
  sys_argv : list string;
  sys_executable : string;
  os_path_dirname : string → string;
  os_path_basename : string → string;
  os_path_join : string → string → string;
  os_path_splitext : string → string * string;
  (** [str()] of a list of strings *)
  repr_list : list string → string;
  (** the order in which a set is iterated *)
  set_iter : gset string → list string;
  set_iter_perm : ∀ X, set_iter X ≡ₚ elements X;
  os_path_exists : trace → string → bool;
  os_listdir : trace → string → Exception + list string;
  (** [open(p, 'r', encoding='utf-8')] followed by [read()] *)
  open_read : trace → string → Exception + string;
  (** [open(p, 'r', encoding='utf-8')] followed by iteration: the lines
      that are read, and the error that ends the reading, if any *)
  open_lines : trace → string → Exception + (list string * option Exception);
  ast_parse : string → Exception + node;
  (** [__import__(name)], which runs the code of the module *)
  import_module : trace → string → option BaseException;
  subprocess_check_call : trace → list string → option Exception;
  subprocess_run : trace → list string → option Exception;
  input : trace → string → BaseException + string;
  os_remove : trace → string → option Exception;
  shutil_rmtree : trace → string → option Exception;
}.

(** ** The monad of effects *)

Definition M (A : Type) : Type := trace → (BaseException + A) * trace.

Definition ret {A} (a : A) : M A := λ t, (inr a, t).

Definition bind {A B} (m : M A) (k : A → M B) : M B :=
  λ t, match m t with
       | (inr a, t') => k a t'
       | (inl e, t') => (inl e, t')
       end.

Notation "'let*' x := m 'in' k" := (bind m (λ x, k))
  (at level 10, x name, m at level 100, k at level 200,
   format "'[v' 'let*'  x  :=  m  'in' '/' k ']'").
Notation "m ;;; k" := (bind m (λ _, k))
  (at level 100, k at level 200, right associativity,
   format "'[v' m  ;;; '/' k ']'").

(** [try: body except ...: ...]: [handler] answers [None] when no clause
    matches, and the exception goes on to the caller. *)
Definition try_except {A} (body : M A) (handler : BaseException → option (M A))
  : M A :=
  λ t, match body t with
       | (inl e, t') =>
           match handler e with
           | Some h => h t'
           | None => (inl e, t')
           end
       | r => r
       end.

(** [for x in l: s = body(x, s)] *)
Fixpoint for_each {A S} (l : list A) (body : A → S → M S) (s : S) : M S :=
  match l with
  | [] => ret s
  | x :: l' => let* s' := body x s in for_each l' body s'
  end.

Definition print (line : string) : M unit := λ t, (inr (), EvPrint line :: t).

(** ['=' * n] *)
Fixpoint rule (n : nat) : string :=
  match n with O => "" | S k => String "=" (rule k) end.

(** ** [class DependencyManager] *)

Section Program.

Context (env : Env).

(** *** Calls into the outside world *)

Definition path_exists (p : string) : M bool :=
  λ t, (inr (os_path_exists env t p), t).

Definition listdir (p : string) : M (list string) :=
  λ t, match os_listdir env t p with
       | inl e => (inl (Exc e), t)
       | inr l => (inr l, t)
       end.

Definition read_file (p : string) : M string :=
  λ t, match open_read env t p with
       | inl e => (inl (Exc e), t)
       | inr s => (inr s, t)
       end.

Definition parse_source (content : string) : M node :=
  λ t, match ast_parse env content with
       | inl e => (inl (Exc e), t)
       | inr n => (inr n, t)
       end.

Definition outcome (ev : option Exception → event) (r : option Exception)
  : M unit :=
  λ t, (match r with Some e => inl (Exc e) | None => inr () end, ev r :: t).

Definition import_ (name : string) : M unit :=
  λ t, let r := import_module env t name in
       (match r with Some b => inl b | None => inr () end,
        EvImport name r :: t).

Definition check_call (args : list string) : M unit :=
  λ t, outcome (EvCheckCall args) (subprocess_check_call env t args) t.

(** [subprocess.run(cmd, capture_output=True, text=True, check=True)] *)
Definition run (cmd : list string) : M unit :=
  λ t, outcome (EvRun cmd) (subprocess_run env t cmd) t.

Definition remove (p : string) : M unit :=
  λ t, outcome (EvRemove p) (os_remove env t p) t.

Definition rmtree (p : string) : M unit :=
  λ t, outcome (EvRmtree p) (shutil_rmtree env t p) t.

Definition input_ (prompt : string) : M string :=
  λ t, let r := input env t prompt in
       (r, EvInput prompt r :: t).

(** *** The methods *)

Definition REQUIRED_PACKAGES : list string := ["pyinstaller"].

Definition check_package_installed (package_name : string) : M bool :=
  try_except
    (let import_name := Str.replace_char "-" "_" (Str.lower package_name) in
     import_ import_name;;;
     ret true)
    (λ b, match b with
          | Exc (ImportError _) => Some (ret false)
          | _ => None
          end).

Definition install_package (package_name : string) : M bool :=
  try_except
    (print ("📦 Installing " +:+ package_name +:+ "...");;;
     check_call [sys_executable env; "-m"; "pip"; "install"; package_name];;;
     print ("✅ " +:+ package_name +:+ " installed successfully!");;;
     ret true)
    (λ b, match b with
          | Exc (CalledProcessError _ _ as e) =>
              Some (print ("❌ Failed to install " +:+ package_name +:+ ": "
                           +:+ exn_str e);;;
                    ret false)
          | Exc e =>
              Some (print ("❌ Error installing " +:+ package_name +:+ ": "
                           +:+ exn_str e);;;
                    ret false)
          | _ => None
          end).

(** The body of the loop of [parse_requirements_file]: [packages] after
    one more [line]. *)
Definition requirement_of_line (packages : list string) (line : string)
  : list string :=
  let line := Str.strip line in
  if negb (Str.truthy line) || Str.startswith line "#"
     || Str.startswith line "-"
  then packages
  else
    let package_name :=
      Str.strip
        (Str.item0 (Str.split
           (Str.item0 (Str.split
              (Str.item0 (Str.split line ">=")) "==")) "<=")) in
    if Str.truthy package_name then packages ++ [package_name]
    else packages.

(** [packages] is assigned before the [try] and returned after it, so it
    keeps what the loop appended before an error. *)
Definition parse_requirements_file (requirements_path : string)
  : M (list string) :=
  λ t,
    let packages := [] in
    (* try: *)
    let '(packages, raised, t) :=
      if os_path_exists env t requirements_path then
        match open_lines env t requirements_path with
        | inl e => (packages, Some e, t)
        | inr (lines, err) =>
            let packages := foldl requirement_of_line packages lines in
            match err with
            | Some e => (packages, Some e, t)
            | None =>
                (packages, None,
                 EvPrint ("📋 Found " +:+ pretty (length packages)
                          +:+ " packages in requirements.txt") :: t)
            end
        end
      else (packages, None, EvPrint "📋 No requirements.txt file found" :: t)
    in
    (* except Exception as e: *)
    let t :=
      match raised with
      | Some e =>
          EvPrint ("❌ Error reading requirements.txt: " +:+ exn_str e) :: t
      | None => t
      end in
    (inr packages, t).

Definition find_requirements_file (script_path : string)
  : M (option string) :=
  let script_dir := os_path_dirname env script_path in
  let requirements_path := os_path_join env script_dir "requirements.txt" in
  let* found := path_exists requirements_path in
  ret (if found then Some requirements_path else None).

(** [missing_packages] of the packages in [l], in their order *)
Definition missing_of (l : list string) : M (list string) :=
  for_each l
    (λ package missing_packages,
       let* installed := check_package_installed package in
       ret (if installed then missing_packages
            else missing_packages ++ [package]))
    [].

(** The installing loop of [ensure_compiler_dependencies], which returns
    at the first failure. *)
Fixpoint install_required (missing_packages : list string) : M bool :=
  match missing_packages with
  | [] => ret true
  | package :: rest =>
      let* ok := install_package package in
      if ok then install_required rest
      else
        print "❌ Compiler setup failed. Please install PyInstaller manually:";;;
        print "   pip install pyinstaller";;;
        ret false
  end.

Definition ensure_compiler_dependencies : M bool :=
  let* missing_packages := missing_of REQUIRED_PACKAGES in
  if bool_decide (missing_packages = []) then ret true
  else
    print (rule 50);;;
    print "COMPILER DEPENDENCIES REQUIRED";;;
    print (rule 50);;;
    print ("Required for compilation: " +:+ Str.join ", " missing_packages);;;
    print "This program will automatically install them.";;;
    install_required missing_packages.

(** Lines 186-194: the confirmation.  [false] stands for the
    [return False] of the block. *)
Definition confirm_install : M bool :=
  if bool_decide (length (sys_argv env) = 1) then
    try_except
      (let* answer := input_ "Install project dependencies? (y/n): " in
       let response := Str.lower (Str.strip answer) in
       if bool_decide (response ∈ ["y"; "yes"; ""]) then ret true
       else
         print "⚠️  Project dependencies not installed - compilation may fail";;;
         ret false)
      (λ b, match b with
            | Exc (EOFError _) | KeyboardInterrupt => Some (ret false)
            | _ => None
            end)
  else ret true.

(** Lines 196-208: the installing loop and its report. *)
Definition install_missing (missing_packages : list string) : M bool :=
  let* success_count :=
    for_each missing_packages
      (λ package success_count,
         let* ok := install_package package in
         ret (if ok then S success_count else success_count))
      0 in
  if bool_decide (success_count = length missing_packages) then
    print "✅ All project dependencies installed successfully!";;;
    ret true
  else
    print ("⚠️  Only " +:+ pretty success_count +:+ "/"
           +:+ pretty (length missing_packages)
           +:+ " packages installed successfully");;;
    print "Compilation may fail due to missing dependencies";;;
    ret true.

Definition ensure_project_dependencies (script_path : string) : M bool :=
  let* requirements_path := find_requirements_file script_path in
  match Str.present requirements_path with
  | None =>
      print "📋 No requirements.txt found - skipping project dependencies";;;
      ret true
  | Some requirements_path =>
  let* required_packages := parse_requirements_file requirements_path in
  if bool_decide (required_packages = []) then ret true else
  let required_packages :=
    filter (λ pkg, Str.lower pkg ≠ "pyinstaller") required_packages in
  if bool_decide (required_packages = []) then
    print "✅ Only PyInstaller in requirements - already handled";;;
    ret true
  else
  let* requirements_path := find_requirements_file script_path in
  match Str.present requirements_path with
  | None =>
      print "📋 No requirements.txt found - skipping project dependencies";;;
      ret true
  | Some requirements_path =>
  let* required_packages := parse_requirements_file requirements_path in
  if bool_decide (required_packages = []) then ret true else
  let* missing_packages := missing_of required_packages in
  if bool_decide (missing_packages = []) then
    print "✅ All project dependencies are already installed";;;
    ret true
  else
  print (rule 50);;;
  print "PROJECT DEPENDENCIES REQUIRED";;;
  print (rule 50);;;
  print ("Packages needed: " +:+ Str.join ", " missing_packages);;;
  print "This program will automatically install them.";;;
  let* proceed := confirm_install in
  if proceed then install_missing missing_packages else ret false
  end
  end.

(** ** [class ImportAnalyzer] *)

(** What one node contributes to [imports]. *)
Definition node_imports (n : node) : list string :=
  match n with
  | Ast_Import names => map alias_name names
  | Ast_ImportFrom (Some module) _ _ =>
      if Str.truthy module then [module] else []
  | _ => []
  end.

Definition extract_imports (file_path : string) : M (list string) :=
  try_except
    (let* content := read_file file_path in
     let* tree := parse_source content in
     let imports := flat_map node_imports (walk tree) in
     ret (set_iter env (list_to_set imports)))
    (λ b, match b with
          | Exc e =>
              Some (print ("Warning: Could not parse imports from "
                           +:+ file_path +:+ ": " +:+ exn_str e);;;
                    ret [])
          | _ => None
          end).

Definition find_local_modules (main_script_path : string)
  : M (list string) :=
  let script_dir := os_path_dirname env main_script_path in
  let* files := listdir script_dir in
  ret (map (os_path_join env script_dir)
         (filter (λ file,
                    Str.endswith file ".py"
                    ∧ file ≠ os_path_basename env main_script_path
                    ∧ ¬ Str.startswith file "compiler")
            files)).

Record analysis := {
  main_imports : list string;
  local_modules : list string;
  all_imports : list string;
  external_imports : list string;
  local_module_names : list string;
}.

Definition stdlib_modules : gset string :=
  {[ "os"; "sys"; "math"; "json"; "datetime"; "time"; "re";
     "random"; "pathlib"; "collections"; "itertools"; "functools" ]}.

Definition analyze_dependencies (main_script_path : string) : M analysis :=
  let* main_imports := extract_imports main_script_path in
  let* local_modules := find_local_modules main_script_path in
  let* all_imports :=
    for_each local_modules
      (λ module_path (all_imports : gset string),
         let* module_imports := extract_imports module_path in
         ret (all_imports ∪ list_to_set module_imports))
      (list_to_set main_imports) in
  let external_imports :=
    filter (λ imp, imp ∉ stdlib_modules) (set_iter env all_imports) in
  ret {| main_imports := main_imports;
         local_modules := local_modules;
         all_imports := set_iter env all_imports;
         external_imports := external_imports;
         local_module_names := map (os_path_basename env) local_modules |}.

(** ** [class PyToExeCompiler] *)

Definition _cleanup_temp_files (output_dir script_name : string) : M unit :=
  let spec_file := os_path_join env output_dir (script_name +:+ ".spec") in
  let build_dir := os_path_join env output_dir "build" in
  try_except
    (let* found := path_exists spec_file in
     (if found then remove spec_file else ret ());;;
     let* found := path_exists build_dir in
     if found then rmtree build_dir else ret ())
    (λ b, match b with
          | Exc e =>
              Some (print ("⚠️  Warning: Could not clean up temporary files: "
                           +:+ exn_str e))
          | _ => None
          end).

(** The [try] block of [compile_to_exe]. *)
Definition compile_body (python_script_path : string)
  (output_dir : option string) : M bool :=
  let output_dir :=
    match output_dir with
    | None => os_path_dirname env python_script_path
    | Some d => d
    end in
  let* ok := ensure_compiler_dependencies in
  if negb ok then ret false else
  let* ok := ensure_project_dependencies python_script_path in
  if negb ok then ret false else
  print "🔍 Analyzing dependencies...";;;
  let* analysis := analyze_dependencies python_script_path in
  let script_name :=
    fst (os_path_splitext env (os_path_basename env python_script_path)) in
  let cmd :=
    [ "pyinstaller";
      "--onefile";
      "--console";
      "--distpath"; output_dir;
      "--workpath"; os_path_join env output_dir "build";
      "--specpath"; output_dir;
      "--name"; script_name;
      "--clean" ] in
  let cmd :=
    foldl (λ cmd external_import, cmd ++ ["--hidden-import"; external_import])
      cmd (external_imports analysis) in
  let cmd := cmd ++ [python_script_path] in
  print ("🚀 Compiling " +:+ python_script_path +:+ "...");;;
  print ("📦 Detected local modules: "
         +:+ repr_list env (local_module_names analysis));;;
  print ("🔗 Detected external imports: "
         +:+ repr_list env (external_imports analysis));;;
  print ("⚙️  Command: " +:+ Str.join " " cmd);;;
  run cmd;;;
  print "✅ Compilation completed successfully!";;;
  _cleanup_temp_files output_dir script_name;;;
  ret true.

(** The [except] clauses of [compile_to_exe]. *)
Definition compile_except (b : BaseException) : option (M bool) :=
  match b with
  | Exc (CalledProcessError _ stderr as e) =>
      Some (print ("❌ Compilation error: " +:+ exn_str e);;;
            print ("Error output: " +:+ stderr);;;
            ret false)
  | Exc (FileNotFoundError _) =>
      Some (print "❌ Error: PyInstaller not found. Install with: pip install pyinstaller";;;
            ret false)
  | Exc e =>
      Some (print ("❌ Unexpected error: " +:+ exn_str e);;;
            ret false)
  | _ => None
  end.

Definition compile_to_exe (python_script_path : string)
  (output_dir : option string) : M bool :=
  try_except (compile_body python_script_path output_dir) compile_except.

End Program.

(** ** A concrete world, to run the program on

    [posixpath] for the path functions, and a small project directory
    [proj] described by a [fixture]. *)

Module Posix.

(** [p] cut after its last ['/']: what [p[:i]] and [p[i:]] are for
    [i = p.rfind('/') + 1]. *)
Fixpoint rsplit (p : string) : string * string :=
  match p with
  | "" => ("", "")
  | String c p' =>
      let '(h, b) := rsplit p' in
      if bool_decide (h = "") && negb (bool_decide (c = "/"%char))
      then ("", String c b)
      else (String c h, b)
  end.

Definition basename (p : string) : string := snd (rsplit p).

Fixpoint all_slashes (s : string) : bool :=
  match s with
  | "" => true
  | String c s' => bool_decide (c = "/"%char) && all_slashes s'
  end.

(** [s.rstrip('/')] *)
Fixpoint rstrip_slash (s : string) : string :=
  match s with
  | "" => ""
  | String c s' =>
      match rstrip_slash s' with
      | "" => if bool_decide (c = "/"%char) then "" else String c ""
      | r => String c r
      end
  end.

Definition dirname (p : string) : string :=
  let head := fst (rsplit p) in
  if Str.truthy head && negb (all_slashes head) then rstrip_slash head
  else head.

Definition join (a b : string) : string :=
  if Str.startswith b "/" then b
  else if negb (Str.truthy a) || Str.endswith a "/" then a +:+ b
  else a +:+ "/" +:+ b.

(** [name] cut before its last ['.'], when a character other than ['.']
    stands before that dot. *)
Fixpoint split_dot (seen : bool) (name : string) : option (string * string) :=
  match name with
  | "" => None
  | String c name' =>
      let dot := bool_decide (c = "."%char) in
      match split_dot (seen || negb dot) name' with
      | Some (root, ext) => Some (String c root, ext)
      | None => if dot && seen then Some ("", name) else None
      end
  end.

Definition splitext (p : string) : string * string :=
  let '(head, name) := rsplit p in
  match split_dot false name with
  | Some (root, ext) => (head +:+ root, ext)
  | None => (p, "")
  end.

End Posix.

(** In the sample world the module [unittest.__main__] of the standard
    library is there: its import runs the test runner, which leaves by
    [sys.exit]. *)
Module Sample.

Record fixture := {
  fx_argv : list string;
  (** the lines of [proj/requirements.txt] and the error that ends the
      reading, when the file is there *)
  fx_manifest : option (list string * option Exception);
  (** the files of [proj], or why they cannot be listed *)
  fx_listing : Exception + list string;
  (** the text of the source files *)
  fx_sources : list (string * string);
  fx_importable : list string;
  (** the packages that [pip] installs *)
  fx_installable : list string;
  fx_answer : BaseException + string;
  fx_build : option Exception;
  fx_remove : option Exception;
}.

(** The parser on the texts of the samples. *)
Definition parse (content : string) : Exception + node :=
  if bool_decide (content = "import os, json, requests") then
    inr (Ast_Node [Ast_Import [Alias "os" None; Alias "json" None;
                               Alias "requests" None]])
  else if bool_decide (content = "import numpy") then
    inr (Ast_Node [Ast_Import [Alias "numpy" None]])
  else if bool_decide (content = "import numpy as np, os.path") then
    inr (Ast_Node [Ast_Import [Alias "numpy" (Some "np");
                               Alias "os.path" None]])
  else if bool_decide (content = "import os; from json import loads; from . import x; import os") then
    inr (Ast_Node [Ast_Import [Alias "os" None];
                   Ast_ImportFrom (Some "json") [Alias "loads" None] 0;
                   Ast_ImportFrom None [Alias "x" None] 1;
                   Ast_Import [Alias "os" None]])
  else inl (OtherException "invalid syntax (<unknown>, line 1)").

Definition lookup_file (files : list (string * string)) (p : string)
  : Exception + string :=
  match list_find (λ f, f.1 = p) files with
  | Some (_, (_, text)) => inr text
  | None =>
      inl (FileNotFoundError ("[Errno 2] No such file or directory: '"
                              +:+ p +:+ "'"))
  end.

Definition pip_outcome (fx : fixture) (args : list string) : option Exception :=
  match args with
  | [_; _; _; package] =>
      if bool_decide (package ∈ fx_installable fx) then None
      else Some (CalledProcessError
                   "Command 'pip install' returned non-zero exit status 1." "")
  | _ => Some (OtherException "unexpected arguments")
  end.

(** The packaging tool has left its files behind. *)
Definition built (t : trace) : bool :=
  existsb (λ e, match e with EvRun _ None => true | _ => false end) t.

Definition world (fx : fixture) : Env := {|
  sys_argv := fx_argv fx;
  sys_executable := "python";
  os_path_dirname := Posix.dirname;
  os_path_basename := Posix.basename;
  os_path_join := Posix.join;
  os_path_splitext := Posix.splitext;
  repr_list := λ l,
    "[" +:+ Str.join ", " (map (λ x, "'" +:+ x +:+ "'") l) +:+ "]";
  set_iter := elements;
  set_iter_perm := λ X, reflexivity (elements X);
  os_path_exists := λ t p,
    bool_decide (p = "proj/requirements.txt")
    && bool_decide (is_Some (fx_manifest fx))
    || bool_decide (p ∈ ["proj/main.spec"; "proj/build"]) && built t;
  os_listdir := λ _ p,
    if bool_decide (p = "proj") then fx_listing fx
    else inl (FileNotFoundError "[Errno 2] No such file or directory");
  open_read := λ _ p, lookup_file (fx_sources fx) p;
  open_lines := λ _ p,
    match fx_manifest fx with
    | Some m => if bool_decide (p = "proj/requirements.txt") then inr m
                else inl (FileNotFoundError "[Errno 2] No such file or directory")
    | None => inl (FileNotFoundError "[Errno 2] No such file or directory")
    end;
  ast_parse := parse;
  import_module := λ _ name,
    if bool_decide (name ∈ fx_importable fx) then None
    else if bool_decide (name = "unittest.__main__") then Some (Exit "1")
    else Some (Exc (ImportError ("No module named '" +:+ name +:+ "'")));
  subprocess_check_call := λ _ args, pip_outcome fx (drop 1 args);
  subprocess_run := λ _ _, fx_build fx;
  input := λ _ _, fx_answer fx;
  os_remove := λ _ _, fx_remove fx;
  shutil_rmtree := λ _ _, fx_remove fx;
|}.

(** A project whose entry imports [os], [json] and [requests], with one
    local module importing [numpy] and a manifest of six lines. *)
Definition six_lines : list string :=
  ["# comment"; ""; "flask>=2.0"; "requests==2.31.0"; "-e ."; "click"].

Definition project : fixture := {|
  fx_argv := ["compiler.py"; "proj/main.py"];
  fx_manifest := Some (six_lines, None);
  fx_listing := inr ["main.py"; "helper.py"; "compiler.py"; "notes.txt"];
  fx_sources := [("proj/main.py", "import os, json, requests");
                 ("proj/helper.py", "import numpy");
                 ("proj/mixed.py",
                  "import os; from json import loads; from . import x; import os");
                 ("proj/broken.py", "def broken(:");
                 ("proj/aliased.py", "import numpy as np, os.path")];
  fx_importable := ["pyinstaller"; "flask"; "requests"];
  fx_installable := ["click"];
  fx_answer := inl (Exc (EOFError "EOF when reading a line"));
  fx_build := None;
  fx_remove := None;
|}.

(** The same project with another manifest. *)
Definition with_manifest (lines : list string) (err : option Exception)
  : fixture :=
  Build_fixture (fx_argv project) (Some (lines, err)) (fx_listing project)
    (fx_sources project) (fx_importable project) (fx_installable project)
    (fx_answer project) (fx_build project) (fx_remove project).

(** The manifest names one package, which is not there and which [pip]
    cannot install. *)
Definition failing_install : fixture :=
  Build_fixture ["compiler.py"; "proj/main.py"] (Some (["flask"], None))
    (fx_listing project) (fx_sources project) [] []
    (fx_answer project) None None.

(** The manifest names the packaging tool next to a package; neither is
    there and [pip] can install both. *)
Definition tool_in_manifest : fixture :=
  Build_fixture ["compiler.py"; "proj/main.py"]
    (Some (["pyinstaller"; "flask"], None))
    (fx_listing project) (fx_sources project) []
    ["pyinstaller"; "flask"] (fx_answer project) None None.

(** The program is started without arguments and the user answers. *)
Definition prompted (answer : BaseException + string) : fixture :=
  Build_fixture ["compiler.py"] (fx_manifest project) (fx_listing project)
    (fx_sources project) (fx_importable project) (fx_installable project)
    answer None None.

(** The packaging tool fails. *)
Definition build_fails : fixture :=
  Build_fixture (fx_argv project) (fx_manifest project) (fx_listing project)
    (fx_sources project) (fx_importable project) (fx_installable project)
    (fx_answer project)
    (Some (CalledProcessError
             "Command 'pyinstaller' returned non-zero exit status 1."
             "script 'proj/main.py' not found"))
    None.

(** The packaging tool succeeds and its files cannot be removed. *)
Definition remove_fails : fixture :=
  Build_fixture (fx_argv project) (fx_manifest project) (fx_listing project)
    (fx_sources project) (fx_importable project) (fx_installable project)
    (fx_answer project) None
    (Some (OtherException "[Errno 13] Permission denied")).

End Sample.

(** ** Notions used to state the properties *)

Module Str_spec.

(** What stands before the first occurrence of [sep] in [s], computed. *)
Fixpoint before (sep s : string) : string :=
  if Str.startswith s sep then ""
  else match s with
       | "" => ""
       | String c s' => String c (before sep s')
       end.

Fixpoint occursb (sep s : string) : bool :=
  Str.startswith s sep
  || match s with
     | "" => false
     | String _ s' => occursb sep s'
     end.

(** What stands before the first place where one of [seps] occurs. *)
Fixpoint before_any (seps : list string) (s : string) : string :=
  if existsb (Str.startswith s) seps then ""
  else match s with
       | "" => ""
       | String c s' => String c (before_any seps s')
       end.

End Str_spec.

(** A line of the manifest that [parse_requirements_file] passes over. *)
Definition skipped (line : string) : Prop :=
  Str.strip line = "" ∨ Str.startswith (Str.strip line) "#"
  ∨ Str.startswith (Str.strip line) "-".

Global Instance skipped_dec line : Decision (skipped line).
Proof. unfold skipped. apply _. Defined.

(** The packages that one line adds. *)
Definition line_packages (line : string) : list string :=
  if decide (skipped line) then []
  else
    let name :=
      Str.strip (Str_spec.before "<="
                   (Str_spec.before "==" (Str_spec.before ">=" (Str.strip line))))
    in if decide (name = "") then [] else [name].

Definition newline : string := String "010"%char "".

(** The specification's wording of the name of a line, read in two ways:
    the operators are tried in their order and the first one that occurs
    decides where the line is cut; or the line is cut where the first
    operator occurs, whichever it is. *)
Definition spec_name_by_priority (line : string) : string :=
  Str.strip
    (if Str_spec.occursb ">=" line then Str_spec.before ">=" line
     else if Str_spec.occursb "==" line then Str_spec.before "==" line
     else Str_spec.before "<=" line).

Definition spec_name_by_position (line : string) : string :=
  Str.strip (Str_spec.before_any [">="; "=="; "<="] line).

Definition spec_requirements (name_of : string → string)
  (lines : list string) : list string :=
  flat_map (λ line,
              if decide (skipped line) then []
              else let name := name_of (Str.strip line) in
                   if decide (name = "") then [] else [name])
    lines.

(** The claim on [parse_requirements_file], for a reading [name_of]. *)
Definition spec_parse_requirements (name_of : string → string) : Prop :=
  ∀ env path t lines,
    os_path_exists env t path = true →
    open_lines env t path = inr (lines, None) →
    (parse_requirements_file env path t).1
    = inr (spec_requirements name_of lines).

(** What the code does with a line: it cuts at the first [>=], cuts the
    rest at its first [==] and cuts the rest of that at its first [<=]. *)
Inductive line_name (line : string) : string → Prop :=
| line_name_cut a b c :
    Str.cut_at ">=" (Str.strip line) a →
    Str.cut_at "==" a b →
    Str.cut_at "<=" b c →
    line_name line (Str.strip c).

Inductive names_of : list string → list string → Prop :=
| names_nil : names_of [] []
| names_skip line lines names :
    skipped line → names_of lines names → names_of (line :: lines) names
| names_empty line lines names :
    ¬ skipped line → line_name line "" → names_of lines names →
    names_of (line :: lines) names
| names_keep line name lines names :
    ¬ skipped line → line_name line name → name ≠ "" →
    names_of lines names → names_of (line :: lines) (name :: names).

(** The installs of a stretch of the trace, in the order they were run:
    the package and whether [pip] succeeded. *)
Definition succeeded (r : option Exception) : bool :=
  match r with None => true | Some _ => false end.

Definition install_of (e : event) : option (string * bool) :=
  match e with
  | EvCheckCall [_; _; _; _; package] r => Some (package, succeeded r)
  | _ => None
  end.

Definition installs (new : list event) : list (string * bool) :=
  reverse (omap install_of new).

(** How many of the installs succeeded. *)
Definition successes (new : list event) : nat :=
  length (filter (λ i, i.2 = true) (installs new)).

(** What [install_package] prints once [pip] has come back. *)
Definition install_report (package : string) (r : option Exception) : string :=
  match r with
  | None => "✅ " +:+ package +:+ " installed successfully!"
  | Some (CalledProcessError _ _ as e) =>
      "❌ Failed to install " +:+ package +:+ ": " +:+ exn_str e
  | Some e => "❌ Error installing " +:+ package +:+ ": " +:+ exn_str e
  end.

(** The warning of [ensure_project_dependencies] on a partial install. *)
Definition partial_warning (done total : nat) : event :=
  EvPrint ("⚠️  Only " +:+ pretty done +:+ "/" +:+ pretty total
           +:+ " packages installed successfully").

(** The claim on the result of the installing step, in the specification's
    words: success exactly when an install succeeded or none was needed. *)
Definition spec_install_result (results : list (string * bool)) (b : bool)
  : Prop :=
  b = true ↔ (∃ package, (package, true) ∈ results) ∨ results = [].

(** The claim on the list of declared packages, in the specification's
    words: the name of the packaging tool is not among the packages that
    are probed. *)
Definition probes (new : list event) : list string :=
  omap (λ e, match e with EvImport name _ => Some name | _ => None end) new.

Definition spec_excludes_packaging_tool : Prop :=
  ∀ env path t r t' new,
    ensure_project_dependencies env path t = (r, t') →
    t' = new ++ t →
    "pyinstaller" ∉ probes new.

Section Phases.

Context (env : Env).

(** Lines 147-178 of [ensure_project_dependencies]: the missing packages,
    or [None] where the method returns [True] at once. *)
Definition missing_project_packages (script_path : string)
  : M (option (list string)) :=
  let* requirements_path := find_requirements_file env script_path in
  match Str.present requirements_path with
  | None =>
      print "📋 No requirements.txt found - skipping project dependencies";;;
      ret None
  | Some requirements_path =>
  let* required_packages := parse_requirements_file env requirements_path in
  if bool_decide (required_packages = []) then ret None else
  let required_packages :=
    filter (λ pkg, Str.lower pkg ≠ "pyinstaller") required_packages in
  if bool_decide (required_packages = []) then
    print "✅ Only PyInstaller in requirements - already handled";;;
    ret None
  else
  let* requirements_path := find_requirements_file env script_path in
  match Str.present requirements_path with
  | None =>
      print "📋 No requirements.txt found - skipping project dependencies";;;
      ret None
  | Some requirements_path =>
  let* required_packages := parse_requirements_file env requirements_path in
  if bool_decide (required_packages = []) then ret None else
  let* missing_packages := missing_of env required_packages in
  if bool_decide (missing_packages = []) then
    print "✅ All project dependencies are already installed";;;
    ret None
  else ret (Some missing_packages)
  end
  end.

(** Lines 180-184: the announcement, as a trace. *)
Definition announced (missing_packages : list string) (t : trace) : trace :=
  EvPrint "This program will automatically install them."
  :: EvPrint ("Packages needed: " +:+ Str.join ", " missing_packages)
  :: EvPrint (rule 50)
  :: EvPrint "PROJECT DEPENDENCIES REQUIRED"
  :: EvPrint (rule 50)
  :: t.

(** The claim on [ensure_project_dependencies]: once packages are found
    missing and the confirmation lets the installs go ahead, the answer is
    as the specification words it. *)
Definition spec_ensure_project_dependencies : Prop :=
  ∀ path t missing t1 t2 b t' new,
    missing_project_packages path t = (inr (Some missing), t1) →
    confirm_install env (announced missing t1) = (inr true, t2) →
    ensure_project_dependencies env path t = (inr b, t') →
    t' = new ++ t2 →
    spec_install_result (installs new) b.

(** An answer at the prompt that lets the installs go ahead. *)
Definition accepted (answer : string) : bool :=
  bool_decide (Str.lower (Str.strip answer) ∈ ["y"; "yes"; ""]).

(** [extract_imports] on each of [modules] in turn. *)
Fixpoint extract_each (modules : list string) : M (list (list string)) :=
  match modules with
  | [] => ret []
  | module_path :: rest =>
      let* module_imports := extract_imports env module_path in
      let* others := extract_each rest in
      ret (module_imports :: others)
  end.

(** The command line of the packaging tool for an analysis. *)
Definition packaging_command (python_script_path output_dir : string)
  (externals : list string) : list string :=
  ["pyinstaller"; "--onefile"; "--console";
   "--distpath"; output_dir;
   "--workpath"; os_path_join env output_dir "build";
   "--specpath"; output_dir;
   "--name";
   fst (os_path_splitext env (os_path_basename env python_script_path));
   "--clean"]
  ++ flat_map (λ imp, ["--hidden-import"; imp]) externals
  ++ [python_script_path].

Definition output_dir_of (python_script_path : string)
  (output_dir : option string) : string :=
  default (os_path_dirname env python_script_path) output_dir.

End Phases.

(** Events of the packaging step and of the cleanup after it. *)
Definition packaging (e : event) : bool :=
  match e with
  | EvRun _ _ | EvRemove _ _ | EvRmtree _ _ => true
  | _ => false
  end.

Definition is_print (e : event) : bool :=
  match e with EvPrint _ => true | _ => false end.

(** The event [e] is an import or a prompt that raised [b]. *)
Definition raised_by (b : BaseException) (e : event) : Prop :=
  match e with
  | EvImport _ (Some b') => b' = b
  | EvInput _ (inl b') => b' = b
  | _ => False
  end.

(** A run from [t] that ends by an exception outside [Exception] only
    when the last thing it has done is an import or a prompt that raised
    it. *)
Definition calm {A} (t : trace) (run : (BaseException + A) * trace) : Prop :=
  ∀ b, run.1 = inl b →
       (∃ e, b = Exc e)
       ∨ ∃ e rest, run.2 = e :: rest ++ t ∧ raised_by b e.

(** [m] lets nothing outside [Exception] through but what an import or a
    prompt has raised, it only adds to the trace, and what it adds
    satisfies [P]. *)
Definition emits (P : event → Prop) {A} (m : M A) : Prop :=
  ∀ t, calm t (m t) ∧ ∃ new, (m t).2 = new ++ t ∧ Forall P new.

(** Events before the packaging step. *)
Definition prep (e : event) : Prop := packaging e = false.

(** [x] is a name listed by an [import] statement of the tree. *)
Definition imported (tree : node) (x : string) : Prop :=
  ∃ names a, Ast_Import names ∈ walk tree ∧ a ∈ names ∧ alias_name a = x.

(** [x] is the module of a [from ... import] statement of the tree. *)
Definition from_imported (tree : node) (x : string) : Prop :=
  ∃ names level, Ast_ImportFrom (Some x) names level ∈ walk tree.

(** What the parser guarantees: the module of a [from ... import] is
    [None] or a dotted name, which is not empty. *)
Definition parser_form (tree : node) : Prop :=
  ∀ names level, Ast_ImportFrom (Some "") names level ∉ walk tree.

(** The warning of [extract_imports]. *)
Definition parse_warning (file_path : string) (e : Exception) : event :=
  EvPrint ("Warning: Could not parse imports from " +:+ file_path +:+ ": "
           +:+ exn_str e).

(** Printing and probing for a module: what happens before the prompt. *)
Definition sounding (e : event) : Prop :=
  match e with
  | EvPrint _ | EvImport _ _ => True
  | _ => False
  end.

Definition is_input (e : event) : Prop :=
  match e with EvInput _ _ => True | _ => False end.

Definition declined_warning : event :=
  EvPrint "⚠️  Project dependencies not installed - compilation may fail".

Section Compile_phases.

Context (env : Env).

(** [compile_to_exe] up to the analysis; [None] stands for the
    [return False] after a dependency step. *)
Definition compile_prepare (python_script_path : string)
  : M (option analysis) :=
  let* ok := ensure_compiler_dependencies env in
  if negb ok then ret None else
  let* ok := ensure_project_dependencies env python_script_path in
  if negb ok then ret None else
  print "🔍 Analyzing dependencies...";;;
  let* analysis := analyze_dependencies env python_script_path in
  ret (Some analysis).

Definition script_name_of (python_script_path : string) : string :=
  fst (os_path_splitext env (os_path_basename env python_script_path)).

(** What is printed between the analysis and the packaging. *)
Definition compile_banner (python_script_path output_dir : string)
  (a : analysis) : list event :=
  [EvPrint ("⚙️  Command: "
            +:+ Str.join " "
                  (packaging_command env python_script_path output_dir
                     (external_imports a)));
   EvPrint ("🔗 Detected external imports: "
            +:+ repr_list env (external_imports a));
   EvPrint ("📦 Detected local modules: "
            +:+ repr_list env (local_module_names a));
   EvPrint ("🚀 Compiling " +:+ python_script_path +:+ "...")].

End Compile_phases.

(** What [compile_to_exe] prints when the [try] block has raised [e]. *)
Definition compile_report (e : Exception) : list event :=
  match e with
  | CalledProcessError _ stderr =>
      [EvPrint ("Error output: " +:+ stderr);
       EvPrint ("❌ Compilation error: " +:+ exn_str e)]
  | FileNotFoundError _ =>
      [EvPrint "❌ Error: PyInstaller not found. Install with: pip install pyinstaller"]
  | _ => [EvPrint ("❌ Unexpected error: " +:+ exn_str e)]
  end.

Definition cleanup_warning (e : Exception) : event :=
  EvPrint ("⚠️  Warning: Could not clean up temporary files: " +:+ exn_str e).

Definition is_cleanup (e : event) : Prop :=
  match e with
  | EvRemove _ _ | EvRmtree _ _ => True
  | _ => False
  end.

(** The ways [compile_to_exe] ends, with the trace it leaves: it stops
    before the packaging, it is left by what an import or a prompt has
    raised outside [Exception], the packaging fails, or the packaging
    succeeds and the cleanup follows.  [a] is the analysis of this run,
    [early] what had happened when it was made. *)
Inductive compiled (env : Env) (path : string) (out : option string)
  (t : trace) : BaseException + bool → trace → Prop :=
| compiled_stopped new :
    Forall prep new →
    compiled env path out t (inr false) (new ++ t)
| compiled_left b e rest :
    (∀ x, b ≠ Exc x) →
    raised_by b e →
    Forall prep rest →
    compiled env path out t (inl b) ((e :: rest) ++ t)
| compiled_failed a ta early e :
    Forall prep early →
    analyze_dependencies env path ta = (inr a, early ++ t) →
    let d := output_dir_of env path out in
    let cmd := packaging_command env path d (external_imports a) in
    let pre := compile_banner env path d a ++ early in
    subprocess_run env (pre ++ t) cmd = Some e →
    compiled env path out t (inr false)
      (compile_report e ++ EvRun cmd (Some e) :: pre ++ t)
| compiled_built a ta early post :
    Forall prep early →
    analyze_dependencies env path ta = (inr a, early ++ t) →
    let d := output_dir_of env path out in
    let cmd := packaging_command env path d (external_imports a) in
    let pre := compile_banner env path d a ++ early in
    let built := EvPrint "✅ Compilation completed successfully!"
                 :: EvRun cmd None :: pre ++ t in
    subprocess_run env (pre ++ t) cmd = None →
    _cleanup_temp_files env d (script_name_of env path) built
    = (inr (), post ++ built) →
    compiled env path out t (inr true) (post ++ built).

(** The claim on [compile_to_exe], in the specification's words: it never
    propagates an exception and always returns a boolean. *)
Definition spec_compile_to_exe_total : Prop :=
  ∀ env path out t, ∃ (b : bool) t', compile_to_exe env path out t = (inr b, t').

(** The claim on the names of [extract_imports], in the specification's
    words: the names bound by the [import] statements.  [import a.b as c]
    binds [c] and [import a.b] binds [a]. *)
Definition bound_name (a : alias) : string :=
  match a with
  | Alias _ (Some asname) => asname
  | Alias name None => Str_spec.before "." name
  end.

Definition binds (tree : node) (x : string) : Prop :=
  ∃ names a, Ast_Import names ∈ walk tree ∧ a ∈ names ∧ bound_name a = x.

Definition spec_extract_imports : Prop :=
  ∀ env path t content tree imports t',
    open_read env t path = inr content →
    ast_parse env content = inr tree →
    parser_form tree →
    extract_imports env path t = (inr imports, t') →
    ∀ x, x ∈ imports ↔ binds tree x ∨ from_imported tree x.

(** ** [class FileManager], [class AutoCompiler] and [main]

    What these need beyond [Env]: the path of the program itself, the
    library's [os.path.abspath] and the file dialog of the desktop, which
    answers the chosen path, the empty string when the dialog is
    cancelled, or raises. *)
Record Host := {
  __file__ : string;
  os_path_abspath : string → string;
  askopenfilename : trace → Exception + string;
}.

Section Program_front.

Context (env : Env) (host : Host).

Definition find_main_py (directory : string) : M (option string) :=
  let main_py_path := os_path_join env directory "main.py" in
  let* found := path_exists env main_py_path in
  ret (if found then Some main_py_path else None).

(** The loop of [find_any_python_file], which returns at the first file
    that passes the test. *)
Fixpoint first_python_file (directory : string) (files : list string)
  : option string :=
  match files with
  | [] => None
  | file :: rest =>
      if Str.endswith file ".py"
         && negb (bool_decide
                    (file = os_path_basename env (__file__ host)))
         && negb (Str.startswith file "compiler")
      then Some (os_path_join env directory file)
      else first_python_file directory rest
  end.

Definition find_any_python_file (directory : string) : M (option string) :=
  let* files := listdir env directory in
  ret (first_python_file directory files).

Definition select_file_dialog : M (option string) :=
  λ t, match askopenfilename host t with
       | inl e => (inl (Exc e), t)
       | inr file_path =>
           (inr (if Str.truthy file_path then Some file_path else None), t)
       end.

Record AutoCompiler := { current_dir : string }.

(** [AutoCompiler.__init__] *)
Definition AutoCompiler_init : AutoCompiler :=
  {| current_dir :=
       os_path_dirname env (os_path_abspath host (__file__ host)) |}.

Definition _ask_for_compilation (self : AutoCompiler)
  (file_path file_description : string) : M bool :=
  print ("✅ Found " +:+ file_description +:+ ": " +:+ file_path);;;
  let* analysis := analyze_dependencies env file_path in
  (if bool_decide (local_modules analysis = []) then ret ()
   else print ("📦 Detected local modules: "
               +:+ repr_list env (local_module_names analysis)));;;
  (if bool_decide (external_imports analysis = []) then ret ()
   else print ("🔗 Detected external imports: "
               +:+ repr_list env (external_imports analysis)));;;
  let* requirements_path := find_requirements_file env file_path in
  match Str.present requirements_path with
  | Some requirements_path =>
      let* packages := parse_requirements_file env requirements_path in
      if bool_decide (packages = []) then ret ()
      else print ("📋 Dependencies from requirements.txt: "
                  +:+ Str.join ", " packages)
  | None => ret ()
  end;;;
  let* answer := input_ env "Compile this file? (y/n): " in
  let choice := Str.lower (Str.strip answer) in
  ret (bool_decide (choice = "y")).

Definition _manual_file_selection (self : AutoCompiler) : M bool :=
  print "❌ No Python files found in current directory.";;;
  let* answer := input_ env "Select file manually? (y/n): " in
  let choice := Str.lower (Str.strip answer) in
  if bool_decide (choice = "y") then
    let* file_path := select_file_dialog in
    match file_path with
    | Some file_path =>
        compile_to_exe env file_path (Some (os_path_dirname env file_path))
    | None =>
        print "No file selected.";;;
        ret false
    end
  else
    print "Compilation canceled.";;;
    ret false.

(** [x and ask(x)]: the path [x] when it is there, passes [if x:] and
    [ask] answers [True] for it. *)
Definition confirmed_file (x : option string) (ask : string → M bool)
  : M (option string) :=
  match Str.present x with
  | Some file_path =>
      let* yes := ask file_path in
      ret (if yes then Some file_path else None)
  | None => ret None
  end.

Definition run_auto_mode (self : AutoCompiler) : M bool :=
  print (rule 50);;;
  print "Auto Python to EXE Compiler";;;
  print "Primary entry point: main.py";;;
  print (rule 50);;;
  let* main_py := find_main_py (current_dir self) in
  let* chosen :=
    confirmed_file main_py
      (λ main_py,
         _ask_for_compilation self main_py "main.py (primary entry point)") in
  match chosen with
  | Some main_py => compile_to_exe env main_py (Some (current_dir self))
  | None =>
  let* any_py_file := find_any_python_file (current_dir self) in
  let* chosen :=
    confirmed_file any_py_file
      (λ any_py_file,
         _ask_for_compilation self any_py_file
           (os_path_basename env any_py_file)) in
  match chosen with
  | Some any_py_file =>
      compile_to_exe env any_py_file (Some (current_dir self))
  | None => _manual_file_selection self
  end
  end.

(** How [main] ends: it returns, or it calls [sys.exit]. *)
Inductive ending :=
| Returned
| SystemExit (code : nat).

Definition main : M ending :=
  if bool_decide (1 < length (sys_argv env)) then
    let script_path := default "" (sys_argv env !! 1) in
    let output_dir :=
      if bool_decide (2 < length (sys_argv env)) then sys_argv env !! 2
      else None in
    let* success := compile_to_exe env script_path output_dir in
    ret (SystemExit (if success then 0 else 1))
  else if bool_decide (length (sys_argv env) = 1) then
    let compiler := AutoCompiler_init in
    let* success := run_auto_mode compiler in
    if success then
      print "✅ Compilation completed successfully!";;;
      ret Returned
    else
      print "❌ Compilation failed";;;
      ret (SystemExit 1)
  else
    print "GUI mode not implemented in this version";;;
    ret (SystemExit 1).

End Program_front.

(** ** Further notions *)

(** The module name that [check_package_installed] probes for a package. *)
Definition import_name_of (package_name : string) : string :=
  Str.replace_char "-" "_" (Str.lower package_name).

(** A name without any of the three version operators. *)
Definition operator_free (s : string) : Prop :=
  ¬ Str.occurs ">=" s ∧ ¬ Str.occurs "==" s ∧ ¬ Str.occurs "<=" s.

(** The test of [find_local_modules] and [find_any_python_file] on a file
    name, with the name that is left out. *)
Definition eligible (own file : string) : Prop :=
  Str.endswith file ".py" ∧ file ≠ own ∧ ¬ Str.startswith file "compiler".

(** The files and the sources do not change while the program runs. *)
Definition steady_files (env : Env) : Prop :=
  ∀ t1 t2 p,
    open_read env t1 p = open_read env t2 p
    ∧ os_listdir env t1 p = os_listdir env t2 p.

Definition is_install (e : event) : Prop :=
  match e with EvCheckCall _ _ => True | _ => False end.

(** An answer [y] at a prompt, as the prompts of [AutoCompiler] read it. *)
Definition says_y (e : event) : Prop :=
  match e with
  | EvInput _ (inr answer) => Str.lower (Str.strip answer) = "y"
  | _ => False
  end.

(** A string that does not begin with a space. *)
Definition tight (s : string) : Prop :=
  match s with
  | "" => True
  | String c _ => Str.isspace c = false
  end.

(** A name as [parse_requirements_file] returns them: not empty, trimmed
    and without version operator. *)
Definition clean_name (n : string) : Prop :=
  n ≠ "" ∧ Str.strip n = n ∧ operator_free n.

Global Instance eligible_dec own file : Decision (eligible own file).
Proof. unfold eligible. apply _. Defined.

(** [m] gives the same result and adds the same events from any two
    histories. *)
Definition uniform {A} (m : M A) : Prop :=
  ∀ ta tb, ∃ r new, m ta = (r, new ++ ta) ∧ m tb = (r, new ++ tb).

(** Printing and asking. *)
Definition talk (e : event) : Prop :=
  match e with
  | EvPrint _ | EvInput _ _ => True
  | _ => False
  end.

(** [m] only adds to the trace. *)
Definition extends {A} (m : M A) : Prop :=
  ∀ t, ∃ new, (m t).2 = new ++ t.

(** Unless an answer [y] is among what [m] adds to the trace, [m] only
    prints and asks, and what it returns satisfies [good]. *)
Definition needs_yes {A} (good : A → Prop) (m : M A) : Prop :=
  ∀ t, ∃ new,
    (m t).2 = new ++ t
    ∧ ((∀ e, e ∈ new → ¬ says_y e) →
       Forall talk new ∧ ∀ a, (m t).1 = inr a → good a).

(** A desktop on which the program lies in [proj], paths are taken as they
    are and the file dialog is cancelled. *)
Definition desk : Host := {|
  __file__ := "proj/compiler.py";
  os_path_abspath := λ p, p;
  askopenfilename := λ _, inr "";
|}.

(** [m] only prints and asks. *)
Definition chatty {A} (m : M A) : Prop :=
  ∀ t, ∃ new, (m t).2 = new ++ t ∧ Forall talk new.

(** [m] answers [True] exactly when it has run the packaging tool with
    success. *)
Definition verdict (m : M bool) : Prop :=
  ∀ t, ∃ new,
    (m t).2 = new ++ t
    ∧ ((m t).1 = inr true ↔ ∃ cmd, EvRun cmd None ∈ new).

(** * Properties *)

(** ** Strings *)

Section String_facts.

Implicit Types s p r sep : string.

Lemma app_cons c p s : String c p +:+ s = String c (p +:+ s).
Proof. reflexivity. Qed.

Lemma app_nil_l s : "" +:+ s = s.
Proof. reflexivity. Qed.

Lemma app_eq_nil p s : p +:+ s = "" → p = "" ∧ s = "".
Proof. destruct p; [done | discriminate]. Qed.

Lemma app_length p s :
  String.length (p +:+ s) = String.length p + String.length s.
Proof. induction p as [|c p IH]; [done|]. rewrite app_cons. simpl. by rewrite IH. Qed.

Lemma app_same_length p p' s s' :
  p +:+ s = p' +:+ s' → String.length p = String.length p' → p = p'.
Proof.
  revert p'. induction p as [|c p IH]; intros [|c' p'] Heq Hlen;
    try done; try discriminate.
  rewrite !app_cons in Heq. injection Heq as -> Heq.
  f_equal. apply (IH p' Heq). by injection Hlen.
Qed.

Lemma startswith_spec s p :
  Str.startswith s p = true ↔ ∃ r, s = p +:+ r.
Proof.
  revert s. induction p as [|a p IH]; intros s; simpl.
  - split; [eauto | by destruct s].
  - destruct s as [|b s].
    + split; [done | by intros [r ?]].
    + simpl. rewrite andb_true_iff, bool_decide_eq_true, IH. split.
      * intros [-> [r ->]]. by exists r.
      * intros [r Hr]. rewrite app_cons in Hr. injection Hr as -> ->. eauto.
Qed.

Lemma startswith_false s sep r : Str.startswith s sep = false → s ≠ sep +:+ r.
Proof.
  intros Hf ->. assert (Str.startswith (sep +:+ r) sep = true) as Ht
    by (apply startswith_spec; eauto).
  congruence.
Qed.

Lemma split_go_hd sep cur s :
  hd "" (Str.split_go sep 0 cur s)
  = String.rev_app cur (Str_spec.before sep s).
Proof.
  revert cur. induction s as [|c s IH]; intros cur.
  - simpl. by destruct sep.
  - cbn [Str.split_go Str_spec.before].
    destruct (Str.startswith (String c s) sep); [done|].
    by rewrite IH.
Qed.

(** [s.split(sep)[0]] is what stands before the first [sep]. *)
Lemma split_item0 s sep :
  Str.item0 (Str.split s sep) = Str_spec.before sep s.
Proof. unfold Str.item0, Str.split. by rewrite split_go_hd. Qed.

Lemma before_cases sep s :
  (¬ Str.occurs sep s ∧ Str_spec.before sep s = s)
  ∨ (∃ r, s = Str_spec.before sep s +:+ sep +:+ r
          ∧ ∀ p' r', s = p' +:+ sep +:+ r' →
                     String.length (Str_spec.before sep s) ≤ String.length p').
Proof.
  induction s as [|c s IH]; cbn [Str_spec.before].
  - destruct (Str.startswith "" sep) eqn:Hs.
    + right. apply startswith_spec in Hs as [r Hr]. exists r.
      split; [done | simpl; lia].
    + left. split; [|done]. intros (p & r & Hpr).
      symmetry in Hpr. apply app_eq_nil in Hpr as [-> Hpr].
      by apply (startswith_false _ _ r) in Hs.
  - destruct (Str.startswith (String c s) sep) eqn:Hs.
    + right. apply startswith_spec in Hs as [r Hr]. exists r.
      split; [done | simpl; lia].
    + destruct IH as [[Hno Hb] | (r & Hr & Hmin)].
      * left. rewrite Hb. split; [|done]. intros (p & r & Hpr).
        destruct p as [|c' p].
        -- by apply (startswith_false _ _ r) in Hs.
        -- rewrite app_cons in Hpr. injection Hpr as -> Hpr.
           apply Hno. by exists p, r.
      * right. exists r. split.
        -- rewrite app_cons. by f_equal.
        -- intros [|c' p'] r' Hpr.
           ++ by apply (startswith_false _ _ r') in Hs.
           ++ rewrite app_cons in Hpr. injection Hpr as -> Hpr.
              simpl. apply le_n_S. by apply (Hmin p' r').
Qed.

Lemma before_cut sep s : Str.cut_at sep s (Str_spec.before sep s).
Proof.
  destruct (before_cases sep s) as [[Hno Hb] | (r & Hr & Hmin)].
  - rewrite Hb. by apply Str.cut_whole.
  - by apply (Str.cut_first sep s _ r).
Qed.

(** The cut is determined by the string and the separator. *)
Lemma cut_at_unique sep s p p' :
  Str.cut_at sep s p → Str.cut_at sep s p' → p = p'.
Proof.
  intros [Hno | q r Hs Hmin] [Hno' | q' r' Hs' Hmin']; try done.
  - destruct Hno. by exists q', r'.
  - destruct Hno'. by exists q, r.
  - apply (app_same_length q q' (sep +:+ r) (sep +:+ r')).
    + by rewrite <- Hs.
    + apply Nat.le_antisymm; [by apply (Hmin q' r') | by apply (Hmin' q r)].
Qed.

End String_facts.

(** ** The manifest *)

Section Manifest_facts.

Lemma truthy_false s : Str.truthy s = false ↔ s = "".
Proof.
  unfold Str.truthy. rewrite negb_false_iff, bool_decide_eq_true. done.
Qed.

Lemma skipped_test line :
  skipped line
  ↔ negb (Str.truthy (Str.strip line)) || Str.startswith (Str.strip line) "#"
    || Str.startswith (Str.strip line) "-" = true.
Proof.
  unfold skipped. rewrite !orb_true_iff, negb_true_iff, truthy_false.
  rewrite !Is_true_true. tauto.
Qed.

Lemma requirement_of_line_packages packages line :
  requirement_of_line packages line = packages ++ line_packages line.
Proof.
  unfold requirement_of_line, line_packages. rewrite !split_item0.
  destruct (negb _ || _ || _) eqn:Hc.
  - rewrite decide_True by (by apply skipped_test). by rewrite app_nil_r.
  - rewrite decide_False by (rewrite skipped_test; congruence).
    match goal with |- context [Str.truthy ?n] =>
      destruct (Str.truthy n) eqn:Hn end.
    + rewrite decide_False; [done|].
      intros Hn'. apply truthy_false in Hn'. congruence.
    + apply truthy_false in Hn. rewrite decide_True by done.
      by rewrite app_nil_r.
Qed.

Lemma foldl_requirement_of_line packages lines :
  foldl requirement_of_line packages lines
  = packages ++ flat_map line_packages lines.
Proof.
  revert packages. induction lines as [|line lines IH]; intros packages; simpl.
  - by rewrite app_nil_r.
  - by rewrite IH, requirement_of_line_packages, <- app_assoc.
Qed.

Lemma line_name_before line :
  line_name line
    (Str.strip (Str_spec.before "<="
                  (Str_spec.before "==" (Str_spec.before ">=" (Str.strip line))))).
Proof. eapply line_name_cut; apply before_cut. Qed.

Lemma line_name_unique line n n' : line_name line n → line_name line n' → n = n'.
Proof.
  intros [a b c Ha Hb Hc] [a' b' c' Ha' Hb' Hc'].
  assert (a = a') as <- by eauto using cut_at_unique.
  assert (b = b') as <- by eauto using cut_at_unique.
  assert (c = c') as <- by eauto using cut_at_unique.
  done.
Qed.

Lemma names_of_line_packages lines :
  names_of lines (flat_map line_packages lines).
Proof.
  induction lines as [|line lines IH]; simpl; [constructor|].
  unfold line_packages at 1.
  destruct (decide (skipped line)); [by apply names_skip|].
  pose proof (line_name_before line) as Hn.
  destruct (decide _) as [He | He].
  - apply names_empty; [done | | done]. by rewrite He in Hn.
  - by apply names_keep.
Qed.

Lemma names_of_unique lines names names' :
  names_of lines names → names_of lines names' → names = names'.
Proof.
  intros H. revert names'.
  induction H as [| line lines names Hs _ IH | line lines names Hs Hn _ IH
                 | line name lines names Hs Hn Hne _ IH];
    intros names' H'; inversion H'; subst; try done; eauto.
  - exfalso. eauto using line_name_unique.
  - exfalso. apply Hne. eauto using line_name_unique.
  - f_equal; eauto using line_name_unique.
Qed.

(** What [parse_requirements_file] answers, whatever happens. *)
Lemma parse_requirements_file_run env path t :
  parse_requirements_file env path t
  = if os_path_exists env t path then
      match open_lines env t path with
      | inl e =>
          (inr [], EvPrint ("❌ Error reading requirements.txt: "
                            +:+ exn_str e) :: t)
      | inr (lines, Some e) =>
          (inr (flat_map line_packages lines),
           EvPrint ("❌ Error reading requirements.txt: " +:+ exn_str e) :: t)
      | inr (lines, None) =>
          (inr (flat_map line_packages lines),
           EvPrint ("📋 Found "
                    +:+ pretty (length (flat_map line_packages lines))
                    +:+ " packages in requirements.txt") :: t)
      end
    else (inr [], EvPrint "📋 No requirements.txt file found" :: t).
Proof.
  unfold parse_requirements_file.
  destruct (os_path_exists env t path); [|done].
  destruct (open_lines env t path) as [e | [lines [e|]]]; [done | |];
    by rewrite foldl_requirement_of_line.
Qed.

End Manifest_facts.

(** C4 (amended).  On a manifest that is read to its end,
    [parse_requirements_file] passes over the lines that are empty once
    trimmed or that start with ['#'] or ['-']; every other line is cut at its
    first ['>='], what is left is cut at its first ['=='], what is left of that
    at its first ['<='] (all three cuts are made, in this order), the
    result is trimmed and kept when it is not empty.  The names come in the
    order of the lines and are determined by them.  The six lines of the
    example give [flask], [requests], [click], with or without line ends. *)
Theorem parse_requirements_file_names env path t lines :
  os_path_exists env t path = true →
  open_lines env t path = inr (lines, None) →
  ∃ names,
    (parse_requirements_file env path t).1 = inr names
    ∧ names_of lines names
    ∧ (∀ names', names_of lines names' → names' = names)
    ∧ (lines = Sample.six_lines
       ∨ lines = map (λ line, line +:+ newline) Sample.six_lines →
       names = ["flask"; "requests"; "click"]).
Proof.
  intros Hex Hopen. exists (flat_map line_packages lines).
  rewrite parse_requirements_file_run, Hex, Hopen.
  split_and!; [done | apply names_of_line_packages | |].
  - intros names' H'. eapply names_of_unique; [done|].
    apply names_of_line_packages.
  - intros [-> | ->]; by vm_compute.
Qed.

Lemma parse_requirements_file_names_witness :
  (parse_requirements_file (Sample.world Sample.project)
     "proj/requirements.txt" []).1
  = inr ["flask"; "requests"; "click"].
Proof.
  destruct (parse_requirements_file_names (Sample.world Sample.project)
              "proj/requirements.txt" [] Sample.six_lines eq_refl eq_refl)
    as (names & Hr & _ & _ & Hsix).
  rewrite Hr. f_equal. apply Hsix. by left.
Defined.

(** C4, as worded, fails under both readings of "first match wins": the
    code goes on cutting after the first operator it has found. *)
Lemma parse_requirements_file_not_first_match :
  ¬ spec_parse_requirements spec_name_by_priority
  ∧ ¬ spec_parse_requirements spec_name_by_position.
Proof.
  pose (fx := Sample.with_manifest ["django<=4.2,>=3.2"; "a<==1>=b"] None).
  split; intros H;
    specialize (H (Sample.world fx) "proj/requirements.txt" []
                  ["django<=4.2,>=3.2"; "a<==1>=b"] eq_refl eq_refl);
    vm_compute in H; discriminate H.
Qed.

(** C5.  [parse_requirements_file] always returns a list and never raises.
    For a path that does not exist the list is empty.  When opening the file
    fails the error is printed and the list is empty; when reading fails
    after some lines the error is printed and the list holds the names of
    the lines read before. *)
Theorem parse_requirements_file_never_raises env path t :
  ∃ packages t',
    parse_requirements_file env path t = (inr packages, t')
    ∧ (os_path_exists env t path = false → packages = [])
    ∧ (∀ e, os_path_exists env t path = true →
            open_lines env t path = inl e →
            packages = []
            ∧ t' = EvPrint ("❌ Error reading requirements.txt: "
                            +:+ exn_str e) :: t)
    ∧ (∀ lines e, os_path_exists env t path = true →
                  open_lines env t path = inr (lines, Some e) →
                  names_of lines packages
                  ∧ t' = EvPrint ("❌ Error reading requirements.txt: "
                                  +:+ exn_str e) :: t).
Proof.
  rewrite parse_requirements_file_run.
  destruct (os_path_exists env t path).
  - destruct (open_lines env t path) as [e | [lines [e|]]];
      eexists _, _; (split; [done|]); split_and!; try done.
    + by intros ? _ [= ->].
    + intros ?? _ [= -> ->]. split; [apply names_of_line_packages | done].
  - eexists _, _. split; [done|]. split_and!; done.
Qed.

Lemma parse_requirements_file_never_raises_witness :
  ∃ packages,
    parse_requirements_file
      (Sample.world
         (Sample.with_manifest ["flask>=2.0"; "requests"; "click"]
            (Some (OtherException "'utf-8' codec can't decode byte 0xff"))))
      "proj/requirements.txt" []
    = (inr packages,
       [EvPrint "❌ Error reading requirements.txt: 'utf-8' codec can't decode byte 0xff"])
    ∧ names_of ["flask>=2.0"; "requests"; "click"] packages.
Proof.
  destruct (parse_requirements_file_never_raises
              (Sample.world
                 (Sample.with_manifest ["flask>=2.0"; "requests"; "click"]
                    (Some (OtherException
                             "'utf-8' codec can't decode byte 0xff"))))
              "proj/requirements.txt" [])
    as (packages & t' & Hrun & _ & _ & Hbroken).
  destruct (Hbroken ["flask>=2.0"; "requests"; "click"]
              (OtherException "'utf-8' codec can't decode byte 0xff")
              eq_refl eq_refl) as [Hnames ->].
  by exists packages.
Defined.

(** ** What a computation adds to the trace *)

Section Emits.

Context (P : event → Prop).

Lemma calm_value {A} (a : A) t t' : calm t (inr a, t').
Proof. by intros b [=]. Qed.

Lemma calm_exception {A} e t t' : calm (A := A) t (inl (Exc e), t').
Proof. intros b [= <-]. left. by exists e. Qed.

Lemma calm_app {A} (run : (BaseException + A) * trace) new t :
  calm (new ++ t) run → calm t run.
Proof.
  intros Hc b Hb. destruct (Hc b Hb) as [? | (e & rest & Hrun & He)];
    [by left|].
  right. exists e, (rest ++ new). by rewrite <- app_assoc.
Qed.

Lemma emits_ret {A} (a : A) : emits P (ret a).
Proof. intros t. split; [apply calm_value|]. by exists []. Qed.

Lemma emits_bind {A B} (m : M A) (k : A → M B) :
  emits P m → (∀ a, emits P (k a)) → emits P (bind m k).
Proof.
  intros Hm Hk t. unfold bind.
  destruct (Hm t) as [Hc (new & Ht & HP)].
  destruct (m t) as [[e|a] t1]; simpl in *.
  - split; [|eauto]. intros b [= <-]. by apply Hc.
  - subst t1. destruct (Hk a (new ++ t)) as [Hc' (new' & Ht' & HP')].
    split; [by eapply calm_app|]. exists (new' ++ new).
    rewrite Ht', app_assoc. split; [done|]. by apply Forall_app.
Qed.

Lemma emits_try_except {A} (body : M A) handler :
  emits P body →
  (∀ b h, handler b = Some h → emits P h) →
  emits P (try_except body handler).
Proof.
  intros Hm Hh t. unfold try_except.
  destruct (Hm t) as [Hc (new & Ht & HP)].
  destruct (body t) as [[b|a] t1]; simpl in *; [|eauto].
  destruct (handler b) as [h|] eqn:He; [|simpl; eauto].
  subst t1. destruct (Hh b h He (new ++ t)) as [Hc' (new' & Ht' & HP')].
  split; [by eapply calm_app|]. exists (new' ++ new).
  rewrite Ht', app_assoc. split; [done|]. by apply Forall_app.
Qed.

Lemma emits_for_each {A S} (l : list A) (body : A → S → M S) (s : S) :
  (∀ x s, emits P (body x s)) → emits P (for_each l body s).
Proof.
  intros Hb. revert s. induction l as [|x l IH]; intros s; simpl.
  - apply emits_ret.
  - apply emits_bind; [apply Hb | apply IH].
Qed.

Lemma emits_print line : P (EvPrint line) → emits P (print line).
Proof.
  intros HP t. split; [apply calm_value|]. exists [EvPrint line].
  split; [done|]. by apply Forall_singleton.
Qed.

Lemma emits_outcome ev r : P (ev r) → ∀ t,
  calm t (outcome ev r t)
  ∧ ∃ new, (outcome ev r t).2 = new ++ t ∧ Forall P new.
Proof.
  intros HP t. split.
  { destruct r; [apply calm_exception | apply calm_value]. }
  exists [ev r]. split; [done|]. by apply Forall_singleton.
Qed.

Lemma emits_path_exists env p : emits P (path_exists env p).
Proof. intros t. split; [apply calm_value|]. by exists []. Qed.

Lemma emits_listdir env p : emits P (listdir env p).
Proof.
  intros t. unfold listdir. destruct (os_listdir env t p);
    (split; [apply calm_exception || apply calm_value|]); by exists [].
Qed.

Lemma emits_read_file env p : emits P (read_file env p).
Proof.
  intros t. unfold read_file. destruct (open_read env t p);
    (split; [apply calm_exception || apply calm_value|]); by exists [].
Qed.

Lemma emits_parse_source env s : emits P (parse_source env s).
Proof.
  intros t. unfold parse_source. destruct (ast_parse env s);
    (split; [apply calm_exception || apply calm_value|]); by exists [].
Qed.

Lemma emits_import env name :
  (∀ r, P (EvImport name r)) → emits P (import_ env name).
Proof.
  intros HP t. unfold import_. cbv zeta. split.
  - destruct (import_module env t name) as [b|]; [|apply calm_value].
    intros b' [= <-]. right. by eexists _, [].
  - eexists [_]. split; [done|]. by apply Forall_singleton.
Qed.

Lemma emits_check_call env args :
  (∀ r, P (EvCheckCall args r)) → emits P (check_call env args).
Proof. intros HP t. by apply emits_outcome. Qed.

Lemma emits_input env prompt :
  (∀ r, P (EvInput prompt r)) → emits P (input_ env prompt).
Proof.
  intros HP t. unfold input_. cbv zeta. split.
  - destruct (input env t prompt) as [b|]; [|apply calm_value].
    intros b' [= <-]. right. by eexists _, [].
  - eexists [_]. split; [done|]. by apply Forall_singleton.
Qed.

End Emits.

Ltac emits_handler :=
  let b := fresh "b" in
  let h := fresh "h" in
  let Hh := fresh "Hh" in
  intros b h Hh; destruct b as [[]| |]; simpl in Hh; try discriminate Hh;
  injection Hh as <-.

Ltac emits_step :=
  lazymatch goal with
  | |- emits _ (bind _ _) => apply emits_bind; [|intros ?]
  | |- emits _ (ret _) => apply emits_ret
  | |- emits _ (print _) => apply emits_print; auto
  | |- emits _ (try_except _ _) => apply emits_try_except; [|emits_handler]
  | |- emits _ (for_each _ _ _) => apply emits_for_each; intros ??
  | |- emits _ (path_exists _ _) => apply emits_path_exists
  | |- emits _ (listdir _ _) => apply emits_listdir
  | |- emits _ (read_file _ _) => apply emits_read_file
  | |- emits _ (parse_source _ _) => apply emits_parse_source
  | |- emits _ (import_ _ _) => apply emits_import; auto
  | |- emits _ (check_call _ _) => apply emits_check_call; auto
  | |- emits _ (input_ _ _) => apply emits_input; auto
  | |- emits _ (if ?b then _ else _) => destruct b
  | |- emits _ (match ?x with _ => _ end) => destruct x
  end.

Ltac emits_go := repeat emits_step.

Section Program_emits.

Context (env : Env) (P : event → Prop).
Hypothesis P_print : ∀ line, P (EvPrint line).
Hypothesis P_import : ∀ name r, P (EvImport name r).
Hypothesis P_check_call : ∀ args r, P (EvCheckCall args r).
Hypothesis P_input : ∀ prompt answer, P (EvInput prompt answer).

Lemma check_package_installed_emits package :
  emits P (check_package_installed env package).
Proof. unfold check_package_installed. emits_go. Qed.

Lemma install_package_emits package :
  emits P (install_package env package).
Proof. unfold install_package. emits_go. Qed.

Lemma parse_requirements_file_emits path :
  emits P (parse_requirements_file env path).
Proof.
  intros t. rewrite parse_requirements_file_run.
  destruct (os_path_exists env t path);
    [destruct (open_lines env t path) as [e | [lines [e|]]]|];
    (split; [done|]); eexists [_]; (split; [done|]);
    by apply Forall_singleton.
Qed.

Lemma find_requirements_file_emits path :
  emits P (find_requirements_file env path).
Proof. unfold find_requirements_file. emits_go. Qed.

Lemma missing_of_emits l : emits P (missing_of env l).
Proof.
  unfold missing_of. emits_go. apply check_package_installed_emits.
Qed.

Lemma missing_project_packages_emits path :
  emits P (missing_project_packages env path).
Proof.
  unfold missing_project_packages. emits_go;
    auto using find_requirements_file_emits, parse_requirements_file_emits,
      missing_of_emits.
Qed.

Lemma install_required_emits l : emits P (install_required env l).
Proof.
  induction l as [|package l IH]; simpl; emits_go; try done.
  apply install_package_emits.
Qed.

Lemma ensure_compiler_dependencies_emits :
  emits P (ensure_compiler_dependencies env).
Proof.
  unfold ensure_compiler_dependencies. emits_go;
    auto using missing_of_emits, install_required_emits.
Qed.

Lemma confirm_install_emits : emits P (confirm_install env).
Proof. unfold confirm_install. emits_go. Qed.

Lemma install_missing_emits l : emits P (install_missing env l).
Proof.
  unfold install_missing. emits_go. apply install_package_emits.
Qed.

Lemma ensure_project_dependencies_emits path :
  emits P (ensure_project_dependencies env path).
Proof.
  unfold ensure_project_dependencies. emits_go;
    auto using find_requirements_file_emits, parse_requirements_file_emits,
      missing_of_emits, confirm_install_emits, install_missing_emits.
Qed.

Lemma extract_imports_emits path : emits P (extract_imports env path).
Proof. unfold extract_imports. emits_go. Qed.

Lemma find_local_modules_emits path :
  emits P (find_local_modules env path).
Proof. unfold find_local_modules. emits_go. Qed.

Lemma analyze_dependencies_emits path :
  emits P (analyze_dependencies env path).
Proof.
  unfold analyze_dependencies. emits_go;
    auto using extract_imports_emits, find_local_modules_emits.
Qed.

End Program_emits.

(** ** The imports of a file *)

Lemma bind_run {A B} (m : M A) (k : A → M B) t :
  bind m k t
  = match m t with
    | (inr a, t') => k a t'
    | (inl e, t') => (inl e, t')
    end.
Proof. reflexivity. Qed.

Section Imports_facts.

Context (env : Env).

Lemma elem_of_set_iter (X : gset string) x : x ∈ set_iter env X ↔ x ∈ X.
Proof. by rewrite (set_iter_perm env X), elem_of_elements. Qed.

Lemma NoDup_set_iter (X : gset string) : NoDup (set_iter env X).
Proof. rewrite (set_iter_perm env X). apply NoDup_elements. Qed.

Lemma list_to_set_set_iter (X : gset string) :
  list_to_set (set_iter env X) = X.
Proof.
  apply set_eq. intros x. by rewrite elem_of_list_to_set, elem_of_set_iter.
Qed.

Lemma elem_of_node_imports n x :
  x ∈ node_imports n
  ↔ (∃ names a, n = Ast_Import names ∧ a ∈ names ∧ alias_name a = x)
    ∨ (∃ names level, n = Ast_ImportFrom (Some x) names level ∧ x ≠ "").
Proof.
  destruct n as [names | [module|] names level | children]; simpl.
  - rewrite list_elem_of_fmap. split.
    + intros (a & -> & Ha). left. by exists names, a.
    + intros [(? & a & [= <-] & Ha & <-) | (? & ? & [=] & _)]. eauto.
  - unfold Str.truthy. case_bool_decide as Hm; simpl.
    + subst module. split; [by intros ?%elem_of_nil|].
      intros [(? & ? & [=] & _) | (? & ? & [= <-] & ?)]. done.
    + rewrite list_elem_of_singleton. split.
      * intros ->. right. by exists names, level.
      * by intros [(? & ? & [=] & _) | (? & ? & [= <-] & ?)].
  - split; [by intros ?%elem_of_nil|].
    by intros [(? & ? & [=] & _) | (? & ? & [=] & ?)].
  - split; [by intros ?%elem_of_nil|].
    by intros [(? & ? & [=] & _) | (? & ? & [=] & ?)].
Qed.

Lemma elem_of_tree_imports tree x :
  x ∈ flat_map node_imports (walk tree)
  ↔ imported tree x ∨ (from_imported tree x ∧ x ≠ "").
Proof.
  rewrite list_elem_of_In, in_flat_map. unfold imported, from_imported.
  setoid_rewrite <- list_elem_of_In.
  setoid_rewrite elem_of_node_imports. split.
  - intros (n & Hn & [(names & a & -> & Ha & Hx)
                     | (names & level & -> & Hx)]); [left | right]; eauto 10.
  - intros [(names & a & Hn & Ha & Hx) | [(names & level & Hn) Hx]].
    + exists (Ast_Import names). split; [done|]. left. eauto.
    + exists (Ast_ImportFrom (Some x) names level). split; [done|].
      right. eauto.
Qed.

(** What [extract_imports] answers, whatever happens. *)
Lemma extract_imports_run path t :
  extract_imports env path t
  = match open_read env t path with
    | inl e => (inr [], parse_warning path e :: t)
    | inr content =>
        match ast_parse env content with
        | inl e => (inr [], parse_warning path e :: t)
        | inr tree =>
            (inr (set_iter env
                    (list_to_set (flat_map node_imports (walk tree)))), t)
        end
    end.
Proof.
  unfold extract_imports, try_except, bind, read_file, parse_source.
  destruct (open_read env t path) as [e|content]; [done|].
  by destruct (ast_parse env content) as [e|tree].
Qed.

Lemma extract_imports_returns path t :
  ∃ imports t', extract_imports env path t = (inr imports, t').
Proof.
  rewrite extract_imports_run.
  destruct (open_read env t path) as [e|content]; [eauto|].
  destruct (ast_parse env content) as [e|tree]; eauto.
Qed.

(** The loop of [analyze_dependencies] gathers what [extract_imports]
    answers for each module. *)
Lemma gather_imports modules (acc : gset string) t :
  ∃ per t',
    extract_each env modules t = (inr per, t')
    ∧ for_each modules
        (λ module_path (all_imports : gset string),
           let* module_imports := extract_imports env module_path in
           ret (all_imports ∪ list_to_set module_imports))
        acc t
      = (inr (acc ∪ ⋃ (list_to_set <$> per)), t').
Proof.
  revert acc t. induction modules as [|m modules IH]; intros acc t; simpl.
  - exists [], t. split; [done|]. unfold ret. do 2 f_equal.
    simpl. by rewrite (right_id_L ∅ (∪)).
  - destruct (extract_imports_returns m t) as (l & t1 & Hl).
    destruct (IH (acc ∪ list_to_set l) t1) as (per & t' & Hper & Hloop).
    exists (l :: per), t'. split.
    + by rewrite bind_run, Hl, bind_run, Hper.
    + rewrite !bind_run, Hl. unfold ret at 1. rewrite Hloop.
      do 2 f_equal. simpl. by rewrite (assoc_L (∪)).
Qed.

Lemma find_local_modules_run path t :
  find_local_modules env path t
  = match os_listdir env t (os_path_dirname env path) with
    | inl e => (inl (Exc e), t)
    | inr files =>
        (inr (map (os_path_join env (os_path_dirname env path))
                (filter (λ file,
                           Str.endswith file ".py"
                           ∧ file ≠ os_path_basename env path
                           ∧ ¬ Str.startswith file "compiler")
                   files)), t)
    end.
Proof.
  unfold find_local_modules, bind, listdir.
  by destruct (os_listdir env t (os_path_dirname env path)).
Qed.

End Imports_facts.

(** C6 (amended).  [extract_imports] always returns a list and never
    raises.  When the file cannot be read or parsed the list is empty and
    one warning with the path and the error is printed.  Otherwise nothing
    is printed and the list holds, once each, the module names that the
    [import] statements of the tree list, as they are written
    ([alias.name]: [numpy] for [import numpy as np], [os.path] for
    [import os.path]) and not the names that the statements bind, and the
    modules of its [from ... import] statements that are not [None] (the
    code also passes over an empty module name, which the parser never
    produces). *)
Theorem extract_imports_never_raises env path t :
  ∃ imports t',
    extract_imports env path t = (inr imports, t')
    ∧ (∀ e, open_read env t path = inl e
            ∨ (∃ content, open_read env t path = inr content
                          ∧ ast_parse env content = inl e) →
            imports = [] ∧ t' = parse_warning path e :: t)
    ∧ (∀ content tree,
         open_read env t path = inr content →
         ast_parse env content = inr tree →
         t' = t
         ∧ NoDup imports
         ∧ (∀ x, x ∈ imports
                 ↔ imported tree x ∨ (from_imported tree x ∧ x ≠ ""))
         ∧ (parser_form tree →
            ∀ x, x ∈ imports ↔ imported tree x ∨ from_imported tree x)).
Proof.
  rewrite extract_imports_run.
  destruct (open_read env t path) as [e|content].
  { eexists _, _. split; [done|]. split.
    - by intros e' [[= ->] | (? & [=] & _)].
    - by intros ?? [=]. }
  destruct (ast_parse env content) as [e|tree] eqn:Hparse.
  { eexists _, _. split; [done|]. split.
    - intros e' [[=] | (? & [= <-] & He)]. rewrite Hparse in He.
      by injection He as ->.
    - intros ?? [= <-]. by rewrite Hparse. }
  eexists _, _. split; [done|]. split.
  - intros e' [[=] | (? & [= <-] & He)]. by rewrite Hparse in He.
  - intros ?? [= <-]. rewrite Hparse. intros [= <-].
    assert (∀ x, x ∈ set_iter env
                       (list_to_set (flat_map node_imports (walk tree)))
                 ↔ imported tree x ∨ (from_imported tree x ∧ x ≠ "")) as Hiff.
    { intros x. by rewrite elem_of_set_iter, elem_of_list_to_set,
        elem_of_tree_imports. }
    split_and!; [done | apply NoDup_set_iter | done |].
    intros Hform x. rewrite Hiff. split; [tauto|].
    intros [? | Hfrom]; [tauto|]. right. split; [done|].
    intros ->. destruct Hfrom as (names & level & Hin).
    by apply (Hform names level).
Qed.

Lemma extract_imports_never_raises_witness :
  (∃ imports,
     extract_imports (Sample.world Sample.project) "proj/mixed.py" []
     = (inr imports, [])
     ∧ NoDup imports ∧ "os" ∈ imports ∧ "json" ∈ imports)
  ∧ extract_imports (Sample.world Sample.project) "proj/broken.py" []
    = (inr [],
       [EvPrint "Warning: Could not parse imports from proj/broken.py: invalid syntax (<unknown>, line 1)"])
  ∧ (∃ imports,
       extract_imports (Sample.world Sample.project) "proj/aliased.py" []
       = (inr imports, [])
       ∧ "numpy" ∈ imports ∧ "os.path" ∈ imports ∧ "np" ∉ imports).
Proof.
  pose (env := Sample.world Sample.project).
  split; [|split].
  - destruct (extract_imports_never_raises env "proj/mixed.py" [])
      as (imports & t' & Hrun & _ & Hparsed).
    destruct (Hparsed _ _ eq_refl eq_refl) as (-> & Hnodup & Hiff & _).
    exists imports. split_and!; [done | done | |]; apply Hiff.
    + left. exists [Alias "os" None], (Alias "os" None).
      split_and!; [|apply list_elem_of_here | done].
      apply (list_elem_of_lookup_2 _ 1). by vm_compute.
    + right. split; [|done]. exists [Alias "loads" None], 0.
      apply (list_elem_of_lookup_2 _ 2). by vm_compute.
  - destruct (extract_imports_never_raises env "proj/broken.py" [])
      as (imports & t' & Hrun & Hfailed & _).
    destruct (Hfailed (OtherException "invalid syntax (<unknown>, line 1)"))
      as [-> ->]; [|done].
    right. by exists "def broken(:".
  - destruct (extract_imports_never_raises env "proj/aliased.py" [])
      as (imports & t' & Hrun & _ & Hparsed).
    destruct (Hparsed _ _ eq_refl eq_refl) as (-> & _ & Hiff & _).
    exists imports. split_and!; [done | | |].
    + apply Hiff. left.
      exists [Alias "numpy" (Some "np"); Alias "os.path" None],
        (Alias "numpy" (Some "np")).
      split_and!; [|apply list_elem_of_here | done].
      apply (list_elem_of_lookup_2 _ 1). by vm_compute.
    + apply Hiff. left.
      exists [Alias "numpy" (Some "np"); Alias "os.path" None],
        (Alias "os.path" None).
      split_and!; [| |done].
      * apply (list_elem_of_lookup_2 _ 1). by vm_compute.
      * apply (list_elem_of_lookup_2 _ 1). by vm_compute.
    + intros Hin. apply Hiff in Hin
        as [(names & a & Hn & Ha & Hname) | [(names & level & Hn) _]];
        apply list_elem_of_In in Hn; simpl in Hn;
        destruct Hn as [[=] | [[=] | []]]; subst.
      apply list_elem_of_In in Ha. simpl in Ha.
      by destruct Ha as [<- | [<- | []]].
Defined.

(** The claim C6 as the specification words it does not hold: for
    [import numpy as np, os.path] the statement binds [np] and [os], and
    the result holds [numpy] and [os.path]. *)
Lemma extract_imports_not_bound_names : ¬ spec_extract_imports.
Proof.
  intros H.
  pose (env := Sample.world Sample.project).
  pose (tree := Ast_Node [Ast_Import [Alias "numpy" (Some "np");
                                       Alias "os.path" None]]).
  assert (parser_form tree) as Hform.
  { intros names level Hin. apply list_elem_of_In in Hin. simpl in Hin.
    by destruct Hin as [[=] | [[=] | []]]. }
  destruct (extract_imports env "proj/aliased.py" []) as [[b|imports] t']
    eqn:Hrun; [by vm_compute in Hrun|].
  assert ("np" ∈ imports) as Hin.
  { apply (H env "proj/aliased.py" [] "import numpy as np, os.path" tree
             imports t' eq_refl eq_refl Hform Hrun "np").
    left. exists [Alias "numpy" (Some "np"); Alias "os.path" None],
            (Alias "numpy" (Some "np")).
    split_and!; [|apply list_elem_of_here | done].
    apply (list_elem_of_lookup_2 _ 1). by vm_compute. }
  vm_compute in Hrun. injection Hrun as <- _.
  apply list_elem_of_In in Hin. simpl in Hin.
  by destruct Hin as [[=] | [[=] | []]].
Qed.

(** C3.  [analyze_dependencies] returns an analysis whenever the directory
    of the entry can be listed (and raises the listing error otherwise).
    In the analysis, [all_imports] is, as a set, the union of what
    [extract_imports] answers for the entry and for every local module that
    was found; [external_imports] is [all_imports] without the twelve names
    of [stdlib_modules], hence a part of it; neither list repeats a name.
    An entry importing [os], [json], [requests] with one local module
    importing [numpy] gives [{requests, numpy}]. *)
Theorem analyze_dependencies_sets env path t :
  ∃ entry t1,
    extract_imports env path t = (inr entry, t1)
    ∧ (∀ e, os_listdir env t1 (os_path_dirname env path) = inl e →
            analyze_dependencies env path t = (inl (Exc e), t1))
    ∧ (∀ files,
         os_listdir env t1 (os_path_dirname env path) = inr files →
         ∃ a t' per,
           analyze_dependencies env path t = (inr a, t')
           ∧ main_imports a = entry
           ∧ find_local_modules env path t1 = (inr (local_modules a), t1)
           ∧ extract_each env (local_modules a) t1 = (inr per, t')
           ∧ let all : gset string := list_to_set (all_imports a) in
             let external : gset string := list_to_set (external_imports a) in
             all = list_to_set entry ∪ ⋃ (list_to_set <$> per)
             ∧ external = all ∖ stdlib_modules
             ∧ stdlib_modules
               = {[ "os"; "sys"; "math"; "json"; "datetime"; "time"; "re";
                    "random"; "pathlib"; "collections"; "itertools";
                    "functools" ]}
             ∧ external ⊆ all
             ∧ external_imports a ⊆ all_imports a
             ∧ NoDup (all_imports a)
             ∧ NoDup (external_imports a)
             ∧ (∀ l, list_to_set entry
                     = ({[ "os"; "json"; "requests" ]} : gset string) →
                     per = [l] →
                     list_to_set l = ({[ "numpy" ]} : gset string) →
                     external = {[ "requests"; "numpy" ]})).
Proof.
  destruct (extract_imports_returns env path t) as (entry & t1 & Hentry).
  exists entry, t1. split; [done|].
  unfold analyze_dependencies. rewrite bind_run, Hentry, bind_run.
  split.
  - intros e He. by rewrite find_local_modules_run, He.
  - intros files Hfiles. rewrite find_local_modules_run, Hfiles.
    set (modules := map _ _).
    destruct (gather_imports env modules (list_to_set entry) t1)
      as (per & t' & Hper & Hloop).
    rewrite bind_run, Hloop. unfold ret.
    eexists _, t', per. split; [done|]. simpl.
    rewrite !list_to_set_set_iter.
    set (all := list_to_set entry ∪ ⋃ (list_to_set <$> per)).
    assert (list_to_set (filter (λ imp, imp ∉ stdlib_modules)
                           (set_iter env all))
            =@{gset string} all ∖ stdlib_modules) as Hext.
    { apply set_eq. intros x.
      rewrite elem_of_list_to_set, list_elem_of_filter, elem_of_set_iter.
      rewrite elem_of_difference. tauto. }
    rewrite Hext.
    split_and!; try done.
    + by apply subseteq_difference_l.
    + apply list_subseteq_filter.
    + apply NoDup_set_iter.
    + apply NoDup_filter, NoDup_set_iter.
    + intros l He -> Hl. subst all. rewrite He. simpl. rewrite Hl.
      by vm_compute.
Qed.

Lemma analyze_dependencies_sets_witness :
  ∃ a t',
    analyze_dependencies (Sample.world Sample.project) "proj/main.py" []
    = (inr a, t')
    ∧ local_modules a = ["proj/helper.py"]
    ∧ list_to_set (external_imports a)
      = ({[ "requests"; "numpy" ]} : gset string).
Proof.
  destruct (analyze_dependencies_sets (Sample.world Sample.project)
              "proj/main.py" [])
    as (entry & t1 & Hentry & _ & Hok).
  vm_compute in Hentry. injection Hentry as <- <-.
  destruct (Hok ["main.py"; "helper.py"; "compiler.py"; "notes.txt"] eq_refl)
    as (a & t' & per & Hrun & _ & Hlocal & Hper & _ & _ & _ & _ & _ & _ & _
        & Hexample).
  exists a, t'. split; [done|].
  assert (find_local_modules (Sample.world Sample.project) "proj/main.py" []
          = (inr ["proj/helper.py"], [])) as Hfound by (by vm_compute).
  rewrite Hfound in Hlocal. injection Hlocal as Hlocal.
  rewrite <- Hlocal in *. split; [done|].
  vm_compute in Hper. injection Hper as <- _.
  by apply (Hexample ["numpy"]).
Defined.

(** ** Installing *)

Section Install_facts.

Context (env : Env).

Lemma installs_app new2 new1 :
  installs (new2 ++ new1) = installs new1 ++ installs new2.
Proof. unfold installs. by rewrite omap_app, reverse_app. Qed.

Lemma successes_app new2 new1 :
  successes (new2 ++ new1) = successes new1 + successes new2.
Proof. unfold successes. by rewrite installs_app, filter_app, length_app. Qed.

Lemma installs_one a b exe m pip install package r :
  installs [EvPrint a; EvCheckCall [exe; m; pip; install; package] r;
            EvPrint b]
  = [(package, succeeded r)].
Proof. reflexivity. Qed.

Lemma successes_one a b exe m pip install package r :
  successes [EvPrint a; EvCheckCall [exe; m; pip; install; package] r;
             EvPrint b]
  = if succeeded r then 1 else 0.
Proof. by destruct r. Qed.

(** What [install_package] does, whatever [pip] answers. *)
Lemma install_package_run package t :
  let args := [sys_executable env; "-m"; "pip"; "install"; package] in
  let t1 := EvPrint ("📦 Installing " +:+ package +:+ "...") :: t in
  let r := subprocess_check_call env t1 args in
  install_package env package t
  = (inr (succeeded r),
     EvPrint (install_report package r) :: EvCheckCall args r :: t1).
Proof.
  unfold install_package, try_except, bind, print, check_call, outcome.
  simpl. by destruct (subprocess_check_call env _ _) as [[]|].
Qed.

Lemma install_loop missing n t :
  ∃ new,
    for_each missing
      (λ package success_count,
         let* ok := install_package env package in
         ret (if ok then S success_count else success_count))
      n t
    = (inr (n + successes new), new ++ t)
    ∧ (installs new).*1 = missing
    ∧ Forall (λ e, ∀ prompt answer, e ≠ EvInput prompt answer) new.
Proof.
  revert n t. induction missing as [|package missing IH]; intros n t; simpl.
  - exists []. unfold ret. by rewrite Nat.add_0_r.
  - rewrite !bind_run, install_package_run. unfold ret at 1.
    match goal with |- context [for_each _ _ ?n' ?t'] =>
      destruct (IH n' t') as (new & Hrun & Hmissing & Hquiet) end.
    rewrite Hrun.
    match goal with |- context [new ++ ?e1 :: ?e2 :: ?e3 :: t] =>
      exists (new ++ [e1; e2; e3]) end.
    rewrite <- app_assoc. simpl. split; [|split].
    + do 2 f_equal. rewrite successes_app, successes_one.
      destruct (succeeded _); lia.
    + by rewrite installs_app, fmap_app, Hmissing, installs_one.
    + apply Forall_app. split; [done|]. by repeat constructor.
Qed.

Lemma successes_le new : successes new ≤ length (installs new).
Proof. unfold successes. apply length_filter. Qed.

(** The installing step: every missing package is tried, in order, and
    the answer is [True]. *)
Lemma install_missing_run missing t :
  ∃ new report,
    install_missing env missing t = (inr true, report ++ new ++ t)
    ∧ (installs new).*1 = missing
    ∧ Forall (λ e, ∀ prompt answer, e ≠ EvInput prompt answer) new
    ∧ (successes new = length missing →
       report = [EvPrint "✅ All project dependencies installed successfully!"])
    ∧ (successes new ≠ length missing →
       successes new < length missing
       ∧ report = [EvPrint "Compilation may fail due to missing dependencies";
                   partial_warning (successes new) (length missing)]).
Proof.
  unfold install_missing. rewrite bind_run.
  destruct (install_loop missing 0 t) as (new & Hrun & Hmissing & Hquiet).
  rewrite Hrun. simpl. exists new.
  pose proof (successes_le new) as Hle.
  assert (length (installs new) = length missing) as Hlen
    by (by rewrite <- Hmissing, length_fmap).
  rewrite Hlen in Hle.
  case_bool_decide as Hall.
  - eexists [_]. split; [done|]. by split_and!.
  - eexists [_; _]. split; [done|]. split_and!; try done.
    intros _. split; [lia | done].
Qed.

(** The installing loop calls [pip] as [sys.executable -m pip install]. *)
Lemma install_loop_args missing n t :
  ∃ new k,
    for_each missing
      (λ package success_count,
         let* ok := install_package env package in
         ret (if ok then S success_count else success_count))
      n t
    = (inr k, new ++ t)
    ∧ Forall (λ e, ∀ args r, e = EvCheckCall args r →
                   ∃ q, args = [sys_executable env; "-m"; "pip"; "install"; q])
        new.
Proof.
  revert n t. induction missing as [|package missing IH]; intros n t; simpl.
  - exists [], n. split; [done | by apply Forall_nil].
  - rewrite !bind_run, install_package_run. unfold ret at 1.
    match goal with |- context [for_each _ _ ?n' ?t'] =>
      destruct (IH n' t') as (new & k & Hrun & Hargs) end.
    rewrite Hrun.
    match goal with |- context [new ++ ?e1 :: ?e2 :: ?e3 :: t] =>
      exists (new ++ [e1; e2; e3]), k end.
    rewrite <- app_assoc. split; [done|].
    apply Forall_app. split; [done|].
    repeat (apply Forall_cons; split;
            [intros args r [=]; subst; by eexists|]).
    by apply Forall_nil.
Qed.

(** The installing step calls [pip] once for every missing package, in
    order, and for nothing else. *)
Lemma install_missing_calls missing t :
  ∃ new,
    install_missing env missing t = (inr true, new ++ t)
    ∧ (installs new).*1 = missing
    ∧ ∀ p, p ∈ missing →
           ∃ r, EvCheckCall [sys_executable env; "-m"; "pip"; "install"; p] r
                ∈ new.
Proof.
  unfold install_missing. rewrite bind_run.
  destruct (install_loop missing 0 t) as (new & Hrun & Hnames & _).
  destruct (install_loop_args missing 0 t) as (new' & k & Hrun' & Hargs).
  rewrite Hrun in Hrun'. injection Hrun' as _ Hnew.
  apply app_inv_tail in Hnew as <-. rewrite Hrun. simpl.
  assert (∀ report,
            installs report = [] →
            (installs (report ++ new)).*1 = missing
            ∧ ∀ p, p ∈ missing →
                   ∃ r, EvCheckCall [sys_executable env; "-m"; "pip";
                                     "install"; p] r ∈ report ++ new)
    as Hboth.
  { intros report Hreport. split.
    { by rewrite installs_app, Hreport, app_nil_r. }
    intros p Hp. rewrite <- Hnames in Hp.
    apply list_elem_of_fmap in Hp as ([q ok] & -> & Hq).
    unfold installs in Hq.
    apply elem_of_reverse, list_elem_of_omap in Hq as (e & He & Hinst).
    destruct e as [| | |args r| | |]; try done.
    destruct (proj1 (Forall_forall _ _) Hargs _ He args r eq_refl)
      as [q' ->].
    simpl in Hinst. injection Hinst as -> _.
    exists r. apply elem_of_app. by right. }
  case_bool_decide.
  - eexists (_ :: new). split; [done|]. by apply (Hboth [_]).
  - eexists (_ :: _ :: new). split; [done|]. by apply (Hboth [_; _]).
Qed.

(** [ensure_project_dependencies], step by step. *)
Lemma ensure_project_dependencies_phases path t :
  ensure_project_dependencies env path t
  = match missing_project_packages env path t with
    | (inl e, t1) => (inl e, t1)
    | (inr None, t1) => (inr true, t1)
    | (inr (Some missing), t1) =>
        (let* proceed := confirm_install env in
         if proceed then install_missing env missing else ret false)
          (announced missing t1)
    end.
Proof.
  unfold ensure_project_dependencies, missing_project_packages.
  rewrite !bind_run.
  destruct (find_requirements_file env path t) as [[e|found] t1]; [done|].
  cbv beta iota. destruct (Str.present found) as [req|]; [|done].
  rewrite !bind_run.
  destruct (parse_requirements_file env req t1) as [[e|required] t2];
    [done|].
  case_bool_decide; [done|]. case_bool_decide; [done|].
  rewrite !bind_run.
  destruct (find_requirements_file env path t2) as [[e|found'] t3]; [done|].
  cbv beta iota. destruct (Str.present found') as [req'|]; [|done].
  rewrite !bind_run.
  destruct (parse_requirements_file env req' t3) as [[e|required'] t4];
    [done|].
  case_bool_decide; [done|].
  rewrite !bind_run.
  destruct (missing_of env required' t4) as [[e|missing] t5]; [done|].
  by case_bool_decide.
Qed.

(** The confirmation, by the arguments and the answer. *)
Lemma confirm_install_run t :
  let prompt := "Install project dependencies? (y/n): " in
  let answer := input env t prompt in
  let asked := EvInput prompt answer :: t in
  confirm_install env t
  = if bool_decide (length (sys_argv env) = 1) then
      match answer with
      | inr s =>
          if accepted s then (inr true, asked)
          else
            (inr false,
             EvPrint "⚠️  Project dependencies not installed - compilation may fail"
             :: asked)
      | inl (Exc (EOFError _)) | inl KeyboardInterrupt => (inr false, asked)
      | inl e => (inl e, asked)
      end
    else (inr true, t).
Proof.
  unfold confirm_install. simpl. case_bool_decide; [|done].
  unfold try_except, bind, input_, accepted.
  destruct (input env t _) as [[[]| |]|s]; try done.
  by case_bool_decide.
Qed.

End Install_facts.

(** C1 (amended).  When some declared packages are missing and the
    confirmation lets the installs go ahead (or is not asked for),
    [ensure_project_dependencies] tries every missing package once, in order,
    whatever happens to the others, and returns [True] whatever the installs
    give, also when all of them fail.  It reports a full success when all
    succeeded and prints the partial-success warning otherwise. *)
Theorem ensure_project_dependencies_installs env path t missing t1 t2 :
  missing_project_packages env path t = (inr (Some missing), t1) →
  confirm_install env (announced missing t1) = (inr true, t2) →
  ∃ new report,
    ensure_project_dependencies env path t = (inr true, report ++ new ++ t2)
    ∧ (installs new).*1 = missing
    ∧ (successes new = length missing →
       report = [EvPrint "✅ All project dependencies installed successfully!"])
    ∧ (successes new ≠ length missing →
       successes new < length missing
       ∧ report = [EvPrint "Compilation may fail due to missing dependencies";
                   partial_warning (successes new) (length missing)]).
Proof.
  intros Hmissing Hconfirm.
  rewrite ensure_project_dependencies_phases, Hmissing, bind_run, Hconfirm.
  destruct (install_missing_run env missing t2)
    as (new & report & Hrun & Htried & _ & Hall & Hpart).
  by exists new, report.
Qed.

Lemma ensure_project_dependencies_installs_witness :
  ∃ t2 new report,
    ensure_project_dependencies (Sample.world Sample.failing_install)
      "proj/main.py" []
    = (inr true, report ++ new ++ t2)
    ∧ (installs new).*1 = ["flask"].
Proof.
  pose (env := Sample.world Sample.failing_install).
  pose (t1 := (missing_project_packages env "proj/main.py" []).2).
  destruct (ensure_project_dependencies_installs env "proj/main.py" []
              ["flask"] t1 (announced ["flask"] t1))
    as (new & report & Hrun & Htried & _).
  - by vm_compute.
  - by vm_compute.
  - by exists (announced ["flask"] t1), new, report.
Defined.

(** C1, as worded, fails: the answer is [True] also when the only install
    that was tried has failed. *)
Lemma ensure_project_dependencies_succeeds_without_install :
  ¬ ∀ env, spec_ensure_project_dependencies env.
Proof.
  intros H.
  pose (env := Sample.world Sample.failing_install).
  pose (t1 := (missing_project_packages env "proj/main.py" []).2).
  pose (t' := (ensure_project_dependencies env "proj/main.py" []).2).
  assert (missing_project_packages env "proj/main.py" []
          = (inr (Some ["flask"]), t1)) as Hmissing by (by vm_compute).
  assert (confirm_install env (announced ["flask"] t1)
          = (inr true, announced ["flask"] t1)) as Hconfirm
    by (by vm_compute).
  assert (ensure_project_dependencies env "proj/main.py" [] = (inr true, t'))
    as Hrun by (by vm_compute).
  assert (t' = take 5 t' ++ announced ["flask"] t1) as Ht' by (by vm_compute).
  assert (installs (take 5 t') = [("flask", false)]) as Hinstalls
    by (by vm_compute).
  specialize (H env "proj/main.py" [] ["flask"] t1 _ true t' _
                Hmissing Hconfirm Hrun Ht').
  rewrite Hinstalls in H. destruct H as [H _].
  destruct (H eq_refl) as [[p Hp] | Hnil].
  - apply list_elem_of_singleton in Hp. discriminate Hp.
  - discriminate Hnil.
Qed.

Ltac elem_by_compute :=
  apply list_elem_of_In; vm_compute;
  repeat first [ left; reflexivity | right ].

(** C2 (the code departs from it).  With a manifest that names the
    packaging tool next to another package, the list from which the missing
    packages are computed still holds [pyinstaller]: the method reads the
    manifest a second time after it has filtered the first reading.  The
    tool is probed, announced and installed as a project dependency. *)
Theorem packaging_tool_among_project_dependencies :
  let env := Sample.world Sample.tool_in_manifest in
  (missing_project_packages env "proj/main.py" []).1
  = inr (Some ["pyinstaller"; "flask"])
  ∧ (∃ t', ensure_project_dependencies env "proj/main.py" [] = (inr true, t')
           ∧ EvImport "pyinstaller"
               (Some (Exc (ImportError "No module named 'pyinstaller'"))) ∈ t'
           ∧ EvPrint "Packages needed: pyinstaller, flask" ∈ t'
           ∧ installs t' = [("pyinstaller", true); ("flask", true)])
  ∧ ¬ spec_excludes_packaging_tool.
Proof.
  intros env.
  pose (t' := (ensure_project_dependencies env "proj/main.py" []).2).
  assert (ensure_project_dependencies env "proj/main.py" [] = (inr true, t'))
    as Hrun by (by vm_compute).
  assert (probes t' = ["flask"; "pyinstaller"]) as Hprobes by (by vm_compute).
  split_and!.
  - by vm_compute.
  - exists t'. split; [done|]. split_and!.
    + elem_by_compute.
    + elem_by_compute.
    + by vm_compute.
  - intros H.
    specialize (H env "proj/main.py" [] _ t' t' Hrun (eq_sym (app_nil_r _))).
    rewrite Hprobes in H. apply H. elem_by_compute.
Qed.

(** C7.  When project dependencies are missing, nothing but printing and
    probing has happened before the announcement.  Started without
    arguments, the method then asks once: an answer that is [y], [yes] or
    empty once trimmed and lowered lets the installs go ahead, with no
    further question; any other answer, the end of input and an interrupt
    make it return [False] with nothing after the question but a warning, so
    no install.  Started with arguments, it installs without asking.
    Where the installs go ahead, [pip] is called as
    [sys.executable -m pip install] for every missing package, once each
    and in their order.  When the method returns [False], [compile_to_exe]
    returns [False] and the trace holds no packaging event. *)
Theorem confirmation_before_installing env path t missing t1 :
  missing_project_packages env path t = (inr (Some missing), t1) →
  let prompt := "Install project dependencies? (y/n): " in
  let t2 := announced missing t1 in
  let answer := input env t2 prompt in
  let asked := EvInput prompt answer :: t2 in
  (∃ new, t1 = new ++ t ∧ Forall sounding new)
  ∧ (length (sys_argv env) = 1 →
     (∀ s, answer = inr s → accepted s = true →
           ∃ new,
             ensure_project_dependencies env path t = (inr true, new ++ asked)
             ∧ install_missing env missing asked = (inr true, new ++ asked)
             ∧ Forall (λ e, ¬ is_input e) new
             ∧ (installs new).*1 = missing
             ∧ ∀ p, p ∈ missing →
                    ∃ r, EvCheckCall [sys_executable env; "-m"; "pip";
                                      "install"; p] r ∈ new)
     ∧ (∀ s, answer = inr s → accepted s = false →
             ensure_project_dependencies env path t
             = (inr false, declined_warning :: asked))
     ∧ (answer = inl KeyboardInterrupt
        ∨ (∃ msg, answer = inl (Exc (EOFError msg))) →
        ensure_project_dependencies env path t = (inr false, asked)))
  ∧ accepted "" = true
  ∧ accepted "n" = false
  ∧ (length (sys_argv env) ≠ 1 →
     ∃ new,
       ensure_project_dependencies env path t = (inr true, new ++ t2)
       ∧ install_missing env missing t2 = (inr true, new ++ t2)
       ∧ Forall (λ e, ¬ is_input e) new
       ∧ (installs new).*1 = missing
       ∧ ∀ p, p ∈ missing →
              ∃ r, EvCheckCall [sys_executable env; "-m"; "pip";
                                "install"; p] r ∈ new)
  ∧ (∀ output_dir t0 t',
       ensure_compiler_dependencies env t0 = (inr true, t) →
       ensure_project_dependencies env path t = (inr false, t') →
       compile_to_exe env path output_dir t0 = (inr false, t')
       ∧ ∃ new, t' = new ++ t0 ∧ Forall prep new).
Proof.
  intros Hmissing prompt t2 answer asked.
  pose proof (ensure_project_dependencies_phases env path t) as Hphases.
  rewrite Hmissing in Hphases. cbv beta iota in Hphases.
  rewrite bind_run, confirm_install_run in Hphases.
  cbv zeta in Hphases. fold prompt t2 answer asked in Hphases.
  assert (∀ t3, ∃ new,
            install_missing env missing t3 = (inr true, new ++ t3)
            ∧ Forall (λ e, ¬ is_input e) new
            ∧ (installs new).*1 = missing
            ∧ ∀ p, p ∈ missing →
                   ∃ r, EvCheckCall [sys_executable env; "-m"; "pip";
                                     "install"; p] r ∈ new) as Hinstall.
  { intros t3.
    destruct (install_missing_emits env (λ e, ¬ is_input e)
                ltac:(by intros ? []) ltac:(by intros ?? []) missing t3)
      as [_ (new & Hnew & Hquiet)].
    destruct (install_missing_calls env missing t3)
      as (new' & Hrun & Hnames & Hcalls).
    rewrite Hrun in Hnew. simpl in Hnew. apply app_inv_tail in Hnew as <-.
    by exists new'. }
  split_and!.
  - destruct (missing_project_packages_emits env sounding
                ltac:(done) ltac:(done) path t) as [_ (new & Hnew & Hs)].
    rewrite Hmissing in Hnew. by exists new.
  - intros Hargs. rewrite bool_decide_eq_true_2 in Hphases by done.
    split_and!.
    + intros s Hs Hacc. rewrite Hs, Hacc in Hphases.
      destruct (Hinstall asked) as (new & Hnew & Hquiet & Hnames & Hcalls).
      exists new. by rewrite Hphases.
    + intros s Hs Hacc. by rewrite Hs, Hacc in Hphases.
    + intros [Hk | [msg He]]; [by rewrite Hk in Hphases|].
      by rewrite He in Hphases.
  - done.
  - done.
  - intros Hargs. rewrite bool_decide_eq_false_2 in Hphases by done.
    destruct (Hinstall t2) as (new & Hnew & Hquiet & Hnames & Hcalls).
    exists new. by rewrite Hphases.
  - intros output_dir t0 t' Hcompiler Hproject. split.
    + unfold compile_to_exe, try_except, compile_body. cbv zeta.
      rewrite bind_run, Hcompiler. cbn [negb]. cbv beta iota.
      by rewrite bind_run, Hproject.
    + destruct (ensure_compiler_dependencies_emits env prep
                  ltac:(done) ltac:(done) ltac:(done) t0)
        as [_ (new0 & Hnew0 & Hprep0)].
      destruct (ensure_project_dependencies_emits env prep
                  ltac:(done) ltac:(done) ltac:(done) ltac:(done) path t)
        as [_ (new1 & Hnew1 & Hprep1)].
      rewrite Hcompiler in Hnew0. rewrite Hproject in Hnew1. simpl in *.
      exists (new1 ++ new0). subst. rewrite app_assoc. split; [done|].
      by apply Forall_app.
Qed.

Lemma confirmation_before_installing_witness :
  (∃ t',
     ensure_project_dependencies (Sample.world (Sample.prompted (inr "n")))
       "proj/main.py" [EvImport "pyinstaller" None]
     = (inr false, t')
     ∧ compile_to_exe (Sample.world (Sample.prompted (inr "n")))
         "proj/main.py" None []
       = (inr false, t'))
  ∧ (∃ r,
       EvCheckCall ["python"; "-m"; "pip"; "install"; "click"] r
       ∈ (ensure_project_dependencies (Sample.world (Sample.prompted (inr "")))
            "proj/main.py" [EvImport "pyinstaller" None]).2)
  ∧ (∃ r,
       EvCheckCall ["python"; "-m"; "pip"; "install"; "click"] r
       ∈ (ensure_project_dependencies (Sample.world Sample.project)
            "proj/main.py" [EvImport "pyinstaller" None]).2).
Proof.
  pose (t := [EvImport "pyinstaller" None]).
  split; [|split].
  - pose (env := Sample.world (Sample.prompted (inr "n"))).
    pose (t1 := (missing_project_packages env "proj/main.py" t).2).
    destruct (confirmation_before_installing env "proj/main.py" t ["click"]
                t1)
      as (_ & Hasked & _ & _ & _ & Hcompile); [by vm_compute|].
    destruct (Hasked eq_refl) as (_ & Hdeclined & _).
    specialize (Hdeclined "n" eq_refl eq_refl).
    eexists. split; [exact Hdeclined|].
    refine (proj1 (Hcompile None [] _ _ Hdeclined)). by vm_compute.
  - pose (env := Sample.world (Sample.prompted (inr ""))).
    pose (t1 := (missing_project_packages env "proj/main.py" t).2).
    destruct (confirmation_before_installing env "proj/main.py" t ["click"]
                t1)
      as (_ & Hasked & _); [by vm_compute|].
    destruct (Hasked eq_refl) as (Haccepted & _).
    destruct (Haccepted "" eq_refl eq_refl)
      as (new & Hrun & _ & _ & _ & Hcalls).
    destruct (Hcalls "click") as [r Hr]; [apply list_elem_of_here|].
    exists r. fold env t. rewrite Hrun. simpl. apply elem_of_app. by left.
  - pose (env := Sample.world Sample.project).
    pose (t1 := (missing_project_packages env "proj/main.py" t).2).
    destruct (confirmation_before_installing env "proj/main.py" t ["click"]
                t1)
      as (_ & _ & _ & _ & Hbatch & _); [by vm_compute|].
    destruct Hbatch as (new & Hrun & _ & _ & _ & Hcalls); [by vm_compute|].
    destruct (Hcalls "click") as [r Hr]; [apply list_elem_of_here|].
    exists r. fold env t. rewrite Hrun. simpl. apply elem_of_app. by left.
Defined.

(** ** Packaging *)

Ltac cleanup_event :=
  first [ left; by eexists | right; left; by eexists
        | right; right; by eexists ].

Ltac cleanup_case :=
  match goal with
  | |- ∃ post, (_, ?t') = (_, post ++ ?t) ∧ _ =>
      first [ exists []; split; [reflexivity|]
            | eexists [_]; split; [reflexivity|]
            | eexists [_; _]; split; [reflexivity|]
            | eexists [_; _; _]; split; [reflexivity|] ];
      split;
      [ repeat (apply Forall_cons; split; [cleanup_event|]); apply Forall_nil
      | let Hin := fresh "Hin" in
        intros ? ? [Hin | Hin];
        repeat (apply elem_of_cons in Hin as [Hin | Hin]);
        simplify_eq; try (by apply elem_of_nil in Hin);
        unfold cleanup_warning; set_solver ]
  end.

Lemma print_run line t : print line t = (inr (), EvPrint line :: t).
Proof. reflexivity. Qed.

Lemma ret_run {A} (a : A) t : ret a t = (inr a, t).
Proof. reflexivity. Qed.

Ltac run_step :=
  progress (rewrite ?bind_run, ?print_run, ?ret_run; cbv beta iota).

Section Compile_facts.

Context (env : Env).

Local Hint Extern 1 (prep _) => reflexivity : core.

Lemma foldl_hidden_imports cmd externals :
  foldl (λ cmd external_import, cmd ++ ["--hidden-import"; external_import])
    cmd externals
  = cmd ++ flat_map (λ imp, ["--hidden-import"; imp]) externals.
Proof.
  revert cmd. induction externals as [|imp externals IH]; intros cmd; simpl.
  - by rewrite app_nil_r.
  - by rewrite IH, <- app_assoc.
Qed.

Lemma try_compile_except e t :
  match compile_except (Exc e) with
  | Some h => h t
  | None => (inl (Exc e), t)
  end
  = (inr false, compile_report e ++ t).
Proof. by destruct e. Qed.

Lemma compile_report_prints e : Forall (λ e, is_print e = true) (compile_report e).
Proof. destruct e; by repeat constructor. Qed.

Lemma compile_report_prep e : Forall prep (compile_report e).
Proof. destruct e; by repeat constructor. Qed.

Lemma compile_banner_prep path d a : Forall prep (compile_banner env path d a).
Proof. by repeat constructor. Qed.

(** What the cleanup does, whatever the removals give. *)
Lemma cleanup_run d name t :
  ∃ post,
    _cleanup_temp_files env d name t = (inr (), post ++ t)
    ∧ Forall (λ e, (∃ r, e = EvRemove (os_path_join env d (name +:+ ".spec")) r)
                   ∨ (∃ r, e = EvRmtree (os_path_join env d "build") r)
                   ∨ (∃ x, e = cleanup_warning x)) post
    ∧ (∀ p x, EvRemove p (Some x) ∈ post ∨ EvRmtree p (Some x) ∈ post →
              cleanup_warning x ∈ post).
Proof.
  unfold _cleanup_temp_files, try_except, bind, path_exists, remove, rmtree,
    outcome, ret, print.
  cbv zeta.
  destruct (os_path_exists env t _); simpl;
    [destruct (os_remove env t _) as [x|]; simpl|];
    try (destruct (os_path_exists env _ _); simpl;
         [destruct (shutil_rmtree env _ _) as [x|]; simpl|]);
    cleanup_case.
  Unshelve. all: exact I.
Qed.

Lemma compile_prepare_emits path : emits prep (compile_prepare env path).
Proof.
  unfold compile_prepare. emits_go;
    auto using ensure_compiler_dependencies_emits,
      ensure_project_dependencies_emits, analyze_dependencies_emits.
Qed.

Lemma compile_prepare_analysis path t a t1 :
  compile_prepare env path t = (inr (Some a), t1) →
  ∃ ta, analyze_dependencies env path ta = (inr a, t1).
Proof.
  unfold compile_prepare. rewrite bind_run.
  destruct (ensure_compiler_dependencies env t) as [[e|[]] t0]; try done.
  cbn [negb]. rewrite bind_run.
  destruct (ensure_project_dependencies env path t0) as [[e|[]] t2]; try done.
  cbn [negb]. rewrite bind_run. unfold print at 1. rewrite bind_run.
  destruct (analyze_dependencies env path _) as [[e|a'] t3] eqn:Ha; try done.
  intros [= <- <-]. eauto.
Qed.

(** [compile_body], step by step. *)
Lemma compile_body_phases path out t :
  compile_body env path out t
  = match compile_prepare env path t with
    | (inl e, t1) => (inl e, t1)
    | (inr None, t1) => (inr false, t1)
    | (inr (Some a), t1) =>
        let d := output_dir_of env path out in
        let cmd := packaging_command env path d (external_imports a) in
        let t2 := compile_banner env path d a ++ t1 in
        match subprocess_run env t2 cmd with
        | Some e => (inl (Exc e), EvRun cmd (Some e) :: t2)
        | None =>
            (inr true,
             (_cleanup_temp_files env d (script_name_of env path)
                (EvPrint "✅ Compilation completed successfully!"
                 :: EvRun cmd None :: t2)).2)
        end
    end.
Proof.
  unfold compile_body, compile_prepare. cbv zeta.
  change (match out with Some d => d | None => os_path_dirname env path end)
    with (output_dir_of env path out).
  rewrite !bind_run.
  destruct (ensure_compiler_dependencies env t) as [[e|[]] t0]; try done.
  cbn [negb]. rewrite !bind_run.
  destruct (ensure_project_dependencies env path t0) as [[e|[]] t2]; try done.
  cbn [negb]. repeat run_step.
  destruct (analyze_dependencies env path _) as [[e|a] t3]; try done.
  repeat run_step.
  rewrite foldl_hidden_imports, <- app_assoc.
  fold (script_name_of env path).
  set (d := output_dir_of env path out).
  change (?x ++ flat_map ?f ?l ++ [path])
    with (packaging_command env path d l).
  set (cmd := packaging_command env path d (external_imports a)).
  unfold run, outcome, compile_banner. fold cmd. cbn [app]. cbv beta iota.
  destruct (subprocess_run env _ cmd) as [x|]; [done|].
  repeat run_step.
  match goal with |- context [_cleanup_temp_files ?e ?d ?n ?t] =>
    destruct (cleanup_run d n t) as (post & Hclean & _) end.
  by rewrite !Hclean.
Qed.

Lemma raised_by_prep b e : raised_by b e → prep e.
Proof. by destruct e. Qed.

(** How [compile_to_exe] ends. *)
Lemma compile_to_exe_compiled path out t :
  ∃ r t',
    compile_to_exe env path out t = (r, t')
    ∧ compiled env path out t r t'
    ∧ (∀ e t1, compile_body env path out t = (inl (Exc e), t1) →
               r = inr false).
Proof.
  unfold compile_to_exe, try_except. rewrite compile_body_phases.
  destruct (compile_prepare_emits path t) as [Hcalm (new & Hnew & Hprep)].
  destruct (compile_prepare env path t) as [[b|[a|]] t1] eqn:Hprepare;
    simpl in Hnew; subst t1.
  - assert ((∃ e, b = Exc e)
            ∨ (∀ x, b ≠ Exc x)
              ∧ compile_except b = None
              ∧ ∃ e rest, new = e :: rest ∧ raised_by b e) as Hb.
    { destruct b as [e| |code]; [left; by exists e | right | right];
        (split; [done|]; split; [done|]);
        (destruct (Hcalm _ eq_refl) as [[e [=]] | (e & rest & Hrun & He)]);
        simpl in Hrun; rewrite app_comm_cons in Hrun;
        apply app_inv_tail in Hrun; by exists e, rest. }
    destruct Hb as [[e ->] | (Hne & -> & e & rest & -> & He)].
    + rewrite try_compile_except. eexists _, _. split; [done|].
      split; [|done]. rewrite app_assoc. apply compiled_stopped.
      apply Forall_app. split; [apply compile_report_prep | done].
    + eexists _, _. split; [done|]. split.
      * apply compiled_left; [done | done |].
        by apply Forall_cons in Hprep as [_ ?].
      * intros x t1 [= Hx]. by destruct (Hne x).
  - apply compile_prepare_analysis in Hprepare as [ta Ha].
    cbv zeta.
    set (d := output_dir_of env path out).
    set (cmd := packaging_command env path d (external_imports a)).
    destruct (subprocess_run env (compile_banner env path d a ++ new ++ t) cmd)
      as [x|] eqn:Hrun.
    + rewrite try_compile_except. eexists _, _. split; [done|].
      split; [|done]. rewrite (app_assoc _ new t) in Hrun |- *.
      by eapply compiled_failed.
    + destruct (cleanup_run d (script_name_of env path)
                  (EvPrint "✅ Compilation completed successfully!"
                   :: EvRun cmd None :: compile_banner env path d a
                   ++ new ++ t)) as (post & Hclean & _).
      rewrite Hclean. eexists _, _. split; [done|]. split; [|done].
      rewrite (app_assoc _ new t) in Hrun, Hclean |- *.
      by eapply compiled_built.
  - eexists _, _. split; [done|]. split; [|done]. by apply compiled_stopped.
Qed.

Lemma analyze_dependencies_nodup path ta a ta' :
  analyze_dependencies env path ta = (inr a, ta') →
  NoDup (external_imports a).
Proof.
  unfold analyze_dependencies. rewrite bind_run.
  destruct (extract_imports env path ta) as [[e|entry] t1]; [done|].
  rewrite bind_run.
  destruct (find_local_modules env path t1) as [[e|modules] t2]; [done|].
  rewrite bind_run.
  destruct (for_each modules _ _ t2) as [[e|all] t3]; [done|].
  intros [= <- _]. simpl. apply NoDup_filter, NoDup_set_iter.
Qed.

(** The events that [compile_to_exe] has added, by the way it ended. *)
Lemma compiled_new path out t r new :
  compiled env path out t r (new ++ t) →
  let d := output_dir_of env path out in
  (Forall prep new
   ∧ (r = inr false
      ∨ ∃ b e rest,
          r = inl b ∧ (∀ x, b ≠ Exc x) ∧ new = e :: rest ∧ raised_by b e))
  ∨ (∃ a ta early e,
       r = inr false
       ∧ Forall prep early
       ∧ analyze_dependencies env path ta = (inr a, early ++ t)
       ∧ new = compile_report e
               ++ EvRun (packaging_command env path d (external_imports a))
                    (Some e)
               :: compile_banner env path d a ++ early)
  ∨ (∃ a ta early post,
       r = inr true
       ∧ Forall prep early
       ∧ analyze_dependencies env path ta = (inr a, early ++ t)
       ∧ new = post
               ++ EvPrint "✅ Compilation completed successfully!"
               :: EvRun (packaging_command env path d (external_imports a))
                    None
               :: compile_banner env path d a ++ early
       ∧ Forall (λ e, (∃ r, e = EvRemove (os_path_join env d
                                            (script_name_of env path
                                             +:+ ".spec")) r)
                      ∨ (∃ r, e = EvRmtree (os_path_join env d "build") r)
                      ∨ (∃ x, e = cleanup_warning x)) post
       ∧ (∀ p x, EvRemove p (Some x) ∈ post ∨ EvRmtree p (Some x) ∈ post →
                 cleanup_warning x ∈ post)).
Proof.
  intros H d. inversion H as [new0 Hprep Hb Ht
                             | b e rest Hne He Hprep Hb Ht
                             | a ta early e Hprep Ha d0 cmd pre Hrun Hb Ht
                             | a ta early post Hprep Ha d0 cmd pre built Hrun
                                 Hclean Hb Ht]; subst.
  - apply app_inv_tail in Ht as ->. left. split; [done | by left].
  - rewrite app_comm_cons in Ht. apply app_inv_tail in Ht as <-.
    left. split.
    + apply Forall_cons. split; [by eapply raised_by_prep | done].
    + right. by exists b, e, rest.
  - right. left. exists a, ta, early, e. split_and!; try done.
    apply (app_inv_tail t). rewrite <- Ht. subst pre.
    by rewrite <- !app_assoc, <- !app_comm_cons, <- !app_assoc.
  - right. right. exists a, ta, early, post.
    destruct (cleanup_run d0 (script_name_of env path) built)
      as (post' & Hclean' & Hpost & Hwarn).
    rewrite Hclean in Hclean'. injection Hclean' as Hpost'.
    apply app_inv_tail in Hpost' as <-.
    split_and!; try done.
    apply (app_inv_tail t). rewrite <- Ht. subst built pre.
    by rewrite <- !app_assoc, <- !app_comm_cons, <- !app_assoc.
Qed.

End Compile_facts.

Section Event_facts.

Lemma prep_elem new e : Forall prep new → e ∈ new → packaging e = false.
Proof. intros H Hin. by apply (proj1 (Forall_forall _ _) H). Qed.

Lemma print_elem new e :
  Forall (λ e, is_print e = true) new → e ∈ new → is_print e = true.
Proof. intros H Hin. by apply (proj1 (Forall_forall _ _) H). Qed.

Lemma compile_banner_prints env path d a :
  Forall (λ e, is_print e = true) (compile_banner env path d a).
Proof. by repeat constructor. Qed.

End Event_facts.

(** C8.  Whenever [compile_to_exe] runs the packaging tool, the command
    is: the program name, [--onefile], [--console], [--distpath],
    [--workpath] and [--specpath] at the output directory (the work path in
    its [build]), [--name] with the base name of the entry without its
    extension, [--clean], one [--hidden-import] for each external import of
    the analysis of this run, none of them twice, and the entry path
    last. *)
Theorem compile_to_exe_command env path out t r t' new cmd res :
  compile_to_exe env path out t = (r, t') →
  t' = new ++ t →
  EvRun cmd res ∈ new →
  ∃ a ta early,
    analyze_dependencies env path ta = (inr a, early ++ t)
    ∧ suffix early new
    ∧ NoDup (external_imports a)
    ∧ let d := default (os_path_dirname env path) out in
      cmd = ["pyinstaller"; "--onefile"; "--console";
             "--distpath"; d;
             "--workpath"; os_path_join env d "build";
             "--specpath"; d;
             "--name";
             (os_path_splitext env (os_path_basename env path)).1;
             "--clean"]
            ++ flat_map (λ imp, ["--hidden-import"; imp]) (external_imports a)
            ++ [path].
Proof.
  intros Hrun -> Hin.
  destruct (compile_to_exe_compiled env path out t) as (b & t'' & Hrun' & Hc & _).
  rewrite Hrun in Hrun'. injection Hrun' as -> <-.
  apply compiled_new in Hc
    as [[Hprep _]
       | [(a & ta & early & e & _ & Hprep & Ha & ->)
         | (a & ta & early & post & _ & Hprep & Ha & -> & Hpost & _)]].
  - by apply (prep_elem _ _ Hprep) in Hin.
  - exists a, ta, early. split; [done|]. split.
    { rewrite app_comm_cons, !app_assoc. by eexists. }
    split; [by eapply analyze_dependencies_nodup|].
    apply elem_of_app in Hin as [Hin | Hin].
    { by apply (print_elem _ _ (compile_report_prints e)) in Hin. }
    apply elem_of_cons in Hin as [[= -> _] | Hin]; [done|].
    apply elem_of_app in Hin as [Hin | Hin].
    + by apply (print_elem _ _ (compile_banner_prints _ _ _ _)) in Hin.
    + by apply (prep_elem _ _ Hprep) in Hin.
  - exists a, ta, early. split; [done|]. split.
    { rewrite !app_comm_cons, !app_assoc. by eexists. }
    split; [by eapply analyze_dependencies_nodup|].
    apply elem_of_app in Hin as [Hin | Hin].
    { apply (proj1 (Forall_forall _ _) Hpost) in Hin
        as [[? [=]] | [[? [=]] | [? [=]]]]. }
    apply elem_of_cons in Hin as [[=] | Hin].
    apply elem_of_cons in Hin as [[= -> _] | Hin]; [done|].
    apply elem_of_app in Hin as [Hin | Hin].
    + by apply (print_elem _ _ (compile_banner_prints _ _ _ _)) in Hin.
    + by apply (prep_elem _ _ Hprep) in Hin.
Qed.

Lemma compile_to_exe_command_witness :
  ∃ a,
    NoDup (external_imports a)
    ∧ ["pyinstaller"; "--onefile"; "--console"; "--distpath"; "proj";
       "--workpath"; "proj/build"; "--specpath"; "proj"; "--name"; "main";
       "--clean"; "--hidden-import"; "numpy"; "--hidden-import"; "requests";
       "proj/main.py"]
      = ["pyinstaller"; "--onefile"; "--console"; "--distpath"; "proj";
         "--workpath"; "proj/build"; "--specpath"; "proj"; "--name"; "main";
         "--clean"]
        ++ flat_map (λ imp, ["--hidden-import"; imp]) (external_imports a)
        ++ ["proj/main.py"].
Proof.
  pose (env := Sample.world Sample.project).
  pose (run := compile_to_exe env "proj/main.py" None []).
  destruct (compile_to_exe_command env "proj/main.py" None [] run.1 run.2
              run.2
              ["pyinstaller"; "--onefile"; "--console"; "--distpath"; "proj";
               "--workpath"; "proj/build"; "--specpath"; "proj"; "--name";
               "main"; "--clean"; "--hidden-import"; "numpy";
               "--hidden-import"; "requests"; "proj/main.py"] None)
    as (a & ta & early & _ & _ & Hnodup & Hcmd).
  - by vm_compute.
  - by rewrite app_nil_r.
  - apply (list_elem_of_lookup_2 _ 3). by vm_compute.
  - by exists a.
Defined.

(** C9.  A removal of [compile_to_exe] is the removal of
    [<output_dir>/<name>.spec] or of [<output_dir>/build], it comes after a
    packaging run that succeeded, and the answer is then [True].  After a
    packaging run that failed the answer is [False] and nothing is removed.
    A packaging run that succeeded makes the answer [True] whatever the
    cleanup gives; a removal that fails is followed by a printed warning. *)
Theorem cleanup_after_success_only env path out t r t' new :
  compile_to_exe env path out t = (r, t') →
  t' = new ++ t →
  let d := default (os_path_dirname env path) out in
  let name := (os_path_splitext env (os_path_basename env path)).1 in
  (∀ e, e ∈ new → is_cleanup e →
        r = inr true
        ∧ ((∃ res, e = EvRemove (os_path_join env d (name +:+ ".spec")) res)
           ∨ (∃ res, e = EvRmtree (os_path_join env d "build") res))
        ∧ ∃ post cmd pre,
            new = post ++ EvRun cmd None :: pre
            ∧ e ∈ post
            ∧ Forall prep pre)
  ∧ (∀ cmd x, EvRun cmd (Some x) ∈ new →
              r = inr false ∧ Forall (λ e, ¬ is_cleanup e) new)
  ∧ (∀ cmd, EvRun cmd None ∈ new → r = inr true)
  ∧ (∀ p x, EvRemove p (Some x) ∈ new ∨ EvRmtree p (Some x) ∈ new →
            r = inr true ∧ cleanup_warning x ∈ new).
Proof.
  intros Hrun -> d name.
  destruct (compile_to_exe_compiled env path out t) as (b & t'' & Hrun' & Hc & _).
  rewrite Hrun in Hrun'. injection Hrun' as -> <-.
  assert (∀ l e, Forall prep l → e ∈ l → ¬ is_cleanup e) as Hprep_clean.
  { intros l e Hl Hin He. apply (prep_elem _ _ Hl) in Hin. by destruct e. }
  assert (∀ l e, Forall (λ e, is_print e = true) l → e ∈ l → ¬ is_cleanup e)
    as Hprint_clean.
  { intros l e Hl Hin He. apply (print_elem _ _ Hl) in Hin. by destruct e. }
  apply compiled_new in Hc
    as [[Hprep _]
       | [(a & ta & early & x & -> & Hprep & Ha & ->)
         | (a & ta & early & post & -> & Hprep & Ha & -> & Hpost & Hwarn)]].
  - split_and!.
    + intros e Hin He. by destruct (Hprep_clean _ _ Hprep Hin).
    + intros cmd x Hin. by apply (prep_elem _ _ Hprep) in Hin.
    + intros cmd Hin. by apply (prep_elem _ _ Hprep) in Hin.
    + intros p x [Hin | Hin]; by apply (prep_elem _ _ Hprep) in Hin.
  - assert (Forall (λ e, ¬ is_cleanup e)
              (compile_report x
               ++ EvRun (packaging_command env path (output_dir_of env path out)
                           (external_imports a)) (Some x)
               :: compile_banner env path (output_dir_of env path out) a
               ++ early)) as Hnone.
    { apply Forall_app. split.
      { apply Forall_forall. intros e.
        apply Hprint_clean, compile_report_prints. }
      apply Forall_cons. split; [by intros []|].
      apply Forall_app. split; apply Forall_forall; intros e.
      - apply Hprint_clean, compile_banner_prints.
      - by apply Hprep_clean. }
    split_and!.
    + intros e Hin He. by destruct (proj1 (Forall_forall _ _) Hnone e Hin).
    + done.
    + intros cmd Hin.
      apply elem_of_app in Hin as [Hin | Hin].
      { by apply (print_elem _ _ (compile_report_prints x)) in Hin. }
      apply elem_of_cons in Hin as [[=] | Hin].
      apply elem_of_app in Hin as [Hin | Hin].
      * by apply (print_elem _ _ (compile_banner_prints _ _ _ _)) in Hin.
      * by apply (prep_elem _ _ Hprep) in Hin.
    + intros p y [Hin | Hin];
        by destruct (proj1 (Forall_forall _ _) Hnone _ Hin).
  - set (cmd := packaging_command env path (output_dir_of env path out)
                  (external_imports a)) in *.
    set (banner := compile_banner env path (output_dir_of env path out) a)
      in *.
    assert (Forall prep (banner ++ early)) as Hpre.
    { apply Forall_app. split; [by repeat constructor | done]. }
    assert (∀ e, e ∈ EvPrint "✅ Compilation completed successfully!"
                     :: EvRun cmd None :: banner ++ early →
                 ¬ is_cleanup e) as Hrest.
    { intros e Hin.
      apply elem_of_cons in Hin as [-> | Hin]; [by intros []|].
      apply elem_of_cons in Hin as [-> | Hin]; [by intros []|].
      by apply (Hprep_clean _ _ Hpre). }
    split_and!.
    + intros e Hin He. split; [done|].
      apply elem_of_app in Hin as [Hin | Hin];
        [|by destruct (Hrest e Hin)].
      split.
      * destruct (proj1 (Forall_forall _ _) Hpost e Hin)
          as [? | [? | [? ->]]]; [by left | by right | by destruct He].
      * exists (post ++ [EvPrint "✅ Compilation completed successfully!"]),
          cmd, (banner ++ early).
        split; [by rewrite <- app_assoc|]. split; [|done].
        apply elem_of_app. by left.
    + intros cmd' x Hin. exfalso.
      apply elem_of_app in Hin as [Hin | Hin].
      { apply (proj1 (Forall_forall _ _) Hpost) in Hin
          as [[? [=]] | [[? [=]] | [? [=]]]]. }
      apply elem_of_cons in Hin as [[=] | Hin].
      apply elem_of_cons in Hin as [[=] | Hin].
      by apply (prep_elem _ _ Hpre) in Hin.
    + done.
    + intros p x Hin. split; [done|].
      apply elem_of_app. left. apply (Hwarn p x).
      destruct Hin as [Hin | Hin]; [left | right];
        (apply elem_of_app in Hin as [Hin | Hin];
         [done | by destruct (Hrest _ Hin)]).
Qed.

Lemma cleanup_after_success_only_witness :
  ∃ t',
    compile_to_exe (Sample.world Sample.remove_fails) "proj/main.py" None []
    = (inr true, t')
    ∧ cleanup_warning (OtherException "[Errno 13] Permission denied") ∈ t'.
Proof.
  pose (run := compile_to_exe (Sample.world Sample.remove_fails)
                 "proj/main.py" None []).
  destruct (cleanup_after_success_only (Sample.world Sample.remove_fails)
              "proj/main.py" None [] run.1 run.2 run.2)
    as (_ & _ & _ & Hwarn).
  - by vm_compute.
  - by rewrite app_nil_r.
  - destruct (Hwarn "proj/main.spec"
                (OtherException "[Errno 13] Permission denied"))
      as [Hr Hin].
    + left. apply (list_elem_of_lookup_2 _ 1). by vm_compute.
    + exists run.2. split; [|done].
      rewrite <- Hr. apply surjective_pairing.
Defined.

(** C10 (amended).  [compile_to_exe] never lets an [Exception] through:
    it returns a boolean unless an import of a probed module, or the
    prompt, raises something outside [Exception] ([SystemExit],
    [KeyboardInterrupt]); that exception goes on to the caller, and the
    import or prompt that raised it is the last thing done, before any
    packaging.  So the result is a boolean whenever every import and prompt
    of the run that raises raises an [Exception].  The boolean is [False]
    when the packaging tool has failed, whether it ended with an error
    status, could not be found or failed otherwise, and when the [try]
    block has raised an [Exception]; the result is [True] exactly when a
    run of the packaging tool has succeeded. *)
Theorem compile_to_exe_total env path out t :
  ∃ r new,
    compile_to_exe env path out t = (r, new ++ t)
    ∧ (∀ e, r ≠ inl (Exc e))
    ∧ (∀ b, r = inl b →
            ∃ e rest, new = e :: rest ∧ raised_by b e ∧ Forall prep new)
    ∧ ((∀ e b, e ∈ new → raised_by b e → ∃ x, b = Exc x) →
       ∃ answer : bool, r = inr answer)
    ∧ (∀ cmd x, EvRun cmd (Some x) ∈ new → r = inr false)
    ∧ (∀ e t1, compile_body env path out t = (inl (Exc e), t1) →
               r = inr false)
    ∧ (r = inr true ↔ ∃ cmd, EvRun cmd None ∈ new).
Proof.
  destruct (compile_to_exe_compiled env path out t)
    as (r & t' & Hrun & Hc & Hraise).
  assert (∃ new, t' = new ++ t) as [new ->].
  { inversion Hc as [new0 | b e rest | a ta early e ? ? d cmd pre
                      | a ta early post ? ? d cmd pre built]; subst.
    - by exists new0.
    - by exists (e :: rest).
    - exists (compile_report e ++ EvRun cmd (Some e) :: pre).
      by rewrite <- app_assoc.
    - exists (post ++ EvPrint "✅ Compilation completed successfully!"
                :: EvRun cmd None :: pre).
      by rewrite <- app_assoc. }
  exists r, new. split; [done|].
  assert ((∀ e, r ≠ inl (Exc e))
          ∧ ∀ b, r = inl b →
                 ∃ e rest, new = e :: rest ∧ raised_by b e ∧ Forall prep new)
    as [Hexc Hleft].
  { pose proof Hc as Hc'. apply compiled_new in Hc'
      as [[Hprep [-> | (b & e & rest & -> & Hne & -> & He)]]
         | [(a & ta & early & x & -> & _)
           | (a & ta & early & post & -> & _)]]; try by split.
    split.
    - intros x [= ->]. by destruct (Hne x).
    - intros b' [= <-]. by exists e, rest. }
  split; [done|]. split; [done|]. split.
  { intros Hall. destruct r as [b|answer]; [|by exists answer].
    destruct (Hleft b eq_refl) as (e & rest & -> & He & _).
    destruct (Hall e b (list_elem_of_here _ _) He) as [x ->].
    by destruct (Hexc x). }
  split; [|split; [done|]].
  - intros cmd x Hin.
    apply compiled_new in Hc
      as [[Hprep _]
         | [(a & ta & early & y & -> & Hprep & Ha & ->)
           | (a & ta & early & post & -> & Hprep & Ha & -> & Hpost & _)]];
      [by apply (prep_elem _ _ Hprep) in Hin | done |]. exfalso.
    apply elem_of_app in Hin as [Hin | Hin].
    { apply (proj1 (Forall_forall _ _) Hpost) in Hin
        as [[? [=]] | [[? [=]] | [? [=]]]]. }
    apply elem_of_cons in Hin as [[=] | Hin].
    apply elem_of_cons in Hin as [[=] | Hin].
    apply elem_of_app in Hin as [Hin | Hin].
    + by apply (print_elem _ _ (compile_banner_prints _ _ _ _)) in Hin.
    + by apply (prep_elem _ _ Hprep) in Hin.
  - apply compiled_new in Hc
      as [[Hprep Hr]
         | [(a & ta & early & x & -> & Hprep & Ha & ->)
           | (a & ta & early & post & -> & Hprep & Ha & -> & Hpost & _)]].
    + split.
      * intros ->. by destruct Hr as [? | (? & ? & ? & ? & _)].
      * intros [cmd Hin]. by apply (prep_elem _ _ Hprep) in Hin.
    + split; [done|]. intros [cmd Hin]. exfalso.
      apply elem_of_app in Hin as [Hin | Hin].
      { by apply (print_elem _ _ (compile_report_prints x)) in Hin. }
      apply elem_of_cons in Hin as [[=] | Hin].
      apply elem_of_app in Hin as [Hin | Hin].
      * by apply (print_elem _ _ (compile_banner_prints _ _ _ _)) in Hin.
      * by apply (prep_elem _ _ Hprep) in Hin.
    + split; [|done]. intros _. eexists.
      apply elem_of_app. right. apply elem_of_cons. right.
      apply elem_of_cons. by left.
Qed.

Lemma compile_to_exe_total_witness :
  (compile_to_exe (Sample.world Sample.build_fails) "proj/main.py" None []).1
  = inr false.
Proof.
  destruct (compile_to_exe_total (Sample.world Sample.build_fails)
              "proj/main.py" None [])
    as (r & new & Hrun & _ & _ & _ & Hfail & _).
  rewrite Hrun. simpl.
  rewrite app_nil_r in Hrun.
  assert (new = (compile_to_exe (Sample.world Sample.build_fails)
                   "proj/main.py" None []).2) as Hnew by (by rewrite Hrun).
  eapply Hfail. rewrite Hnew.
  apply (list_elem_of_lookup_2 _ 2). by vm_compute.
Defined.

(** The claim C10 as the specification words it does not hold: a manifest
    that names [unittest.__main__] makes the probe run the test runner,
    whose [SystemExit] passes [except ImportError] and [except Exception]
    and leaves [compile_to_exe]. *)
Lemma compile_to_exe_propagates_exit : ¬ spec_compile_to_exe_total.
Proof.
  intros H.
  destruct (H (Sample.world (Sample.with_manifest ["unittest.__main__"] None))
              "proj/main.py" None []) as (b & t' & Hrun).
  by vm_compute in Hrun.
Qed.

(** ** More on strings *)

Section String_more.

Implicit Types s p r sep : string.

Lemma app_assoc_s p r s : (p +:+ r) +:+ s = p +:+ (r +:+ s).
Proof. induction p as [|c p IH]; [done|]. rewrite !app_cons. by f_equal. Qed.

Lemma app_nil_r_s s : s +:+ "" = s.
Proof. induction s as [|c s IH]; [done|]. rewrite app_cons. by f_equal. Qed.

Lemma occurs_middle sep a s b : Str.occurs sep s → Str.occurs sep (a +:+ s +:+ b).
Proof.
  intros (p & r & ->). exists (a +:+ p), (r +:+ b).
  by rewrite !app_assoc_s.
Qed.

Lemma occurs_prefix sep s b : Str.occurs sep s → Str.occurs sep (s +:+ b).
Proof. intros H. by apply (occurs_middle sep "" s b). Qed.

Lemma before_prefix sep s : ∃ r, s = Str_spec.before sep s +:+ r.
Proof.
  destruct (before_cases sep s) as [[_ ->] | (r & Hr & _)].
  - exists "". by rewrite app_nil_r_s.
  - by exists (sep +:+ r).
Qed.

Lemma before_free sep s :
  sep ≠ "" → ¬ Str.occurs sep (Str_spec.before sep s).
Proof.
  intros Hsep. destruct (before_cases sep s) as [[Hno ->] | (r & Hr & Hmin)];
    [done|].
  intros (p1 & r1 & Hp). rewrite Hp, !app_assoc_s in Hr.
  apply Hmin in Hr. rewrite Hp, !app_length in Hr.
  destruct sep; [done|]. simpl in Hr. lia.
Qed.

Lemma lstrip_suffix s : ∃ w, s = w +:+ Str.lstrip s.
Proof.
  induction s as [|c s [w IH]]; simpl; [by exists ""|].
  destruct (Str.isspace c); [|by exists ""].
  exists (String c w). rewrite app_cons. by f_equal.
Qed.

Lemma rstrip_cons c s :
  Str.rstrip (String c s)
  = if bool_decide (Str.rstrip s = "")
    then (if Str.isspace c then "" else String c "")
    else String c (Str.rstrip s).
Proof. simpl. by destruct (Str.rstrip s). Qed.

Lemma rstrip_prefix s : ∃ w, s = Str.rstrip s +:+ w.
Proof.
  induction s as [|c s [w IH]]; [by exists ""|].
  rewrite rstrip_cons. case_bool_decide as He.
  - destruct (Str.isspace c); [by exists (String c s)|].
    exists s. done.
  - exists w. rewrite app_cons. by f_equal.
Qed.

Lemma rstrip_idem s : Str.rstrip (Str.rstrip s) = Str.rstrip s.
Proof.
  induction s as [|c s IH]; [done|].
  rewrite rstrip_cons. case_bool_decide as He.
  - destruct (Str.isspace c) eqn:Hc; [done|]. simpl. by rewrite Hc.
  - rewrite rstrip_cons, IH. by rewrite bool_decide_eq_false_2.
Qed.

Lemma lstrip_tight s : tight (Str.lstrip s).
Proof.
  induction s as [|c s IH]; simpl; [done|].
  by destruct (Str.isspace c) eqn:Hc.
Qed.

Lemma tight_lstrip s : tight s → Str.lstrip s = s.
Proof. destruct s as [|c s]; simpl; [done|]. by intros ->. Qed.

Lemma rstrip_tight s : tight s → tight (Str.rstrip s).
Proof.
  destruct s as [|c s]; [done|]. simpl. intros Hc.
  destruct (Str.rstrip s); simpl; [by rewrite Hc | done].
Qed.

Lemma strip_idem s : Str.strip (Str.strip s) = Str.strip s.
Proof.
  unfold Str.strip.
  rewrite (tight_lstrip (Str.rstrip (Str.lstrip s)))
    by apply rstrip_tight, lstrip_tight.
  apply rstrip_idem.
Qed.

Lemma strip_middle s : ∃ a b, s = a +:+ Str.strip s +:+ b.
Proof.
  destruct (lstrip_suffix s) as [a Ha].
  destruct (rstrip_prefix (Str.lstrip s)) as [b Hb].
  exists a, b. unfold Str.strip. by rewrite <- Hb.
Qed.

Lemma strip_free sep s : ¬ Str.occurs sep s → ¬ Str.occurs sep (Str.strip s).
Proof.
  intros Hno Hin. destruct (strip_middle s) as (a & b & Hs).
  apply Hno. rewrite Hs. by apply occurs_middle.
Qed.

Lemma before_keeps_free sep sep' s :
  ¬ Str.occurs sep s → ¬ Str.occurs sep (Str_spec.before sep' s).
Proof.
  intros Hno Hin. destruct (before_prefix sep' s) as [r Hr].
  apply Hno. rewrite Hr. by apply occurs_prefix.
Qed.

Lemma before_whole sep s : ¬ Str.occurs sep s → Str_spec.before sep s = s.
Proof.
  intros Hno. destruct (before_cases sep s) as [[_ ?] | (r & Hr & _)]; [done|].
  destruct Hno. by eexists _, _.
Qed.

Lemma lower_char_idem c : Str.lower_char (Str.lower_char c) = Str.lower_char c.
Proof. by destruct c as [[] [] [] [] [] [] [] []]. Qed.

Lemma lower_idem s : Str.lower (Str.lower s) = Str.lower s.
Proof.
  induction s as [|c s IH]; [done|]. simpl. by rewrite lower_char_idem, IH.
Qed.

Lemma lower_replace s :
  Str.lower (Str.replace_char "-" "_" s)
  = Str.replace_char "-" "_" (Str.lower s).
Proof.
  induction s as [|c s IH]; [done|]. simpl. rewrite IH. f_equal.
  by destruct c as [[] [] [] [] [] [] [] []].
Qed.

Lemma replace_idem s :
  Str.replace_char "-" "_" (Str.replace_char "-" "_" s)
  = Str.replace_char "-" "_" s.
Proof.
  induction s as [|c s IH]; [done|]. simpl. rewrite IH. f_equal.
  by repeat case_bool_decide.
Qed.

End String_more.

(** ** More on the manifest *)

Section Manifest_more.

Lemma occursb_spec sep s : Str_spec.occursb sep s = true ↔ Str.occurs sep s.
Proof.
  induction s as [|c s IH]; cbn [Str_spec.occursb].
  - rewrite orb_false_r, startswith_spec. split.
    + intros [r Hr]. by exists "", r.
    + intros (p & r & Hpr). symmetry in Hpr.
      apply app_eq_nil in Hpr as [-> Hpr]. exists r. by rewrite Hpr.
  - rewrite orb_true_iff, IH, startswith_spec. split.
    + intros [[r Hr] | (p & r & Hpr)].
      * by exists "", r.
      * exists (String c p), r. rewrite app_cons. by f_equal.
    + intros ([|c' p] & r & Hpr).
      * left. by exists r.
      * right. rewrite app_cons in Hpr. injection Hpr as -> Hpr.
        by exists p, r.
Qed.

Lemma occursb_false sep s : Str_spec.occursb sep s = false → ¬ Str.occurs sep s.
Proof. intros Hf Ho. apply occursb_spec in Ho. congruence. Qed.

Lemma line_packages_clean line : Forall clean_name (line_packages line).
Proof.
  unfold line_packages. destruct (decide (skipped line)); [done|].
  destruct (decide _) as [He | He]; [done|].
  apply Forall_singleton. split; [done|]. split; [apply strip_idem|].
  split_and!; apply strip_free.
  - apply before_keeps_free, before_keeps_free, before_free. done.
  - apply before_keeps_free, before_free. done.
  - apply before_free. done.
Qed.

Lemma line_packages_plain line :
  operator_free line →
  line_packages line = if decide (skipped line) then [] else [Str.strip line].
Proof.
  intros (H1 & H2 & H3). unfold line_packages.
  destruct (decide (skipped line)) as [Hs | Hs]; [done|].
  rewrite (before_whole ">=") by by apply strip_free.
  rewrite (before_whole "==") by by apply strip_free.
  rewrite (before_whole "<=") by by apply strip_free.
  rewrite strip_idem. rewrite decide_False; [done|].
  intros He. apply Hs. by left.
Qed.

End Manifest_more.

(** X1.  Whatever happens while the manifest is read, every name that
    [parse_requirements_file] returns is not empty, has no space at either
    end and holds none of ['>='], ['=='], ['<=']. *)
Theorem parse_requirements_file_clean env path t :
  ∃ names,
    (parse_requirements_file env path t).1 = inr names
    ∧ Forall clean_name names.
Proof.
  rewrite parse_requirements_file_run.
  assert (∀ lines, Forall clean_name (flat_map line_packages lines)) as Hall.
  { intros lines. apply Forall_forall. intros n Hn.
    apply list_elem_of_In, in_flat_map in Hn as (line & _ & Hn).
    apply list_elem_of_In in Hn.
    by apply (proj1 (Forall_forall _ _) (line_packages_clean line)). }
  destruct (os_path_exists env t path); [|by exists []].
  destruct (open_lines env t path) as [e | [lines [e|]]];
    [by exists [] | |]; eexists; split; done.
Qed.

(** X2.  The three operators are the only version specifiers that are cut
    off: on a manifest read to its end in which no line holds ['>='],
    ['=='] or ['<='], the result is the lines that are not passed over,
    trimmed and otherwise unchanged, so [~=], [>], [<], [!=], extras and
    trailing comments stay in the names. *)
Theorem parse_requirements_file_plain_lines env path t lines :
  os_path_exists env t path = true →
  open_lines env t path = inr (lines, None) →
  Forall operator_free lines →
  (parse_requirements_file env path t).1
  = inr (Str.strip <$> filter (λ line, ¬ skipped line) lines).
Proof.
  intros Hex Hopen Hfree. rewrite parse_requirements_file_run, Hex, Hopen.
  simpl. f_equal. clear Hex Hopen.
  induction Hfree as [|line lines Hline _ IH]; [done|].
  simpl. rewrite IH, (line_packages_plain line Hline), filter_cons.
  by destruct (decide (skipped line)); destruct (decide (¬ skipped line)).
Qed.

Lemma parse_requirements_file_plain_lines_witness :
  (parse_requirements_file
     (Sample.world
        (Sample.with_manifest
           ["pkg~=1.0"; "  other>2 # pinned"; "# note"; "extra[all]!=3"] None))
     "proj/requirements.txt" []).1
  = inr ["pkg~=1.0"; "other>2 # pinned"; "extra[all]!=3"].
Proof.
  assert (Forall operator_free
            ["pkg~=1.0"; "  other>2 # pinned"; "# note"; "extra[all]!=3"])
    as Hfree.
  { unfold operator_free.
    repeat first [ apply Forall_nil
                 | apply Forall_cons; split
                 | apply occursb_false; reflexivity
                 | split ]. }
  rewrite (parse_requirements_file_plain_lines
             (Sample.world
                (Sample.with_manifest
                   ["pkg~=1.0"; "  other>2 # pinned"; "# note";
                    "extra[all]!=3"] None))
             "proj/requirements.txt" [] _ eq_refl eq_refl Hfree).
  by vm_compute.
Defined.

(** ** More on probing and installing *)

Section Probe_more.

Context (env : Env).

(** What [check_package_installed] does, whatever the import gives. *)
Lemma check_package_installed_run package t :
  check_package_installed env package t
  = (match import_module env t (import_name_of package) with
     | None => inr true
     | Some (Exc (ImportError _)) => inr false
     | Some b => inl b
     end,
     EvImport (import_name_of package)
       (import_module env t (import_name_of package)) :: t).
Proof.
  unfold check_package_installed, try_except, bind, import_, import_name_of.
  cbv zeta. by destruct (import_module env t _) as [[[]| |]|].
Qed.

Lemma import_name_of_lower package :
  import_name_of (Str.lower package) = import_name_of package.
Proof. unfold import_name_of. by rewrite lower_idem. Qed.

Lemma import_name_of_replace package :
  import_name_of (Str.replace_char "-" "_" package) = import_name_of package.
Proof. unfold import_name_of. by rewrite lower_replace, replace_idem. Qed.

Lemma probes_app new2 new1 : probes (new2 ++ new1) = probes new2 ++ probes new1.
Proof. apply omap_app. Qed.

(** The loop of [missing_of], from any list of packages found so far. *)
Lemma missing_loop l acc t :
  let run :=
    for_each l
      (λ package missing_packages,
         let* installed := check_package_installed env package in
         ret (if installed then missing_packages
              else missing_packages ++ [package]))
      acc t in
  ∃ new,
    run.2 = new ++ t
    ∧ Forall sounding new
    ∧ match run.1 with
      | inr missing =>
          ∃ found,
            missing = acc ++ found
            ∧ sublist found l
            ∧ reverse (probes new) = import_name_of <$> l
            ∧ Forall (λ p, ∃ msg, EvImport (import_name_of p)
                                    (Some (Exc (ImportError msg))) ∈ new) found
      | inl b =>
          ∃ p rest,
            (∀ msg, b ≠ Exc (ImportError msg))
            ∧ p ∈ l
            ∧ new = EvImport (import_name_of p) (Some b) :: rest
      end.
Proof.
  revert acc t. induction l as [|package l IH]; intros acc t; cbn zeta.
  - exists []. simpl. split; [done|]. split; [done|].
    exists []. by rewrite app_nil_r.
  - cbn [for_each]. rewrite bind_run, bind_run, check_package_installed_run.
    set (name := import_name_of package).
    destruct (import_module env t name) as [b|] eqn:Hr.
    + destruct b as [[msg | | | |] | |];
        try (eexists [_]; simpl; split; [done|]; split;
             [by apply Forall_singleton|];
             exists package, []; split_and!;
             [done | apply list_elem_of_here | done]).
      cbv beta iota. rewrite ret_run. cbv beta iota.
      destruct (IH (acc ++ [package])
                  (EvImport name (Some (Exc (ImportError msg))) :: t))
        as (new & Hnew & Hs & Hres).
      cbn zeta in Hnew, Hres.
      destruct (for_each l _ (acc ++ [package]) _) as [[b | missing] t2];
        simpl in Hnew, Hres |- *; subst t2;
        exists (new ++ [EvImport name (Some (Exc (ImportError msg)))]);
        rewrite <- app_assoc; (split; [done|]); (split;
          [apply Forall_app; split; [done | by apply Forall_singleton]|]).
      * destruct Hres as (p & rest & Hne & Hp & ->).
        eexists p, _. split_and!; [done | |].
        -- by apply list_elem_of_further.
        -- by rewrite <- app_comm_cons.
      * destruct Hres as (found & -> & Hsub & Hprobes & Hfailed).
        exists (package :: found). split_and!.
        -- by rewrite <- app_assoc.
        -- by apply sublist_skip.
        -- rewrite probes_app, reverse_app, Hprobes. done.
        -- apply Forall_cons. split.
           ++ exists msg. apply elem_of_app. right. apply list_elem_of_here.
           ++ eapply Forall_impl; [exact Hfailed|]. intros p [m Hm].
              exists m. apply elem_of_app. by left.
    + cbv beta iota. rewrite ret_run. cbv beta iota.
      destruct (IH acc (EvImport name None :: t)) as (new & Hnew & Hs & Hres).
      cbn zeta in Hnew, Hres.
      destruct (for_each l _ acc _) as [[b | missing] t2];
        simpl in Hnew, Hres |- *; subst t2;
        exists (new ++ [EvImport name None]);
        rewrite <- app_assoc; (split; [done|]); (split;
          [apply Forall_app; split; [done | by apply Forall_singleton]|]).
      * destruct Hres as (p & rest & Hne & Hp & ->).
        eexists p, _. split_and!; [done | |].
        -- by apply list_elem_of_further.
        -- by rewrite <- app_comm_cons.
      * destruct Hres as (found & -> & Hsub & Hprobes & Hfailed).
        exists found. split_and!; [done | | |].
        -- by apply sublist_cons.
        -- rewrite probes_app, reverse_app, Hprobes. done.
        -- eapply Forall_impl; [exact Hfailed|]. intros p [m Hm].
           exists m. apply elem_of_app. by left.
Qed.

End Probe_more.

(** X3.  [check_package_installed] probes once, for the name in lower case
    with hyphens turned into underscores, so a package, its lower-case form
    and its form with underscores get the same answer.  The answer is [True]
    when the import succeeds and [False] when it raises [ImportError]; any
    other exception of the import goes on to the caller. *)
Theorem check_package_installed_normalises env package t :
  check_package_installed env (Str.lower package) t
  = check_package_installed env package t
  ∧ check_package_installed env (Str.replace_char "-" "_" package) t
    = check_package_installed env package t
  ∧ ∃ r,
      (check_package_installed env package t).2
      = EvImport (Str.replace_char "-" "_" (Str.lower package)) r :: t
      ∧ (check_package_installed env package t).1
        = match r with
          | None => inr true
          | Some (Exc (ImportError _)) => inr false
          | Some b => inl b
          end.
Proof.
  rewrite !check_package_installed_run, import_name_of_lower,
    import_name_of_replace.
  split_and!; [done | done |]. by eexists.
Qed.

(** X4.  [missing_of] probes every package of the list once, in order,
    and does nothing else but that.  When it returns, the missing packages
    are a sublist of the list, in its order, and each of them has a probe
    that raised [ImportError].  When a probe raises anything else, that
    exception goes on to the caller and the probe is the last thing
    done. *)
Theorem missing_of_probes env l t :
  ∃ new,
    (missing_of env l t).2 = new ++ t
    ∧ Forall sounding new
    ∧ match (missing_of env l t).1 with
      | inr missing =>
          sublist missing l
          ∧ reverse (probes new) = import_name_of <$> l
          ∧ Forall (λ p, ∃ msg, EvImport (import_name_of p)
                                  (Some (Exc (ImportError msg))) ∈ new) missing
      | inl b =>
          ∃ p rest,
            (∀ msg, b ≠ Exc (ImportError msg))
            ∧ p ∈ l
            ∧ new = EvImport (import_name_of p) (Some b) :: rest
      end.
Proof.
  destruct (missing_loop env l [] t) as (new & Hnew & Hs & Hres).
  cbn zeta in Hnew, Hres. exists new. unfold missing_of.
  split; [done|]. split; [done|].
  destruct (for_each l _ [] t).1 as [b | missing]; [done|].
  by destruct Hres as (found & -> & ? & ? & ?).
Qed.

(** X5.  [install_package] never raises, whatever [pip] does: it runs
    [sys.executable -m pip install <name>] once, between the line that
    announces the install and the line that reports it, and answers [True]
    exactly when that call returns normally.  A [CalledProcessError] is
    reported as a failed install and any other exception as an error, both
    with the answer [False]. *)
Theorem install_package_once env package t :
  let args := [sys_executable env; "-m"; "pip"; "install"; package] in
  let t1 := EvPrint ("📦 Installing " +:+ package +:+ "...") :: t in
  ∃ r report,
    r = subprocess_check_call env t1 args
    ∧ install_package env package t
      = (inr (succeeded r), EvPrint report :: EvCheckCall args r :: t1)
    ∧ report
      = match r with
        | None => "✅ " +:+ package +:+ " installed successfully!"
        | Some (CalledProcessError msg _) =>
            "❌ Failed to install " +:+ package +:+ ": " +:+ msg
        | Some e =>
            "❌ Error installing " +:+ package +:+ ": " +:+ exn_str e
        end.
Proof.
  intros args t1. rewrite install_package_run. fold args t1.
  eexists _, _. split; [done|]. split; [done|].
  by destruct (subprocess_check_call env t1 args) as [[]|].
Qed.

Ltac quiet_events :=
  repeat (apply Forall_cons; split; [split; [by intros [] | done]|]);
  by apply Forall_nil.

(** X6.  [ensure_compiler_dependencies] probes for [pyinstaller] and for
    nothing else, never asks and never packages.  When the probe succeeds
    it returns [True] and installs nothing.  When the probe raises
    [ImportError] it installs [pyinstaller], once, and returns what the
    install gave, with the hint to install by hand when it failed.  Any
    other exception of the probe goes on to the caller. *)
Theorem ensure_compiler_dependencies_cases env t :
  ∃ new,
    (ensure_compiler_dependencies env t).2 = new ++ t
    ∧ probes new = ["pyinstaller"]
    ∧ Forall (λ e, ¬ is_input e ∧ prep e) new
    ∧ match import_module env t "pyinstaller" with
      | None =>
          ensure_compiler_dependencies env t
          = (inr true, EvImport "pyinstaller" None :: t)
      | Some (Exc (ImportError _)) =>
          ∃ ok,
            (ensure_compiler_dependencies env t).1 = inr ok
            ∧ installs new = [("pyinstaller", ok)]
            ∧ (ok = false → EvPrint "   pip install pyinstaller" ∈ new)
      | Some b =>
          (ensure_compiler_dependencies env t).1 = inl b
          ∧ installs new = []
      end.
Proof.
  unfold ensure_compiler_dependencies, missing_of, REQUIRED_PACKAGES.
  cbn [for_each]. rewrite !bind_run, check_package_installed_run.
  change (import_name_of "pyinstaller") with "pyinstaller".
  destruct (import_module env t "pyinstaller") as [b|] eqn:Hprobe.
  - destruct b as [[msg | | | |] | |];
      try (eexists [_]; simpl; split_and!; try done; quiet_events).
    cbv beta iota. rewrite ret_run. cbv beta iota.
    rewrite ret_run. cbv beta iota.
    rewrite bool_decide_eq_false_2 by done.
    repeat run_step. cbn [app install_required Str.join].
    rewrite bind_run, install_package_run. cbv zeta.
    match goal with |- context [subprocess_check_call env ?t1 ?args] =>
      destruct (subprocess_check_call env t1 args) as [x|] end;
      cbn [succeeded]; repeat run_step.
    + eexists [_; _; _; _; _; _; _; _; _; _; _].
      simpl. split_and!; [done | done | quiet_events |].
      exists false. split_and!; [done | done |]. intros _.
      apply list_elem_of_here.
    + eexists [_; _; _; _; _; _; _; _; _].
      simpl. split_and!; [done | done | quiet_events |].
      by exists true.
  - cbv beta iota. rewrite !ret_run. cbv beta iota.
    eexists [_]. simpl. split_and!; try done. quiet_events.
Qed.

(** ** More on the project dependencies *)

Section Project_more.

Context (env : Env).

Lemma find_requirements_file_run path t :
  find_requirements_file env path t
  = (inr (if os_path_exists env t
               (os_path_join env (os_path_dirname env path) "requirements.txt")
          then Some (os_path_join env (os_path_dirname env path)
                       "requirements.txt")
          else None), t).
Proof. reflexivity. Qed.

Lemma parse_requirements_file_prints path t :
  ∃ names line,
    parse_requirements_file env path t = (inr names, EvPrint line :: t).
Proof.
  rewrite parse_requirements_file_run.
  destruct (os_path_exists env t path); [|by eexists _, _].
  destruct (open_lines env t path) as [e | [lines [e|]]]; by eexists _, _.
Qed.

Lemma sounding_installs new : Forall sounding new → installs new = [].
Proof.
  intros H. unfold installs.
  assert (omap install_of new = []) as ->; [|done].
  induction H as [|e new He _ IH]; [done|].
  cbn [omap list_omap]. rewrite IH. by destruct e.
Qed.

Lemma elem_of_installs new p ok :
  (p, ok) ∈ installs new ↔ ∃ e, e ∈ new ∧ install_of e = Some (p, ok).
Proof.
  unfold installs. rewrite elem_of_reverse, list_elem_of_omap. done.
Qed.

(** What [missing_project_packages] leaves in the trace. *)
Lemma missing_project_packages_probes path t :
  ∃ new,
    (missing_project_packages env path t).2 = new ++ t
    ∧ Forall sounding new
    ∧ match (missing_project_packages env path t).1 with
      | inr (Some missing) =>
          missing ≠ []
          ∧ Forall (λ p, ∃ msg, EvImport (import_name_of p)
                                  (Some (Exc (ImportError msg))) ∈ new) missing
      | inr None => True
      | inl b => ∃ name, EvImport name (Some b) ∈ new
      end.
Proof.
  unfold missing_project_packages.
  rewrite bind_run, find_requirements_file_run. cbv beta iota.
  destruct (Str.present _) as [req|].
  2:{ eexists [_]. simpl. split_and!; [done | by repeat constructor | done]. }
  rewrite bind_run.
  destruct (parse_requirements_file_prints req t) as (names & l1 & ->).
  cbv beta iota.
  case_bool_decide.
  { eexists [_]. simpl. split_and!; [done | by repeat constructor | done]. }
  case_bool_decide.
  { eexists [_; _]. simpl. split_and!; [done | by repeat constructor | done]. }
  rewrite bind_run, find_requirements_file_run. cbv beta iota.
  destruct (Str.present _) as [req'|].
  2:{ eexists [_; _]. simpl.
      split_and!; [done | by repeat constructor | done]. }
  rewrite bind_run.
  destruct (parse_requirements_file_prints req' (EvPrint l1 :: t))
    as (names' & l2 & ->).
  cbv beta iota.
  case_bool_decide.
  { eexists [_; _]. simpl.
    split_and!; [done | by repeat constructor | done]. }
  rewrite bind_run. unfold missing_of.
  destruct (missing_loop env names' [] (EvPrint l2 :: EvPrint l1 :: t))
    as (new & Hnew & Hs & Hres).
  cbn zeta in Hnew, Hres.
  destruct (for_each names' _ [] _) as [[b | missing] t5];
    simpl in Hnew, Hres; subst t5.
  - exists (new ++ [EvPrint l2; EvPrint l1]). simpl.
    rewrite <- app_assoc. split; [done|]. split.
    { apply Forall_app. split; [done | by repeat constructor]. }
    destruct Hres as (p & rest & _ & _ & ->).
    exists (import_name_of p). apply list_elem_of_here.
  - cbv beta iota. destruct Hres as (found & -> & _ & _ & Hfailed).
    case_bool_decide.
    + eexists (_ :: new ++ [EvPrint l2; EvPrint l1]). simpl.
      rewrite <- app_assoc. split; [done|]. split; [|done].
      apply Forall_cons. split; [done|].
      apply Forall_app. split; [done | by repeat constructor].
    + exists (new ++ [EvPrint l2; EvPrint l1]). simpl.
      rewrite <- app_assoc. split; [done|]. split.
      { apply Forall_app. split; [done | by repeat constructor]. }
      split; [done|].
      eapply Forall_impl; [exact Hfailed|]. intros p [m Hm].
      exists m. apply elem_of_app. by left.
Qed.

Lemma filter_only_tool names :
  Forall (λ pkg, Str.lower pkg = "pyinstaller") names →
  filter (λ pkg, Str.lower pkg ≠ "pyinstaller") names = [].
Proof.
  induction 1 as [|pkg names Hpkg _ IH]; [done|].
  rewrite filter_cons, decide_False by (by intros ?). done.
Qed.

End Project_more.


(** X7.  A manifest that declares nothing, or nothing but the packaging
    tool in any case, makes [ensure_project_dependencies] return [True]
    after the manifest is read once: nothing is probed, asked or
    installed.  The same holds, with one printed line, when there is no
    manifest. *)
Theorem ensure_project_dependencies_nothing_declared env path t :
  let req := os_path_join env (os_path_dirname env path) "requirements.txt" in
  (os_path_exists env t req = false →
   ensure_project_dependencies env path t
   = (inr true,
      EvPrint "📋 No requirements.txt found - skipping project dependencies"
      :: t))
  ∧ (∀ names t1,
       os_path_exists env t req = true →
       req ≠ "" →
       parse_requirements_file env req t = (inr names, t1) →
       Forall (λ pkg, Str.lower pkg = "pyinstaller") names →
       ensure_project_dependencies env path t
       = (inr true,
          if bool_decide (names = []) then t1
          else EvPrint "✅ Only PyInstaller in requirements - already handled"
               :: t1)
       ∧ ∃ line, t1 = EvPrint line :: t).
Proof.
  intros req. unfold ensure_project_dependencies.
  rewrite bind_run, find_requirements_file_run. fold req. cbv beta iota.
  split.
  - by intros ->.
  - intros names t1 -> Hreq Hparse Hall.
    assert (Str.present (Some req) = Some req) as ->.
    { unfold Str.present, Str.truthy. by rewrite bool_decide_eq_false_2. }
    rewrite bind_run, Hparse. cbv beta iota.
    split.
    + case_bool_decide; [done|].
      by rewrite (filter_only_tool names Hall), bool_decide_eq_true_2.
    + destruct (parse_requirements_file_prints env req t) as (n & line & Hp).
      rewrite Hp in Hparse. injection Hparse as _ <-. by exists line.
Qed.

Lemma ensure_project_dependencies_nothing_declared_witness :
  ensure_project_dependencies
    (Sample.world
       (Sample.with_manifest ["PyInstaller>=6.0"; "pyinstaller"] None))
    "proj/main.py" []
  = (inr true,
     [EvPrint "✅ Only PyInstaller in requirements - already handled";
      EvPrint "📋 Found 2 packages in requirements.txt"]).
Proof.
  pose (env := Sample.world
                 (Sample.with_manifest ["PyInstaller>=6.0"; "pyinstaller"]
                    None)).
  destruct (ensure_project_dependencies_nothing_declared env "proj/main.py" [])
    as [_ Honly].
  destruct (Honly ["PyInstaller"; "pyinstaller"]
              [EvPrint "📋 Found 2 packages in requirements.txt"])
    as [Hrun _].
  - reflexivity.
  - discriminate.
  - by vm_compute.
  - by repeat constructor.
  - exact Hrun.
Defined.

(** X8.  [ensure_project_dependencies] installs only packages that it
    has found missing: every install follows a probe of that package that
    raised [ImportError].  When no probe of the run has raised, it returns
    [True] and has done nothing but print and probe: no question, no
    install. *)
Theorem ensure_project_dependencies_installs_missing_only env path t :
  ∃ new,
    (ensure_project_dependencies env path t).2 = new ++ t
    ∧ (∀ p ok, (p, ok) ∈ installs new →
               ∃ msg, EvImport (import_name_of p) (Some (Exc (ImportError msg)))
                      ∈ new)
    ∧ ((∀ name x, EvImport name (Some x) ∉ new) →
       (ensure_project_dependencies env path t).1 = inr true
       ∧ Forall sounding new).
Proof.
  rewrite ensure_project_dependencies_phases.
  destruct (missing_project_packages_probes env path t)
    as (new1 & Hnew1 & Hs1 & Hres).
  destruct (missing_project_packages env path t) as [[b | [missing|]] t1];
    simpl in Hnew1, Hres; subst t1.
  - exists new1. split; [done|]. split.
    + intros p ok Hin. rewrite (sounding_installs _ Hs1) in Hin.
      by apply elem_of_nil in Hin.
    + intros Hnone. destruct Hres as (name & Hin).
      by destruct (Hnone _ _ Hin).
  - destruct Hres as [Hne Hfailed].
    set (banner := announced missing []).
    assert (∀ t0, announced missing t0 = banner ++ t0) as Hbanner by done.
    assert (Forall sounding banner) as Hsb by (by repeat constructor).
    (* whatever follows the announcement, as long as it installs missing
       packages only *)
    assert (∀ (pre : list event) (r : BaseException + bool),
              (∀ p ok, (p, ok) ∈ installs pre → p ∈ missing) →
              ∃ new,
                (r, pre ++ banner ++ new1 ++ t).2 = new ++ t
                ∧ (∀ p ok, (p, ok) ∈ installs new →
                           ∃ msg, EvImport (import_name_of p)
                                    (Some (Exc (ImportError msg))) ∈ new)
                ∧ ((∀ name x, EvImport name (Some x) ∉ new) →
                   (r, pre ++ banner ++ new1 ++ t).1 = inr true
                   ∧ Forall sounding new)) as Hafter.
    { intros pre r Hpre. exists (pre ++ banner ++ new1).
      split; [by rewrite <- !app_assoc|]. split.
      - intros p ok Hin. rewrite !installs_app in Hin.
        rewrite (sounding_installs _ Hs1), (sounding_installs _ Hsb) in Hin.
        simpl in Hin. apply Hpre in Hin.
        destruct (proj1 (Forall_forall _ _) Hfailed p Hin) as [msg Hm].
        exists msg. rewrite !elem_of_app. auto.
      - intros Hnone. exfalso. destruct missing as [|p0 missing]; [done|].
        apply Forall_cons in Hfailed as [[msg Hm] _].
        destruct (Hnone (import_name_of p0) (Exc (ImportError msg))).
        rewrite !elem_of_app. auto. }
    assert (∀ t3, ∃ new2 report,
              install_missing env missing t3 = (inr true, report ++ new2 ++ t3)
              ∧ ∀ p ok, (p, ok) ∈ installs (report ++ new2) → p ∈ missing)
      as Hinstall.
    { intros t3.
      destruct (install_missing_run env missing t3)
        as (new2 & report & Hrun & Htried & _ & Hall & Hpart).
      exists new2, report. split; [done|]. intros p ok Hin.
      rewrite installs_app in Hin. apply elem_of_app in Hin as [Hin | Hin].
      - rewrite <- Htried. apply list_elem_of_fmap. by exists (p, ok).
      - exfalso.
        destruct (decide (successes new2 = length missing)) as [He | He].
        + rewrite (Hall He) in Hin. by apply elem_of_nil in Hin.
        + destruct (Hpart He) as [_ ->]. by apply elem_of_nil in Hin. }
    assert (∀ e (pre : list event),
              install_of e = None →
              (∀ p ok, (p, ok) ∈ installs pre → p ∈ missing) →
              ∀ p ok, (p, ok) ∈ installs (pre ++ [e]) → p ∈ missing)
      as Hsnoc.
    { intros e pre He Hpre p ok Hin. rewrite installs_app in Hin.
      apply elem_of_app in Hin as [Hin | Hin]; [|by eapply Hpre].
      unfold installs in Hin. simpl in Hin. rewrite He in Hin.
      by apply elem_of_nil in Hin. }
    assert (∀ p ok, (p, ok) ∈ installs [] → p ∈ missing) as Hnil.
    { intros p ok Hin. by apply elem_of_nil in Hin. }
    rewrite bind_run, confirm_install_run. cbv zeta.
    rewrite !Hbanner.
    case_bool_decide.
    + destruct (input env (banner ++ new1 ++ t) _) as [[e| |code] | s]
        eqn:Hanswer.
      * destruct e;
          apply (Hafter [_]); by apply (Hsnoc _ []).
      * apply (Hafter [_]). by apply (Hsnoc _ []).
      * apply (Hafter [_]). by apply (Hsnoc _ []).
      * destruct (accepted s).
        -- destruct (Hinstall (EvInput "Install project dependencies? (y/n): "
                                 (inr s) :: banner ++ new1 ++ t))
             as (new2 & report & Hrun & Hin2).
           rewrite Hrun.
           destruct (Hafter ((report ++ new2) ++ [EvInput "Install project dependencies? (y/n): " (inr s)]) (inr true))
             as (new & Hnew & Ha & Hb); [by apply Hsnoc|].
           exists new. rewrite <- Hnew. simpl. by rewrite <- !app_assoc.
        -- apply (Hafter [_; _]).
           apply (Hsnoc _ [_]); [done|]. by apply (Hsnoc _ []).
    + destruct (Hinstall (banner ++ new1 ++ t)) as (new2 & report & Hrun & Hin2).
      rewrite Hrun.
      destruct (Hafter (report ++ new2) (inr true)) as (new & Hnew & Ha & Hb);
        [done|].
      exists new. rewrite <- Hnew. simpl. by rewrite <- !app_assoc.
  - exists new1. split; [done|]. split; [|done].
    intros p ok Hin. rewrite (sounding_installs _ Hs1) in Hin.
      by apply elem_of_nil in Hin.
Qed.

Lemma ensure_project_dependencies_installs_missing_only_witness :
  ∃ msg new,
    (ensure_project_dependencies (Sample.world Sample.project)
       "proj/main.py" []).2 = new ++ []
    ∧ ("click", true) ∈ installs new
    ∧ EvImport "click" (Some (Exc (ImportError msg))) ∈ new.
Proof.
  destruct (ensure_project_dependencies_installs_missing_only
              (Sample.world Sample.project) "proj/main.py" [])
    as (new & Hnew & Hinstalls & _).
  assert (("click", true) ∈ installs new) as Hin.
  { rewrite app_nil_r in Hnew. rewrite <- Hnew.
    apply (list_elem_of_lookup_2 _ 0). by vm_compute. }
  destruct (Hinstalls "click" true Hin) as [msg Hm].
  by exists msg, new.
Defined.

(** ** More on the analysis *)

Section Uniform.

Lemma uniform_ret {A} (a : A) : uniform (ret a).
Proof. intros ta tb. by exists (inr a), []. Qed.

Lemma uniform_print line : uniform (print line).
Proof. intros ta tb. by exists (inr ()), [EvPrint line]. Qed.

Lemma uniform_bind {A B} (m : M A) (k : A → M B) :
  uniform m → (∀ a, uniform (k a)) → uniform (bind m k).
Proof.
  intros Hm Hk ta tb. destruct (Hm ta tb) as (r & new & Ha & Hb).
  unfold bind. rewrite Ha, Hb. destruct r as [e|a].
  - by exists (inl e), new.
  - destruct (Hk a (new ++ ta) (new ++ tb)) as (r' & new' & Ha' & Hb').
    exists r', (new' ++ new). by rewrite Ha', Hb', <- !app_assoc.
Qed.

Lemma uniform_try_except {A} (body : M A) handler :
  uniform body →
  (∀ e h, handler e = Some h → uniform h) →
  uniform (try_except body handler).
Proof.
  intros Hm Hh ta tb. destruct (Hm ta tb) as (r & new & Ha & Hb).
  unfold try_except. rewrite Ha, Hb. destruct r as [e|a].
  - destruct (handler e) as [h|] eqn:He.
    + destruct (Hh e h He (new ++ ta) (new ++ tb)) as (r' & new' & Ha' & Hb').
      exists r', (new' ++ new). by rewrite Ha', Hb', <- !app_assoc.
    + by exists (inl e), new.
  - by exists (inr a), new.
Qed.

Lemma uniform_for_each {A S} (l : list A) (body : A → S → M S) (s : S) :
  (∀ x s, uniform (body x s)) → uniform (for_each l body s).
Proof.
  intros Hb. revert s. induction l as [|x l IH]; intros s; simpl.
  - apply uniform_ret.
  - apply uniform_bind; [apply Hb | apply IH].
Qed.

Context (env : Env).
Hypothesis steady : steady_files env.

Lemma uniform_read_file p : uniform (read_file env p).
Proof.
  intros ta tb. unfold read_file.
  rewrite (proj1 (steady ta tb p)).
  destruct (open_read env tb p) as [e|s]; by eexists _, [].
Qed.

Lemma uniform_listdir p : uniform (listdir env p).
Proof.
  intros ta tb. unfold listdir.
  rewrite (proj2 (steady ta tb p)).
  destruct (os_listdir env tb p) as [e|s]; by eexists _, [].
Qed.

Lemma uniform_parse_source s : uniform (parse_source env s).
Proof.
  intros ta tb. unfold parse_source.
  destruct (ast_parse env s) as [e|n]; by eexists _, [].
Qed.

Lemma uniform_extract_imports p : uniform (extract_imports env p).
Proof.
  unfold extract_imports. apply uniform_try_except.
  - apply uniform_bind; [apply uniform_read_file|]. intros content.
    apply uniform_bind; [apply uniform_parse_source|]. intros tree.
    apply uniform_ret.
  - intros [e| |c] h [= <-]. apply uniform_bind; [apply uniform_print|].
    intros _. apply uniform_ret.
Qed.

Lemma uniform_analyze_dependencies p : uniform (analyze_dependencies env p).
Proof.
  unfold analyze_dependencies.
  apply uniform_bind; [apply uniform_extract_imports|]. intros entry.
  apply uniform_bind.
  { unfold find_local_modules. apply uniform_bind; [apply uniform_listdir|].
    intros files. apply uniform_ret. }
  intros modules. apply uniform_bind; [|intros all; apply uniform_ret].
  apply uniform_for_each. intros m acc.
  apply uniform_bind; [apply uniform_extract_imports|]. intros l.
  apply uniform_ret.
Qed.

End Uniform.

(** X9.  When the files and their sources stay as they are,
    [analyze_dependencies] gives the same analysis (or raises the same
    error) and prints the same warnings, and nothing else, whenever it is
    called: so it does for the call of [_ask_for_compilation] and for the
    later one of [compile_to_exe]. *)
Theorem analyze_dependencies_steady env path ta tb :
  steady_files env →
  ∃ r new,
    analyze_dependencies env path ta = (r, new ++ ta)
    ∧ analyze_dependencies env path tb = (r, new ++ tb)
    ∧ Forall (λ e, is_print e = true) new.
Proof.
  intros Hsteady.
  destruct (uniform_analyze_dependencies env Hsteady path ta tb)
    as (r & new & Ha & Hb).
  exists r, new. split; [done|]. split; [done|].
  destruct (analyze_dependencies_emits env (λ e, is_print e = true)
              (λ _, eq_refl) path ta) as [_ (new' & Hnew & Hprints)].
  rewrite Ha in Hnew. simpl in Hnew. by apply app_inv_tail in Hnew as ->.
Qed.

Lemma analyze_dependencies_steady_witness :
  ∃ r new,
    analyze_dependencies (Sample.world Sample.project) "proj/main.py" []
    = (r, new ++ [])
    ∧ analyze_dependencies (Sample.world Sample.project) "proj/main.py"
        [EvPrint "🔍 Analyzing dependencies..."]
      = (r, new ++ [EvPrint "🔍 Analyzing dependencies..."])
    ∧ Forall (λ e, is_print e = true) new.
Proof.
  apply analyze_dependencies_steady. by intros t1 t2 p.
Defined.

(** X10.  When joining the directory and taking the base name gives a
    file name back, the [local_module_names] of an analysis are the names
    of the listing that end in [.py], are not the name of the entry and do
    not start with [compiler], in the order of the listing, and
    [local_modules] are these names joined to the directory of the entry.
    The entry is never its own local module. *)
Theorem analyze_dependencies_local_names env path t a t' files :
  analyze_dependencies env path t = (inr a, t') →
  os_listdir env (extract_imports env path t).2 (os_path_dirname env path)
  = inr files →
  (∀ f, f ∈ files →
        os_path_basename env (os_path_join env (os_path_dirname env path) f)
        = f) →
  local_module_names a = filter (eligible (os_path_basename env path)) files
  ∧ local_modules a
    = os_path_join env (os_path_dirname env path) <$> local_module_names a
  ∧ os_path_basename env path ∉ local_module_names a.
Proof.
  intros Hrun Hfiles Hback.
  assert (local_modules a
          = os_path_join env (os_path_dirname env path)
              <$> filter (eligible (os_path_basename env path)) files
          ∧ local_module_names a
            = os_path_basename env <$> local_modules a) as [Hm Hn].
  { revert Hrun. unfold analyze_dependencies. rewrite bind_run.
    destruct (extract_imports env path t) as [[e|entry] t1]; [done|].
    simpl in Hfiles.
    rewrite bind_run, find_local_modules_run, Hfiles, bind_run.
    destruct (for_each _ _ _ t1) as [[e|all] t3]; [done|].
    by intros [= <- _]. }
  assert (local_module_names a
          = filter (eligible (os_path_basename env path)) files) as Hnames.
  { rewrite Hn, Hm, <- list_fmap_compose.
    rewrite <- (list_fmap_id (filter _ files)) at 2.
    apply list_fmap_ext. intros i f Hf. simpl.
    apply Hback. apply list_elem_of_lookup_2 in Hf.
    by apply list_elem_of_filter in Hf as [_ Hf]. }
  split; [done|]. split; [by rewrite Hnames|].
  rewrite Hnames. intros Hin. apply list_elem_of_filter in Hin as [Hel _].
  by destruct Hel as (_ & Hne & _).
Qed.

Lemma analyze_dependencies_local_names_witness :
  ∃ a t',
    analyze_dependencies (Sample.world Sample.project) "proj/main.py" []
    = (inr a, t')
    ∧ local_module_names a = ["helper.py"]
    ∧ local_modules a = ["proj/helper.py"].
Proof.
  destruct (analyze_dependencies (Sample.world Sample.project)
              "proj/main.py" []) as [[b|a] t'] eqn:Hrun;
    [by vm_compute in Hrun|].
  exists a, t'. split; [done|].
  destruct (analyze_dependencies_local_names
              (Sample.world Sample.project) "proj/main.py" [] a t'
              ["main.py"; "helper.py"; "compiler.py"; "notes.txt"] Hrun)
    as (Hn & Hm & _).
  - reflexivity.
  - intros f Hf.
    repeat (apply elem_of_cons in Hf as [-> | Hf]; [by vm_compute|]).
    by apply elem_of_nil in Hf.
  - rewrite Hm, Hn. split; by vm_compute.
Defined.

(** X11.  [_cleanup_temp_files] never raises.  When neither the spec file
    nor the build directory is there it does nothing.  When the spec file
    is there and cannot be removed, it prints one warning and leaves the
    build directory alone: no removal of the directory is tried. *)
Theorem cleanup_stops_at_first_failure env d name t :
  let spec_file := os_path_join env d (name +:+ ".spec") in
  let build_dir := os_path_join env d "build" in
  (os_path_exists env t spec_file = false →
   os_path_exists env t build_dir = false →
   _cleanup_temp_files env d name t = (inr (), t))
  ∧ (∀ x,
       os_path_exists env t spec_file = true →
       os_remove env t spec_file = Some x →
       _cleanup_temp_files env d name t
       = (inr (), [cleanup_warning x; EvRemove spec_file (Some x)] ++ t))
  ∧ (∀ x,
       os_path_exists env t spec_file = false →
       os_path_exists env t build_dir = true →
       shutil_rmtree env t build_dir = Some x →
       _cleanup_temp_files env d name t
       = (inr (), [cleanup_warning x; EvRmtree build_dir (Some x)] ++ t)).
Proof.
  intros spec_file build_dir.
  unfold _cleanup_temp_files, try_except, bind, path_exists, remove, rmtree,
    outcome, ret, print.
  cbv zeta. fold spec_file build_dir.
  split; [|split].
  - by intros -> ->.
  - by intros x -> ->.
  - by intros x -> -> ->.
Qed.

Lemma cleanup_stops_at_first_failure_witness :
  _cleanup_temp_files (Sample.world Sample.remove_fails) "proj" "main"
    [EvRun ["pyinstaller"] None]
  = (inr (),
     [cleanup_warning (OtherException "[Errno 13] Permission denied");
      EvRemove "proj/main.spec"
        (Some (OtherException "[Errno 13] Permission denied"));
      EvRun ["pyinstaller"] None]).
Proof.
  by apply (proj1 (proj2 (cleanup_stops_at_first_failure
                            (Sample.world Sample.remove_fails) "proj" "main"
                            [EvRun ["pyinstaller"] None]))).
Defined.

(** ** More on packaging *)

Section Packaging_emits.

Context (env : Env) (P : event → Prop).
Hypothesis P_print : ∀ line, P (EvPrint line).
Hypothesis P_import : ∀ name r, P (EvImport name r).
Hypothesis P_check_call : ∀ args r, P (EvCheckCall args r).
Hypothesis P_run : ∀ cmd r, P (EvRun cmd r).
Hypothesis P_remove : ∀ p r, P (EvRemove p r).
Hypothesis P_rmtree : ∀ p r, P (EvRmtree p r).
Hypothesis P_confirm : emits P (confirm_install env).

Lemma ensure_project_dependencies_emits_confirm path :
  emits P (ensure_project_dependencies env path).
Proof.
  unfold ensure_project_dependencies. emits_go;
    auto using find_requirements_file_emits, parse_requirements_file_emits,
      missing_of_emits, install_missing_emits.
Qed.

Lemma emits_run cmd : emits P (run env cmd).
Proof. intros t. by apply emits_outcome. Qed.

Lemma emits_remove p : emits P (remove env p).
Proof. intros t. by apply emits_outcome. Qed.

Lemma emits_rmtree p : emits P (rmtree env p).
Proof. intros t. by apply emits_outcome. Qed.

Lemma cleanup_emits d name : emits P (_cleanup_temp_files env d name).
Proof.
  unfold _cleanup_temp_files. emits_go;
    auto using emits_remove, emits_rmtree.
Qed.

Lemma compile_body_emits path out : emits P (compile_body env path out).
Proof.
  unfold compile_body. cbv zeta. emits_go;
    auto using ensure_compiler_dependencies_emits,
      ensure_project_dependencies_emits_confirm, analyze_dependencies_emits,
      emits_run, cleanup_emits.
Qed.

Lemma compile_to_exe_emits path out : emits P (compile_to_exe env path out).
Proof.
  unfold compile_to_exe. apply emits_try_except; [apply compile_body_emits|].
  emits_handler; emits_go.
Qed.

End Packaging_emits.

Section Compile_more.

Context (env : Env).

Lemma confirm_install_batch P :
  length (sys_argv env) ≠ 1 → emits P (confirm_install env).
Proof.
  intros Hargv. unfold confirm_install.
  rewrite bool_decide_eq_false_2 by done. apply emits_ret.
Qed.

(** [compile_to_exe] answers [True] exactly when the packaging tool has
    run and succeeded, and it is left only by what an import or a prompt
    has raised outside [Exception]. *)
Lemma compile_to_exe_result path out t :
  ∃ r new,
    compile_to_exe env path out t = (r, new ++ t)
    ∧ (r = inr true ↔ ∃ cmd, EvRun cmd None ∈ new)
    ∧ (∀ b, r = inl b →
            (∀ x, b ≠ Exc x) ∧ ∃ e rest, new = e :: rest ∧ raised_by b e).
Proof.
  destruct (compile_to_exe_compiled env path out t)
    as (r & t' & Hrun & Hc & _).
  assert (∃ new, t' = new ++ t) as [new ->].
  { inversion Hc as [new0 | b e rest | a ta early e ? ? d cmd pre
                      | a ta early post ? ? d cmd pre built]; subst.
    - by exists new0.
    - by exists (e :: rest).
    - exists (compile_report e ++ EvRun cmd (Some e) :: pre).
      by rewrite <- app_assoc.
    - exists (post ++ EvPrint "✅ Compilation completed successfully!"
                :: EvRun cmd None :: pre).
      by rewrite <- app_assoc. }
  exists r, new. split; [done|].
  apply compiled_new in Hc
    as [[Hprep Hr]
       | [(a & ta & early & x & -> & Hprep & Ha & ->)
         | (a & ta & early & post & -> & Hprep & Ha & -> & Hpost & _)]].
  - split.
    + split.
      * intros ->. by destruct Hr as [? | (? & ? & ? & ? & _)].
      * intros [cmd Hin]. by apply (prep_elem _ _ Hprep) in Hin.
    + intros b ->. destruct Hr as [? | (b' & e & rest & [= <-] & Hne & -> & He)];
        [done|].
      split; [done|]. by exists e, rest.
  - split; [|done]. split; [done|]. intros [cmd Hin]. exfalso.
    apply elem_of_app in Hin as [Hin | Hin].
    { by apply (print_elem _ _ (compile_report_prints x)) in Hin. }
    apply elem_of_cons in Hin as [[=] | Hin].
    apply elem_of_app in Hin as [Hin | Hin].
    + by apply (print_elem _ _ (compile_banner_prints _ _ _ _)) in Hin.
    + by apply (prep_elem _ _ Hprep) in Hin.
  - split; [|done]. split; [|done]. intros _. eexists.
    apply elem_of_app. right. apply elem_of_cons. right.
    apply elem_of_cons. by left.
Qed.

End Compile_more.

(** X12.  When the program was started with arguments on the command
    line (or with an empty [sys.argv]), [compile_to_exe] never asks a
    question: no prompt is among what it does. *)
Theorem compile_to_exe_batch_never_asks env path out t :
  length (sys_argv env) ≠ 1 →
  ∃ new,
    (compile_to_exe env path out t).2 = new ++ t
    ∧ Forall (λ e, ¬ is_input e) new.
Proof.
  intros Hargv.
  destruct (compile_to_exe_emits env (λ e, ¬ is_input e)) with (path := path)
    (out := out) (t := t) as [_ Hnew]; try (by intros ? ? []).
  - by intros ? [].
  - by apply confirm_install_batch.
  - exact Hnew.
Qed.

Lemma compile_to_exe_batch_never_asks_witness :
  ∃ new,
    (compile_to_exe (Sample.world Sample.tool_in_manifest) "proj/main.py"
       None []).2 = new ++ []
    ∧ Forall (λ e, ¬ is_input e) new.
Proof.
  apply compile_to_exe_batch_never_asks. by vm_compute.
Defined.

(** X13.  When both dependency steps have passed and the listing of the
    directory of the entry raises [FileNotFoundError], as it does for a
    directory that is not there, [compile_to_exe] answers [False] without
    running the packaging tool, and the message it prints is that
    PyInstaller was not found.  Only the warning of [extract_imports] for
    the entry may stand before it. *)
Theorem compile_to_exe_listing_error env path out t t1 t2 msg :
  ensure_compiler_dependencies env t = (inr true, t1) →
  ensure_project_dependencies env path t1 = (inr true, t2) →
  (∀ t', os_listdir env t' (os_path_dirname env path)
         = inl (FileNotFoundError msg)) →
  ∃ warn,
    compile_to_exe env path out t
    = (inr false,
       EvPrint "❌ Error: PyInstaller not found. Install with: pip install pyinstaller"
       :: warn ++ EvPrint "🔍 Analyzing dependencies..." :: t2)
    ∧ (warn = [] ∨ ∃ e, warn = [parse_warning path e]).
Proof.
  intros Hc Hp Hlist.
  unfold compile_to_exe, try_except, compile_body. cbv zeta.
  rewrite bind_run, Hc. cbn [negb]. cbv beta iota.
  rewrite bind_run, Hp. cbn [negb]. cbv beta iota.
  repeat run_step.
  unfold analyze_dependencies. rewrite bind_run, extract_imports_run.
  destruct (open_read env _ path) as [e|content].
  - cbv beta iota. rewrite bind_run, find_local_modules_run, Hlist.
    cbv beta iota. simpl. exists [parse_warning path e].
    split; [done | right; by exists e].
  - destruct (ast_parse env content) as [e|tree].
    + cbv beta iota. rewrite bind_run, find_local_modules_run, Hlist.
      cbv beta iota. simpl. exists [parse_warning path e].
      split; [done | right; by exists e].
    + cbv beta iota. rewrite bind_run, find_local_modules_run, Hlist.
      cbv beta iota. simpl. exists []. split; [done | by left].
Qed.

Lemma compile_to_exe_listing_error_witness :
  ∃ warn,
    compile_to_exe (Sample.world Sample.project) "main.py" None []
    = (inr false,
       EvPrint "❌ Error: PyInstaller not found. Install with: pip install pyinstaller"
       :: warn ++ EvPrint "🔍 Analyzing dependencies..."
       :: [EvPrint "📋 No requirements.txt found - skipping project dependencies";
           EvImport "pyinstaller" None])
    ∧ (warn = [] ∨ ∃ e, warn = [parse_warning "main.py" e]).
Proof.
  apply (compile_to_exe_listing_error (Sample.world Sample.project)
           "main.py" None [] [EvImport "pyinstaller" None] _
           "[Errno 2] No such file or directory").
  - reflexivity.
  - reflexivity.
  - intros t'. reflexivity.
Defined.

(** ** Finding the entry and asking for it *)

Section Front_facts.

Context (env : Env) (host : Host).

Lemma eligible_test own file :
  Str.endswith file ".py" && negb (bool_decide (file = own))
  && negb (Str.startswith file "compiler") = true
  ↔ eligible own file.
Proof.
  unfold eligible.
  rewrite !andb_true_iff, !negb_true_iff, bool_decide_eq_false.
  rewrite Is_true_true, Is_true_false. tauto.
Qed.

Lemma first_python_file_spec directory files :
  let own := os_path_basename env (__file__ host) in
  match first_python_file env host directory files with
  | Some p =>
      ∃ before file after,
        files = before ++ file :: after
        ∧ Forall (λ f, ¬ eligible own f) before
        ∧ eligible own file
        ∧ p = os_path_join env directory file
  | None => Forall (λ f, ¬ eligible own f) files
  end.
Proof.
  intros own. induction files as [|file files IH]; [by apply Forall_nil|].
  cbn [first_python_file]. fold own.
  destruct (_ && _) eqn:Htest.
  - apply eligible_test in Htest. by exists [], file, files.
  - assert (¬ eligible own file) as Hno.
    { intros He. apply eligible_test in He. congruence. }
    destruct (first_python_file env host directory files) as [p|].
    + destruct IH as (before & f & after & -> & Hb & Hf & ->).
      exists (file :: before), f, after. split_and!; try done.
      by apply Forall_cons.
    + by apply Forall_cons.
Qed.

Lemma analyze_dependencies_raises path t b t' :
  analyze_dependencies env path t = (inl b, t') →
  ∃ e t1, b = Exc e ∧ os_listdir env t1 (os_path_dirname env path) = inl e.
Proof.
  unfold analyze_dependencies. rewrite bind_run.
  destruct (extract_imports_returns env path t) as (entry & t1 & ->).
  rewrite bind_run, find_local_modules_run.
  destruct (os_listdir env t1 _) as [e|files] eqn:Hl.
  - intros [= <- <-]. eauto.
  - cbv beta iota. set (modules := map _ _).
    destruct (gather_imports env modules (list_to_set entry) t1)
      as (per & t2 & _ & Hloop).
    by rewrite bind_run, Hloop.
Qed.

End Front_facts.

Section Needs_yes.

Lemma extends_ret {A} (a : A) : extends (ret a).
Proof. intros t. by exists []. Qed.

Lemma extends_bind {A B} (m : M A) (k : A → M B) :
  extends m → (∀ a, extends (k a)) → extends (bind m k).
Proof.
  intros Hm Hk t. unfold bind. destruct (Hm t) as (new & Hnew).
  destruct (m t) as [[e|a] t1]; simpl in Hnew; subst t1.
  - by exists new.
  - destruct (Hk a (new ++ t)) as (new' & Hnew'). exists (new' ++ new).
    by rewrite Hnew', app_assoc.
Qed.

Lemma extends_emits {A} P (m : M A) : emits P m → extends m.
Proof.
  intros Hm t. destruct (Hm t) as [_ (new & Hnew & _)]. by exists new.
Qed.

Lemma needs_yes_extends {A} (good : A → Prop) (m : M A) :
  needs_yes good m → extends m.
Proof. intros Hm t. destruct (Hm t) as (new & Hnew & _). by exists new. Qed.

Lemma needs_yes_ret {A} (good : A → Prop) a : good a → needs_yes good (ret a).
Proof.
  intros Hg t. exists []. split; [done|]. intros _.
  split; [by apply Forall_nil|]. by intros ? [= <-].
Qed.

Lemma needs_yes_emits {A} (m : M A) :
  emits talk m → needs_yes (λ _, True) m.
Proof.
  intros Hm t. destruct (Hm t) as [_ (new & Hnew & Htalk)]. by exists new.
Qed.

Lemma needs_yes_print line : needs_yes (λ _, True) (print line).
Proof. by apply needs_yes_emits, emits_print. Qed.

Lemma needs_yes_bind {A B} (good1 : A → Prop) (good2 : B → Prop)
  (m : M A) (k : A → M B) :
  needs_yes good1 m →
  (∀ a, extends (k a)) →
  (∀ a, good1 a → needs_yes good2 (k a)) →
  needs_yes good2 (bind m k).
Proof.
  intros Hm Hext Hk t. unfold bind. destruct (Hm t) as (new & Hnew & Hq).
  destruct (m t) as [[e|a] t1]; simpl in Hnew, Hq; subst t1.
  - exists new. split; [done|]. intros Hno. destruct (Hq Hno) as [Ht _].
    split; [done|]. by intros ? [=].
  - destruct (Hext a (new ++ t)) as (new' & Hnew'). exists (new' ++ new).
    split; [by rewrite Hnew', app_assoc|]. intros Hno.
    destruct Hq as [Ht Hg].
    { intros e He. apply Hno, elem_of_app. by right. }
    destruct (Hk a (Hg a eq_refl) (new ++ t)) as (new'' & Hnew'' & Hq').
    rewrite Hnew' in Hnew''. apply app_inv_tail in Hnew'' as <-.
    destruct Hq' as [Ht' Hg'].
    { intros e He. apply Hno, elem_of_app. by left. }
    split; [by apply Forall_app | done].
Qed.

Lemma needs_yes_seq {A B} (good : B → Prop) (m : M A) (k : A → M B) :
  needs_yes (λ _, True) m →
  (∀ a, needs_yes good (k a)) →
  needs_yes good (bind m k).
Proof.
  intros Hm Hk. apply needs_yes_bind with (good1 := λ _, True); [done| |done].
  intros a. by eapply needs_yes_extends.
Qed.

Context (env : Env) (host : Host).

Lemma needs_yes_input prompt :
  needs_yes (λ answer, Str.lower (Str.strip answer) ≠ "y")
    (input_ env prompt).
Proof.
  intros t. unfold input_. cbv zeta.
  exists [EvInput prompt (input env t prompt)]. split; [done|].
  intros Hno. split; [by repeat constructor|]. simpl. intros a Ha Hy.
  apply (Hno (EvInput prompt (inr a))); [|done].
  rewrite <- Ha. apply list_elem_of_here.
Qed.

Lemma extends_compile_to_exe path out : extends (compile_to_exe env path out).
Proof.
  intros t. destruct (compile_to_exe_result env path out t)
    as (b & new & -> & _).
  by exists new.
Qed.

Lemma ask_for_compilation_needs self path desc :
  needs_yes (λ b, b = false) (_ask_for_compilation env self path desc).
Proof.
  unfold _ask_for_compilation.
  apply needs_yes_seq; [apply needs_yes_print|]. intros _.
  apply needs_yes_seq.
  { by apply needs_yes_emits, analyze_dependencies_emits. }
  intros a.
  apply needs_yes_seq.
  { case_bool_decide; [by apply needs_yes_ret | apply needs_yes_print]. }
  intros _. apply needs_yes_seq.
  { case_bool_decide; [by apply needs_yes_ret | apply needs_yes_print]. }
  intros _. apply needs_yes_seq.
  { by apply needs_yes_emits, find_requirements_file_emits. }
  intros rp. apply needs_yes_seq.
  { destruct (Str.present rp) as [req|]; [|by apply needs_yes_ret].
    apply needs_yes_seq.
    { by apply needs_yes_emits, parse_requirements_file_emits. }
    intros names.
    case_bool_decide; [by apply needs_yes_ret | apply needs_yes_print]. }
  intros _.
  apply needs_yes_bind
    with (good1 := λ answer, Str.lower (Str.strip answer) ≠ "y").
  - apply needs_yes_input.
  - intros answer. apply extends_ret.
  - intros answer Hn. apply needs_yes_ret. by apply bool_decide_eq_false_2.
Qed.

Lemma confirmed_file_needs x (ask : string → M bool) :
  (∀ p, needs_yes (λ b, b = false) (ask p)) →
  needs_yes (λ c, c = None) (confirmed_file x ask).
Proof.
  intros Hask. unfold confirmed_file.
  destruct (Str.present x) as [p|]; [|by apply needs_yes_ret].
  apply needs_yes_bind with (good1 := λ b, b = false).
  - apply Hask.
  - intros yes. apply extends_ret.
  - intros yes ->. by apply needs_yes_ret.
Qed.

Lemma extends_select_file_dialog : extends (select_file_dialog host).
Proof.
  intros t. unfold select_file_dialog.
  destruct (askopenfilename host t); by exists [].
Qed.

Lemma manual_file_selection_needs self :
  needs_yes (λ b, b = false) (_manual_file_selection env host self).
Proof.
  unfold _manual_file_selection.
  apply needs_yes_seq; [apply needs_yes_print|]. intros _.
  apply needs_yes_bind
    with (good1 := λ answer, Str.lower (Str.strip answer) ≠ "y").
  - apply needs_yes_input.
  - intros answer. case_bool_decide.
    + apply extends_bind; [apply extends_select_file_dialog|].
      intros [p|]; [apply extends_compile_to_exe|].
      eapply needs_yes_extends, needs_yes_seq; [apply needs_yes_print|].
      intros _. by apply (needs_yes_ret (λ _, True)).
    + eapply needs_yes_extends, needs_yes_seq; [apply needs_yes_print|].
      intros _. by apply (needs_yes_ret (λ _, True)).
  - intros answer Hn. rewrite bool_decide_eq_false_2 by done.
    apply needs_yes_seq; [apply needs_yes_print|]. intros _.
    by apply needs_yes_ret.
Qed.

Lemma run_auto_mode_needs self :
  needs_yes (λ b, b = false) (run_auto_mode env host self).
Proof.
  unfold run_auto_mode.
  do 4 (apply needs_yes_seq; [apply needs_yes_print|]; intros _).
  apply needs_yes_seq.
  { apply needs_yes_emits. unfold find_main_py. emits_go. }
  intros main_py.
  match goal with |- needs_yes _ (bind _ ?k) =>
    assert (needs_yes (λ b, b = false) (k None)) as Hrest
  end.
  { cbv beta iota. apply needs_yes_seq.
    { apply needs_yes_emits. unfold find_any_python_file. emits_go. }
    intros any_py_file.
    apply needs_yes_bind with (good1 := λ c, c = None).
    - apply confirmed_file_needs. intros p. apply ask_for_compilation_needs.
    - intros [p|]; [apply extends_compile_to_exe|].
      eapply needs_yes_extends, manual_file_selection_needs.
    - intros c ->. apply manual_file_selection_needs. }
  apply needs_yes_bind with (good1 := λ c, c = None).
  - apply confirmed_file_needs. intros p. apply ask_for_compilation_needs.
  - intros [p|]; [apply extends_compile_to_exe|].
    eapply needs_yes_extends, Hrest.
  - intros c ->. apply Hrest.
Qed.

End Needs_yes.

(** X14.  [find_any_python_file] answers the first file of the listing,
    joined to the directory, that ends in [.py], is not the program itself
    and does not start with [compiler]; it answers [None] when the listing
    has no such file, and an error of the listing goes on to the caller. *)
Theorem find_any_python_file_first env host directory t :
  let own := os_path_basename env (__file__ host) in
  match os_listdir env t directory with
  | inl e => find_any_python_file env host directory t = (inl (Exc e), t)
  | inr files =>
      ∃ found,
        find_any_python_file env host directory t = (inr found, t)
        ∧ match found with
          | Some p =>
              ∃ before file after,
                files = before ++ file :: after
                ∧ Forall (λ f, ¬ eligible own f) before
                ∧ eligible own file
                ∧ p = os_path_join env directory file
          | None => Forall (λ f, ¬ eligible own f) files
          end
  end.
Proof.
  intros own. unfold find_any_python_file, bind, listdir.
  destruct (os_listdir env t directory) as [e|files]; [done|].
  eexists. split; [done|]. apply first_python_file_spec.
Qed.

(** X15.  [_ask_for_compilation] prints what it has found and asks once.
    It answers [True] only for an answer that is [y] once trimmed and put
    in lower case; any other answer, [yes] and the empty answer among
    them, declines.  An end of input or an interrupt at the prompt is not
    caught, and neither is an error of the listing of the entry's
    directory, which is raised before the question. *)
Theorem ask_for_compilation_answer env self path desc t :
  ∃ shown,
    Forall (λ e, is_print e = true) shown
    ∧ ((∃ e t1,
          _ask_for_compilation env self path desc t
          = (inl (Exc e), shown ++ t)
          ∧ os_listdir env t1 (os_path_dirname env path) = inl e)
       ∨ let prompt := "Compile this file? (y/n): " in
         let answer := input env (shown ++ t) prompt in
         _ask_for_compilation env self path desc t
         = (match answer with
            | inl b => inl b
            | inr s => inr (bool_decide (Str.lower (Str.strip s) = "y"))
            end,
            EvInput prompt answer :: shown ++ t)).
Proof.
  unfold _ask_for_compilation. rewrite bind_run, print_run. cbv beta iota.
  rewrite bind_run.
  match goal with |- context [analyze_dependencies env path ?t0] =>
    destruct (analyze_dependencies_emits env (λ e, is_print e = true)
                (λ _, eq_refl) path t0) as [_ (new & Hnew & Hprints)];
    destruct (analyze_dependencies env path t0) as [[b|a] t1] eqn:Ha
  end; simpl in Hnew; subst t1.
  - apply analyze_dependencies_raises in Ha as (e & t1 & -> & Hl).
    exists (new ++ [EvPrint ("✅ Found " +:+ desc +:+ ": " +:+ path)]).
    split.
    { apply Forall_app. split; [done | by apply Forall_singleton]. }
    left. exists e, t1. by rewrite <- app_assoc.
  - set (pre := new ++ [EvPrint ("✅ Found " +:+ desc +:+ ": " +:+ path)]).
    assert (Forall (λ e, is_print e = true) pre) as Hpre.
    { apply Forall_app. split; [done | by apply Forall_singleton]. }
    replace (new ++ EvPrint ("✅ Found " +:+ desc +:+ ": " +:+ path) :: t)
      with (pre ++ t) by (unfold pre; by rewrite <- app_assoc).
    clearbody pre. clear Ha Hprints new.
    assert (∀ shown,
              Forall (λ e, is_print e = true) shown →
              ∃ shown',
                Forall (λ e, is_print e = true) shown'
                ∧ (let* answer := input_ env "Compile this file? (y/n): " in
                   ret (bool_decide (Str.lower (Str.strip answer) = "y")))
                    (shown ++ t)
                  = (match input env (shown' ++ t)
                             "Compile this file? (y/n): " with
                     | inl b => inl b
                     | inr s =>
                         inr (bool_decide (Str.lower (Str.strip s) = "y"))
                     end,
                     EvInput "Compile this file? (y/n): "
                       (input env (shown' ++ t) "Compile this file? (y/n): ")
                     :: shown' ++ t)) as Hask.
    { intros shown Hs. exists shown. split; [done|].
      rewrite bind_run. unfold input_. cbv zeta.
      by destruct (input env (shown ++ t) _). }
    assert (∀ shown r,
              Forall (λ e, is_print e = true) shown →
              r = (let* answer := input_ env "Compile this file? (y/n): " in
                   ret (bool_decide (Str.lower (Str.strip answer) = "y")))
                    (shown ++ t) →
              ∃ shown',
                Forall (λ e, is_print e = true) shown'
                ∧ ((∃ e t1,
                      r = (inl (Exc e), shown' ++ t)
                      ∧ os_listdir env t1 (os_path_dirname env path) = inl e)
                   ∨ r = (match input env (shown' ++ t)
                                  "Compile this file? (y/n): " with
                          | inl b => inl b
                          | inr s =>
                              inr (bool_decide
                                     (Str.lower (Str.strip s) = "y"))
                          end,
                          EvInput "Compile this file? (y/n): "
                            (input env (shown' ++ t)
                               "Compile this file? (y/n): ")
                          :: shown' ++ t))) as Hend.
    { intros shown r Hs ->. destruct (Hask shown Hs) as (shown' & Hs' & ->).
      exists shown'. split; [done|]. by right. }
    clear Hask. cbv beta iota.
    rewrite bind_run.
    destruct (bool_decide (local_modules a = []));
      rewrite ?ret_run, ?print_run; cbv beta iota;
      rewrite bind_run;
      (destruct (bool_decide (external_imports a = []));
       rewrite ?ret_run, ?print_run; cbv beta iota;
       rewrite bind_run, find_requirements_file_run;
       cbv beta iota; rewrite bind_run;
       (destruct (Str.present _) as [req|];
        [ rewrite bind_run;
          match goal with |- context [parse_requirements_file env req ?t0] =>
            destruct (parse_requirements_file_prints env req t0)
              as (names & line & ->)
          end;
          cbv beta iota;
          destruct (bool_decide (names = []));
          rewrite ?ret_run, ?print_run; cbv beta iota
        | rewrite ret_run; cbv beta iota ]));
      match goal with
      | |- context [bind (input_ env _) _ (?e1 :: ?e2 :: ?e3 :: ?e4 :: pre ++ t)] =>
          apply (Hend (e1 :: e2 :: e3 :: e4 :: pre)); [|done]
      | |- context [bind (input_ env _) _ (?e1 :: ?e2 :: ?e3 :: pre ++ t)] =>
          apply (Hend (e1 :: e2 :: e3 :: pre)); [|done]
      | |- context [bind (input_ env _) _ (?e1 :: ?e2 :: pre ++ t)] =>
          apply (Hend (e1 :: e2 :: pre)); [|done]
      | |- context [bind (input_ env _) _ (?e1 :: pre ++ t)] =>
          apply (Hend (e1 :: pre)); [|done]
      | |- context [bind (input_ env _) _ (pre ++ t)] =>
          apply (Hend pre); [|done]
      end;
      repeat (apply Forall_cons; split; [done|]); done.
Qed.

(** X16.  Without an answer [y] at one of its prompts, [run_auto_mode]
    does nothing but print and ask: nothing is probed, installed, packaged
    or removed, and the result is not [True]. *)
Theorem run_auto_mode_needs_yes env host self t :
  ∃ new,
    (run_auto_mode env host self t).2 = new ++ t
    ∧ ((∀ e, e ∈ new → ¬ says_y e) →
       Forall talk new
       ∧ (run_auto_mode env host self t).1 ≠ inr true).
Proof.
  destruct (run_auto_mode_needs env host self t) as (new & Hnew & Hq).
  exists new. split; [done|]. intros Hno. destruct (Hq Hno) as [Ht Hg].
  split; [done|]. intros Hr. by specialize (Hg true Hr).
Qed.

Lemma run_auto_mode_needs_yes_witness :
  let env := Sample.world (Sample.prompted (inr "n")) in
  let run := run_auto_mode env desk (AutoCompiler_init env desk) [] in
  Forall talk run.2 ∧ run.1 ≠ inr true.
Proof.
  intros env run.
  destruct (run_auto_mode_needs_yes env desk (AutoCompiler_init env desk) [])
    as (new & Hnew & Hq).
  fold run in Hnew, Hq. rewrite app_nil_r in Hnew. rewrite Hnew.
  apply Hq. intros e He Hy. rewrite <- Hnew in He. vm_compute in He.
  repeat (apply elem_of_cons in He as [-> | He]; [by vm_compute in Hy|]).
  by apply elem_of_nil in He.
Defined.

(** X17.  Started with arguments, [main] runs [compile_to_exe] on the
    first argument, with the second as output directory when there is
    one, and asks nothing.  When [compile_to_exe] returns, [main] ends by
    [sys.exit]: with code 0 when the packaging tool has run and succeeded,
    with code 1 otherwise.  [main] is left by an exception only when the
    import of a probed module has raised something outside [Exception];
    that import is then the last thing done. *)
Theorem main_batch env host t :
  1 < length (sys_argv env) →
  ∃ script r new,
    sys_argv env !! 1 = Some script
    ∧ compile_to_exe env script (sys_argv env !! 2) t = (r, new ++ t)
    ∧ (main env host t).2 = new ++ t
    ∧ Forall (λ e, ¬ is_input e) new
    ∧ match r with
      | inr b =>
          (main env host t).1 = inr (SystemExit (if b then 0 else 1))
          ∧ (b = true ↔ ∃ cmd, EvRun cmd None ∈ new)
      | inl exn =>
          (main env host t).1 = inl exn
          ∧ (∀ x, exn ≠ Exc x)
          ∧ ∃ name rest, new = EvImport name (Some exn) :: rest
      end.
Proof.
  intros Hargv.
  destruct (lookup_lt_is_Some_2 (sys_argv env) 1 Hargv) as [script Hscript].
  destruct (compile_to_exe_result env script (sys_argv env !! 2) t)
    as (r & new & Hrun & Hb & Hleft).
  exists script, r, new. split; [done|]. split; [done|].
  assert ((if bool_decide (2 < length (sys_argv env))
           then sys_argv env !! 2 else None) = sys_argv env !! 2) as Hout.
  { case_bool_decide; [done|]. symmetry. apply lookup_ge_None. lia. }
  assert (main env host t
          = (match r with
             | inr b => inr (SystemExit (if b then 0 else 1))
             | inl exn => inl exn
             end, new ++ t)) as Hmain.
  { unfold main. rewrite bool_decide_eq_true_2 by done. cbv zeta.
    rewrite Hout, Hscript. simpl. rewrite bind_run, Hrun.
    by destruct r. }
  assert (Forall (λ e, ¬ is_input e) new) as Hquiet.
  { destruct (compile_to_exe_emits env (λ e, ¬ is_input e))
      with (path := script) (out := sys_argv env !! 2) (t := t)
      as [_ (new' & Hnew & Hquiet)]; try (by intros ? ? []).
    + by intros ? [].
    + apply confirm_install_batch. lia.
    + rewrite Hrun in Hnew. simpl in Hnew.
      by apply app_inv_tail in Hnew as ->. }
  rewrite Hmain. simpl. split; [done|]. split; [done|].
  destruct r as [exn|b].
  - split; [done|]. destruct (Hleft exn eq_refl) as (Hne & e & rest & -> & He).
    split; [done|]. apply Forall_cons in Hquiet as [Hnot _].
    destruct e as [|prompt [] |name [b|]| | | |]; try done.
    simpl in He. subst b. by exists name, rest.
  - split; [done|]. rewrite <- Hb. split; [by intros -> | by intros [= ->]].
Qed.

Lemma main_batch_witness :
  ∃ script r new,
    sys_argv (Sample.world Sample.project) !! 1 = Some script
    ∧ compile_to_exe (Sample.world Sample.project) script
        (sys_argv (Sample.world Sample.project) !! 2) []
      = (r, new ++ [])
    ∧ (main (Sample.world Sample.project) desk []).2 = new ++ []
    ∧ Forall (λ e, ¬ is_input e) new
    ∧ match r with
      | inr b =>
          (main (Sample.world Sample.project) desk []).1
          = inr (SystemExit (if b then 0 else 1))
          ∧ (b = true ↔ ∃ cmd, EvRun cmd None ∈ new)
      | inl exn =>
          (main (Sample.world Sample.project) desk []).1 = inl exn
          ∧ (∀ x, exn ≠ Exc x)
          ∧ ∃ name rest, new = EvImport name (Some exn) :: rest
      end.
Proof.
  apply main_batch. simpl. lia.
Defined.

(** X18.  Started without arguments, [main] does nothing but print and
    ask unless it gets an answer [y]: nothing is probed, installed,
    packaged or removed, and it ends by [sys.exit(1)] or by the exception
    that ended the dialogue, never by returning. *)
Theorem main_auto_needs_yes env host t :
  length (sys_argv env) = 1 →
  ∃ new,
    (main env host t).2 = new ++ t
    ∧ ((∀ e, e ∈ new → ¬ says_y e) →
       Forall talk new
       ∧ ∀ ending, (main env host t).1 = inr ending → ending = SystemExit 1).
Proof.
  intros Hargv. revert t.
  change (needs_yes (λ e, e = SystemExit 1) (main env host)).
  unfold main.
  rewrite bool_decide_eq_false_2 by lia.
  rewrite bool_decide_eq_true_2 by done.
  apply needs_yes_bind with (good1 := λ b, b = false).
  - apply run_auto_mode_needs.
  - intros []; eapply needs_yes_extends, needs_yes_seq;
      try apply needs_yes_print; intros _;
      by apply (needs_yes_ret (λ _, True)).
  - intros b ->. apply needs_yes_seq; [apply needs_yes_print|]. intros _.
    by apply needs_yes_ret.
Qed.

Lemma main_auto_needs_yes_witness :
  ∃ new,
    (main (Sample.world (Sample.prompted (inr "n"))) desk []).2 = new ++ []
    ∧ ((∀ e, e ∈ new → ¬ says_y e) →
       Forall talk new
       ∧ ∀ ending,
           (main (Sample.world (Sample.prompted (inr "n"))) desk []).1
           = inr ending →
           ending = SystemExit 1).
Proof.
  by apply main_auto_needs_yes.
Defined.

(** ** How the program ends *)

Section Verdict.

Lemma chatty_ret {A} (a : A) : chatty (ret a).
Proof. intros t. exists []. split; [done | by apply Forall_nil]. Qed.

Lemma chatty_emits {A} (m : M A) : emits talk m → chatty m.
Proof. intros Hm t. by destruct (Hm t) as [_ Hnew]. Qed.

Lemma chatty_print line : chatty (print line).
Proof. by apply chatty_emits, emits_print. Qed.

Lemma chatty_bind {A B} (m : M A) (k : A → M B) :
  chatty m → (∀ a, chatty (k a)) → chatty (bind m k).
Proof.
  intros Hm Hk t. unfold bind. destruct (Hm t) as (new & Hnew & Htalk).
  destruct (m t) as [[e|a] t1]; simpl in Hnew; subst t1.
  - by exists new.
  - destruct (Hk a (new ++ t)) as (new' & Hnew' & Htalk').
    exists (new' ++ new). rewrite Hnew', app_assoc. split; [done|].
    by apply Forall_app.
Qed.

Lemma talk_no_run new cmd r : Forall talk new → EvRun cmd r ∉ new.
Proof.
  intros Htalk Hin. by apply (proj1 (Forall_forall _ _) Htalk) in Hin.
Qed.

Lemma verdict_ret_false : verdict (ret false).
Proof.
  intros t. exists []. split; [done|]. split; [done|].
  intros [cmd Hin]. by apply elem_of_nil in Hin.
Qed.

Lemma verdict_bind {A} (m : M A) (k : A → M bool) :
  chatty m → (∀ a, verdict (k a)) → verdict (bind m k).
Proof.
  intros Hm Hk t. unfold bind. destruct (Hm t) as (new & Hnew & Htalk).
  destruct (m t) as [[e|a] t1]; simpl in Hnew; subst t1.
  - exists new. split; [done|]. split; [done|].
    intros [cmd Hin]. by apply talk_no_run in Hin.
  - destruct (Hk a (new ++ t)) as (new' & Hnew' & Hiff).
    exists (new' ++ new). rewrite Hnew', app_assoc. split; [done|].
    rewrite Hiff. split; intros [cmd Hin]; exists cmd.
    + apply elem_of_app. by left.
    + apply elem_of_app in Hin as [Hin | Hin]; [done|].
      by apply talk_no_run in Hin.
Qed.

Context (env : Env) (host : Host).

Lemma chatty_input prompt : chatty (input_ env prompt).
Proof.
  intros t. unfold input_. cbv zeta. eexists [_]. split; [done|].
  by apply Forall_singleton.
Qed.

Lemma verdict_compile_to_exe path out : verdict (compile_to_exe env path out).
Proof.
  intros t. destruct (compile_to_exe_result env path out t)
    as (r & new & -> & Hb & _).
  by exists new.
Qed.

Lemma chatty_ask_for_compilation self path desc :
  chatty (_ask_for_compilation env self path desc).
Proof.
  unfold _ask_for_compilation.
  apply chatty_bind; [apply chatty_print|]. intros _.
  apply chatty_bind.
  { by apply chatty_emits, analyze_dependencies_emits. }
  intros a. apply chatty_bind.
  { case_bool_decide; [apply chatty_ret | apply chatty_print]. }
  intros _. apply chatty_bind.
  { case_bool_decide; [apply chatty_ret | apply chatty_print]. }
  intros _. apply chatty_bind.
  { by apply chatty_emits, find_requirements_file_emits. }
  intros rp. apply chatty_bind.
  { destruct (Str.present rp) as [req|]; [|apply chatty_ret].
    apply chatty_bind.
    { by apply chatty_emits, parse_requirements_file_emits. }
    intros names.
    case_bool_decide; [apply chatty_ret | apply chatty_print]. }
  intros _. apply chatty_bind; [apply chatty_input|]. intros answer.
  apply chatty_ret.
Qed.

Lemma chatty_confirmed_file x (ask : string → M bool) :
  (∀ p, chatty (ask p)) → chatty (confirmed_file x ask).
Proof.
  intros Hask. unfold confirmed_file.
  destruct (Str.present x) as [p|]; [|apply chatty_ret].
  apply chatty_bind; [apply Hask|]. intros yes. apply chatty_ret.
Qed.

Lemma chatty_select_file_dialog : chatty (select_file_dialog host).
Proof.
  intros t. unfold select_file_dialog.
  destruct (askopenfilename host t); exists []; (split; [done|]);
    by apply Forall_nil.
Qed.

Lemma verdict_print_false line : verdict (print line;;; ret false).
Proof. apply verdict_bind; [apply chatty_print|]. intros _. apply verdict_ret_false. Qed.

Lemma verdict_manual_file_selection self :
  verdict (_manual_file_selection env host self).
Proof.
  unfold _manual_file_selection.
  apply verdict_bind; [apply chatty_print|]. intros _.
  apply verdict_bind; [apply chatty_input|]. intros answer.
  case_bool_decide; [|apply verdict_print_false].
  apply verdict_bind; [apply chatty_select_file_dialog|].
  intros [p|]; [apply verdict_compile_to_exe | apply verdict_print_false].
Qed.

Lemma verdict_run_auto_mode self : verdict (run_auto_mode env host self).
Proof.
  unfold run_auto_mode.
  do 4 (apply verdict_bind; [apply chatty_print|]; intros _).
  apply verdict_bind.
  { apply chatty_emits. unfold find_main_py. emits_go. }
  intros main_py. apply verdict_bind.
  { apply chatty_confirmed_file. intros p. apply chatty_ask_for_compilation. }
  intros [p|]; [apply verdict_compile_to_exe|].
  apply verdict_bind.
  { apply chatty_emits. unfold find_any_python_file. emits_go. }
  intros any_py_file. apply verdict_bind.
  { apply chatty_confirmed_file. intros p. apply chatty_ask_for_compilation. }
  intros [p|]; [apply verdict_compile_to_exe|].
  apply verdict_manual_file_selection.
Qed.

End Verdict.

(** X19.  However it is started, [main] ends well, by returning or by
    [sys.exit(0)], exactly when the packaging tool has run and succeeded.
    With arguments it ends by [sys.exit], unless it is left by what an
    import has raised outside [Exception], which is then the last thing
    done; without arguments it never calls [sys.exit(0)]: it returns when
    the build succeeded, calls [sys.exit(1)] when it did not, and lets an
    exception of the dialogue through. *)
Theorem main_ends_well_iff_built env host t :
  ∃ new,
    (main env host t).2 = new ++ t
    ∧ ((main env host t).1 = inr Returned
       ∨ (main env host t).1 = inr (SystemExit 0)
       ↔ ∃ cmd, EvRun cmd None ∈ new)
    ∧ (1 < length (sys_argv env) →
       (∃ code, (main env host t).1 = inr (SystemExit code))
       ∨ ∃ exn e rest,
           (main env host t).1 = inl exn
           ∧ (∀ x, exn ≠ Exc x)
           ∧ new = e :: rest
           ∧ raised_by exn e)
    ∧ (length (sys_argv env) ≤ 1 →
       (main env host t).1 ≠ inr (SystemExit 0)).
Proof.
  unfold main. case_bool_decide as Hbatch; [|case_bool_decide as Hauto].
  - cbv zeta. rewrite bind_run.
    match goal with |- context [compile_to_exe env ?p ?o t] =>
      destruct (compile_to_exe_result env p o t)
        as (r & new & -> & Hb & Hleft)
    end.
    exists new. destruct r as [exn|b]; cbv beta iota.
    + simpl. split; [done|]. split; [|split; [|lia]].
      * rewrite <- Hb. split; [by intros [? | ?] | done].
      * intros _. right. destruct (Hleft exn eq_refl)
          as (Hne & e & rest & -> & He).
        by exists exn, e, rest.
    + rewrite ret_run. simpl.
      split; [done|]. split; [|split; [eauto | lia]].
      rewrite <- Hb. destruct b; split; try done.
      * by right.
      * by intros [? | ?].
  - rewrite bind_run.
    destruct (verdict_run_auto_mode env host (AutoCompiler_init env host) t)
      as (new & Hnew & Hiff).
    destruct (run_auto_mode env host _ t) as [[e|b] t1];
      simpl in Hnew, Hiff; subst t1.
    + exists new. simpl. split; [done|]. split; [|split; [lia | done]].
      rewrite <- Hiff. split; [by intros [? | ?] | done].
    + destruct b; cbv beta iota; repeat run_step.
      * eexists (_ :: new). simpl. split; [done|].
        split; [|split; [lia | done]].
        split; [|by left]. intros _.
        destruct (proj1 Hiff eq_refl) as [cmd Hin]. exists cmd.
        by apply list_elem_of_further.
      * eexists (_ :: new). simpl. split; [done|].
        split; [|split; [lia | done]].
        split; [by intros [? | ?]|]. intros [cmd Hin]. exfalso.
        apply elem_of_cons in Hin as [[=] | Hin].
        assert (inr false = inr true :> BaseException + bool) as [=].
        apply Hiff. eauto.
  - repeat run_step. eexists [_]. simpl. split; [done|].
    split; [|split; [lia | done]].
    split; [by intros [? | ?]|]. intros [cmd Hin].
    apply elem_of_cons in Hin as [[=] | Hin]. by apply elem_of_nil in Hin.
Qed.

Lemma main_ends_well_iff_built_witness :
  (main (Sample.world Sample.project) desk []).1 = inr (SystemExit 0)
  ∧ (main (Sample.world Sample.build_fails) desk []).1 = inr (SystemExit 1).
Proof.
  split.
  - destruct (main_ends_well_iff_built (Sample.world Sample.project) desk [])
      as (new & Hnew & Hiff & _).
    destruct (proj2 Hiff) as [Hr | Hr]; [|by vm_compute in Hr | done].
    rewrite app_nil_r in Hnew. rewrite <- Hnew. eexists.
    apply (list_elem_of_lookup_2 _ 3). by vm_compute.
  - destruct (main_ends_well_iff_built (Sample.world Sample.build_fails)
                desk [])
      as (new & Hnew & Hiff & Hexit & _).
    destruct Hexit as [[code Hcode] | (exn & e & rest & Hexn & _)];
      [simpl; lia | | by vm_compute in Hexn].
    rewrite Hcode. do 2 f_equal. destruct code as [|[|code]]; [|done|].
    + exfalso. destruct (proj1 Hiff (or_intror Hcode)) as [cmd Hin].
      rewrite app_nil_r in Hnew. rewrite <- Hnew in Hin.
      vm_compute in Hin.
      repeat (apply elem_of_cons in Hin as [[=] | Hin]).
      by apply elem_of_nil in Hin.
    + exfalso. by vm_compute in Hcode.
Defined.
